(** * A shallow embedding of jasy's JavaScript lexer (lib/js/Lexer.py)

    The lexer is a Python class with mutable fields; every method is
    embedded as a computation in a state monad over the [Lexer] record.
    A Python exception does not undo the mutations made before it was
    raised, so a computation returns an outcome together with the state
    reached, also when it raises. *)

From Stdlib Require Import ZArith String Ascii List Lia Bool QArith.
From stdpp Require Import base gmap.
Import ListNotations.

#[local] Open Scope string_scope.
#[local] Open Scope nat_scope.

(** ** Characters and strings

    A Python [str] is modelled as a [string] of 8-bit characters; every
    test the lexer makes on a character is a comparison of code points. *)

Definition ch_le (a b : ascii) : bool := (N_of_ascii a <=? N_of_ascii b)%N.
Definition ch_lt (a b : ascii) : bool := (N_of_ascii a <? N_of_ascii b)%N.
Definition ch_eq (a b : ascii) : bool := Ascii.eqb a b.

(** [lo <= ch and ch <= hi] *)
Definition between (lo hi ch : ascii) : bool := ch_le lo ch && ch_le ch hi.

Definition NL : ascii := "010"%char.
Definition TAB : ascii := "009"%char.
Definition BACKSLASH : ascii := "\"%char.
Definition DQUOTE : ascii := "034"%char.

Definition is_digit (ch : ascii) : bool := between "0" "9" ch.
Definition is_octal (ch : ascii) : bool := between "0" "7" ch.
Definition is_hex (ch : ascii) : bool :=
  between "0" "9" ch || between "a" "f" ch || between "A" "F" ch.
Definition is_lower (ch : ascii) : bool := between "a" "z" ch.
Definition is_ident_start (ch : ascii) : bool :=
  between "a" "z" ch || between "A" "Z" ch || ch_eq ch "$" || ch_eq ch "_".
Definition is_ident_part (ch : ascii) : bool :=
  between "a" "z" ch || between "A" "Z" ch || between "0" "9" ch
  || ch_eq ch "$" || ch_eq ch "_".

(** [s[a:b]] for [0 <= a], [0 <= b]: the slice is cut at the end of [s]. *)
Definition slice (s : string) (a b : nat) : string := substring a (b - a) s.

Definition str1 (ch : ascii) : string := String ch EmptyString.

(** ** The module's tables *)

Definition keywords : list string :=
  [ "break";
    "case"; "catch"; "const"; "continue";
    "debugger"; "default"; "delete"; "do";
    "else";
    "false"; "finally"; "for"; "function";
    "if"; "in"; "instanceof";
    "let";
    "new"; "null";
    "return";
    "switch";
    "this"; "throw"; "true"; "try"; "typeof";
    "var"; "void";
    "yield";
    "while"; "with" ].

Definition operatorNames : list (string * string) :=
  [ ("<", "lt"); (">", "gt"); ("<=", "le"); (">=", "ge"); ("!=", "ne");
    ("!", "not"); ("==", "eq"); ("===", "strict_eq"); ("!==", "strict_ne");
    (">>", "rsh"); ("<<", "lsh"); (">>>", "ursh");
    ("+", "plus"); ("*", "mul"); ("-", "minus"); ("/", "div"); ("%", "mod");
    (",", "comma"); (";", "semicolon"); (":", "colon"); ("=", "assign");
    ("?", "hook");
    ("&&", "and"); ("||", "or");
    ("++", "increment"); ("--", "decrement");
    (")", "right_paren"); ("(", "left_paren");
    ("[", "left_bracket"); ("]", "right_bracket");
    ("{", "left_curly"); ("}", "right_curly");
    ("&", "bitwise_and"); ("^", "bitwise_xor"); ("|", "bitwise_or");
    ("~", "bitwise_not") ].

Definition assignOperators : list string :=
  [ "|"; "^"; "&"; "<<"; ">>"; ">>>"; "+"; "-"; "*"; "/"; "%" ].

Definition str_in (s : string) (l : list string) : bool :=
  existsb (String.eqb s) l.

(** [operatorNames[op]], [None] when [op] is not a key. *)
Fixpoint assoc (k : string) (l : list (string * string)) : option string :=
  match l with
  | [] => None
  | (k', v) :: l' => if String.eqb k k' then Some v else assoc k l'
  end.

Definition is_operator (op : string) : bool :=
  match assoc op operatorNames with Some _ => true | None => false end.

(** ** Values, tokens, exceptions *)

(** A decimal number [dec_mant * 10 ^ dec_exp]: the exact value of the text
    handed to Python's [float], before its rounding to a binary double. *)
Record Dec := { dec_mant : Z; dec_exp : Z }.

Inductive Value :=
| VInt (z : Z)
| VFloat (d : Dec)
| VStr (s : string)
| VObj (s : string).

(** A [Token] is a bare Python object: each attribute is absent until it
    is assigned.  [t_assignOp] holds [Some None] once assigned [None]. *)
Record Token := {
  t_type : option string;
  t_value : option Value;
  t_start : option nat;
  t_end : option nat;
  t_line : option nat;
  t_assignOp : option (option string)
}.

Definition new_Token : Token :=
  {| t_type := None; t_value := None; t_start := None; t_end := None;
     t_line := None; t_assignOp := None |}.

Definition with_type (ty : string) (t : Token) : Token :=
  {| t_type := Some ty; t_value := t_value t; t_start := t_start t;
     t_end := t_end t; t_line := t_line t; t_assignOp := t_assignOp t |}.
Definition with_value (v : Value) (t : Token) : Token :=
  {| t_type := t_type t; t_value := Some v; t_start := t_start t;
     t_end := t_end t; t_line := t_line t; t_assignOp := t_assignOp t |}.
Definition with_start (n : nat) (t : Token) : Token :=
  {| t_type := t_type t; t_value := t_value t; t_start := Some n;
     t_end := t_end t; t_line := t_line t; t_assignOp := t_assignOp t |}.
Definition with_end (n : nat) (t : Token) : Token :=
  {| t_type := t_type t; t_value := t_value t; t_start := t_start t;
     t_end := Some n; t_line := t_line t; t_assignOp := t_assignOp t |}.
Definition with_line (n : nat) (t : Token) : Token :=
  {| t_type := t_type t; t_value := t_value t; t_start := t_start t;
     t_end := t_end t; t_line := Some n; t_assignOp := t_assignOp t |}.
Definition with_assignOp (o : option string) (t : Token) : Token :=
  {| t_type := t_type t; t_value := t_value t; t_start := t_start t;
     t_end := t_end t; t_line := t_line t; t_assignOp := Some o |}.

(** [ParseError] is the module's own exception class, whose constructor
    formats its three arguments into the message of the exception; the
    others are the Python built-ins the lexer's code can raise. *)
Inductive Exn :=
| ParseError (message filename : string) (line : nat)
| IndexError
| KeyError
| AttributeError (attr : string)
| NameError (name : string)
| ValueError
| SyntaxError.

Definition is_ParseError (e : Exn) : bool :=
  match e with ParseError _ _ _ => true | _ => false end.

(** ** The lexer object *)

Record Lexer := {
  cursor : nat;
  source : string;
  tokens : gmap Z Token;
  tokenIndex : Z;
  lookahead : nat;
  scanNewlines : bool;
  scanOperand : bool;
  filename : string;
  line : nat
}.

(** [Lexer.__init__] *)
Definition Lexer_init (src fname : string) : Lexer :=
  {| cursor := 0; source := src; tokens := ∅; tokenIndex := 0;
     lookahead := 0; scanNewlines := false; scanOperand := true;
     filename := fname; line := 1 |}.

Definition set_cursor (c : nat) (L : Lexer) : Lexer :=
  {| cursor := c; source := source L; tokens := tokens L;
     tokenIndex := tokenIndex L; lookahead := lookahead L;
     scanNewlines := scanNewlines L; scanOperand := scanOperand L;
     filename := filename L; line := line L |}.
Definition set_line (n : nat) (L : Lexer) : Lexer :=
  {| cursor := cursor L; source := source L; tokens := tokens L;
     tokenIndex := tokenIndex L; lookahead := lookahead L;
     scanNewlines := scanNewlines L; scanOperand := scanOperand L;
     filename := filename L; line := n |}.
Definition set_tokens (m : gmap Z Token) (L : Lexer) : Lexer :=
  {| cursor := cursor L; source := source L; tokens := m;
     tokenIndex := tokenIndex L; lookahead := lookahead L;
     scanNewlines := scanNewlines L; scanOperand := scanOperand L;
     filename := filename L; line := line L |}.
Definition set_tokenIndex (i : Z) (L : Lexer) : Lexer :=
  {| cursor := cursor L; source := source L; tokens := tokens L;
     tokenIndex := i; lookahead := lookahead L;
     scanNewlines := scanNewlines L; scanOperand := scanOperand L;
     filename := filename L; line := line L |}.
Definition set_lookahead (n : nat) (L : Lexer) : Lexer :=
  {| cursor := cursor L; source := source L; tokens := tokens L;
     tokenIndex := tokenIndex L; lookahead := n;
     scanNewlines := scanNewlines L; scanOperand := scanOperand L;
     filename := filename L; line := line L |}.
Definition set_scanNewlines (b : bool) (L : Lexer) : Lexer :=
  {| cursor := cursor L; source := source L; tokens := tokens L;
     tokenIndex := tokenIndex L; lookahead := lookahead L;
     scanNewlines := b; scanOperand := scanOperand L;
     filename := filename L; line := line L |}.
Definition set_scanOperand (b : bool) (L : Lexer) : Lexer :=
  {| cursor := cursor L; source := source L; tokens := tokens L;
     tokenIndex := tokenIndex L; lookahead := lookahead L;
     scanNewlines := scanNewlines L; scanOperand := b;
     filename := filename L; line := line L |}.

(** ** The monad of lexer methods *)

(** [OutOfFuel] is not a Python outcome: it marks a loop of the model that
    was given too few iterations, which [get_has_fuel] and [call_has_fuel]
    below show never to happen. *)
Inductive Res (A : Type) :=
| Ok (a : A)
| Raise (e : Exn)
| OutOfFuel.
Arguments Ok {A} a.
Arguments Raise {A} e.
Arguments OutOfFuel {A}.

Definition M (A : Type) : Type := Lexer -> Res A * Lexer.

Definition ret {A} (a : A) : M A := fun L => (Ok a, L).

Definition bind {A B} (m : M A) (f : A -> M B) : M B :=
  fun L =>
    match m L with
    | (Ok a, L') => f a L'
    | (Raise e, L') => (Raise e, L')
    | (OutOfFuel, L') => (OutOfFuel, L')
    end.

Definition raise {A} (e : Exn) : M A := fun L => (Raise e, L).
Definition out_of_fuel {A} : M A := fun L => (OutOfFuel, L).

(** [try: m  except IndexError: h] *)
Definition try_IndexError {A} (m : M A) (h : M A) : M A :=
  fun L =>
    match m L with
    | (Raise IndexError, L') => h L'
    | r => r
    end.

Definition self : M Lexer := fun L => (Ok L, L).
Definition modify (f : Lexer -> Lexer) : M unit := fun L => (Ok tt, f L).

Declare Scope lexer_scope.
Delimit Scope lexer_scope with lexer.
Notation "x <- m ;; k" := (bind m (fun x => k))
  (at level 100, m at next level, right associativity) : lexer_scope.
Notation "m ;; k" := (bind m (fun _ => k))
  (at level 100, right associativity) : lexer_scope.
#[local] Open Scope lexer_scope.

(** [raise ParseError(msg, self.filename, self.line)] *)
Definition raise_ParseError {A} (msg : string) : M A :=
  fun L => (Raise (ParseError msg (filename L) (line L)), L).

(** [input[self.cursor]]: [IndexError] past the end of the source. *)
Definition read_input : M ascii :=
  fun L =>
    match String.get (cursor L) (source L) with
    | Some ch => (Ok ch, L)
    | None => (Raise IndexError, L)
    end.

(** [self.cursor += 1] and [self.cursor -= 1].  The cursor is a natural
    number: the lexer decrements it only after having incremented it. *)
Definition advance : M unit := modify (fun L => set_cursor (cursor L + 1) L).
Definition retreat : M unit := modify (fun L => set_cursor (cursor L - 1) L).

(** [self.line += 1] *)
Definition incr_line : M unit := modify (fun L => set_line (line L + 1) L).

(** [ch = input[self.cursor]; self.cursor += 1] *)
Definition next_char : M ascii := ch <- read_input ;; advance ;; ret ch.

(** The iteration bound given to every scanning loop: each iteration reads
    one more character of the source or leaves the loop. *)
Definition fuel_of (L : Lexer) : nat := S (String.length (source L)).

Definition with_fuel {A} (loop : nat -> M A) : M A :=
  fun L => loop (fuel_of L) L.

(** ** Python's [int] and [float] on the texts the lexer hands them *)

Definition digit_val (ch : ascii) : Z :=
  Z.of_N (N_of_ascii ch) - Z.of_N (N_of_ascii "0").

(** The value of a run of decimal digits read after a prefix of value
    [acc]; [None] at a character that is not a digit. *)
Fixpoint digits_val (s : string) (acc : Z) : option Z :=
  match s with
  | EmptyString => Some acc
  | String ch s' =>
      if is_digit ch then digits_val s' (10 * acc + digit_val ch) else None
  end.

(** The value of a non-empty run of decimal digits. *)
Definition decimal (s : string) : option Z :=
  match s with
  | EmptyString => None
  | _ => digits_val s 0
  end.

(** Python's default limit on the number of digits of a text that [int]
    converts ([sys.int_max_str_digits]): beyond it, [int] raises
    [ValueError]. *)
Definition int_max_str_digits : nat := 4300.

(** [int(segment)] on a text without sign, blanks or underscores:
    [ValueError] on the empty text and on a text longer than the limit. *)
Definition py_int (s : string) : option Z :=
  if String.length s <=? int_max_str_digits then decimal s else None.

(** The longest prefix of [s] made of digits, and the rest. *)
Fixpoint span_digits (s : string) : string * string :=
  match s with
  | EmptyString => (EmptyString, EmptyString)
  | String ch s' =>
      if is_digit ch
      then let '(d, r) := span_digits s' in (String ch d, r)
      else (EmptyString, s)
  end.

(** The exponent part of a float text (a letter e, an optional sign, then
    digits), or nothing. *)
Definition exponent_val (s : string) : option Z :=
  match s with
  | EmptyString => Some 0%Z
  | String e s' =>
      if ch_eq e "e" || ch_eq e "E" then
        match s' with
        | String sg s'' =>
            if ch_eq sg "-" then option_map Z.opp (decimal s'')
            else if ch_eq sg "+" then decimal s''
            else decimal s'
        | EmptyString => None
        end
      else None
  end.

(** [float(segment)] on a text made of digits, an optional dot followed by
    digits, and an optional exponent, with a digit before the exponent:
    its exact decimal value. *)
Definition py_float (s : string) : option Dec :=
  let '(ip, r) := span_digits s in
  let '(fp, r') :=
    match r with
    | String dot r1 =>
        if ch_eq dot "." then span_digits r1 else (EmptyString, r)
    | EmptyString => (EmptyString, r)
    end in
  match (ip ++ fp)%string with
  | EmptyString => None
  | m =>
      match digits_val m 0, exponent_val r' with
      | Some mant, Some e =>
          Some {| dec_mant := mant;
                  dec_exp := e - Z.of_nat (String.length fp) |}
      | _, _ => None
      end
  end.

(** The rational number a decimal stands for. *)
Definition Dec_to_Q (d : Dec) : Q :=
  (inject_Z (dec_mant d) * Qpower (inject_Z 10) (dec_exp d))%Q.

(** ** Access to the current token

    [token = self.token] is [self.tokens.get(self.tokenIndex)]: the object
    in the current slot, mutated in place, or [None], on which every
    attribute access raises [AttributeError]. *)

Definition upd_token (attr : string) (f : Token -> Token) : M unit :=
  fun L =>
    match tokens L !! tokenIndex L with
    | Some t => (Ok tt, set_tokens (<[tokenIndex L := f t]> (tokens L)) L)
    | None => (Raise (AttributeError attr), L)
    end.

Definition read_token {A} (attr : string) (f : Token -> option A) : M A :=
  fun L =>
    match tokens L !! tokenIndex L with
    | Some t =>
        match f t with
        | Some a => (Ok a, L)
        | None => (Raise (AttributeError attr), L)
        end
    | None => (Raise (AttributeError attr), L)
    end.

Definition opt_is (o : option ascii) (ch : ascii) : bool :=
  match o with Some c => ch_eq c ch | None => false end.

(** ** Eating comments and whitespace: [Lexer.skip] *)

(** [while True: ch = input[cursor]; cursor += 1; if not p(ch): break] *)
Fixpoint scan_while (p : ascii -> bool) (fuel : nat) : M unit :=
  match fuel with
  | 0 => out_of_fuel
  | S fuel' =>
      ch <- next_char ;;
      if p ch then scan_while p fuel' else ret tt
  end.

(** The loop on a block comment, entered after its opening [/*]. *)
Fixpoint skip_block_comment (fuel : nat) : M unit :=
  match fuel with
  | 0 => out_of_fuel
  | S fuel' =>
      ch <- try_IndexError next_char
              (raise_ParseError "Unterminated comment") ;;
      if ch_eq ch "*" then
        next <- read_input ;;
        if ch_eq next "/" then advance
        else skip_block_comment fuel'
      else if ch_eq ch NL then incr_line ;; skip_block_comment fuel'
      else skip_block_comment fuel'
  end.

(** The loop on a line comment, entered after its opening [//]: [true]
    when it leaves by [break], [false] when it returns from [skip]. *)
Fixpoint skip_line_comment (fuel : nat) : M bool :=
  match fuel with
  | 0 => out_of_fuel
  | S fuel' =>
      r <- try_IndexError (ch <- next_char ;; ret (Some ch)) (ret None) ;;
      match r with
      | None => ret false
      | Some ch =>
          if ch_eq ch NL then incr_line ;; ret true
          else skip_line_comment fuel'
      end
  end.

Fixpoint skip_loop (fuel : nat) : M unit :=
  match fuel with
  | 0 => out_of_fuel
  | S fuel' =>
      L <- self ;;
      match String.get (cursor L) (source L) with
      | None => ret tt
      | Some ch =>
          advance ;;
          L1 <- self ;;
          let next := String.get (cursor L1) (source L1) in
          if ch_eq ch NL && negb (scanNewlines L1) then
            incr_line ;; skip_loop fuel'
          else if ch_eq ch "/" && opt_is next "*" then
            advance ;;
            with_fuel skip_block_comment ;;
            skip_loop fuel'
          else if ch_eq ch "/" && opt_is next "/" then
            advance ;;
            again <- with_fuel skip_line_comment ;;
            if again : bool then skip_loop fuel' else ret tt
          else if negb (ch_eq ch " ") && negb (ch_eq ch TAB) then
            retreat ;; ret tt
          else skip_loop fuel'
      end
  end.

Definition skip : M unit := with_fuel skip_loop.

(** ** The literal and operator lexers *)

(** [Lexer.lexExponent] *)
Definition lexExponent : M bool :=
  next <- read_input ;;
  if ch_eq next "e" || ch_eq next "E" then
    advance ;;
    ch <- next_char ;;
    ch <- (if ch_eq ch "+" || ch_eq ch "-" then next_char else ret ch) ;;
    if ch_lt ch "0" || ch_lt "9" ch then raise_ParseError "Missing exponent"
    else
      with_fuel (scan_while is_digit) ;;
      retreat ;;
      ret true
  else ret false.

(** [Lexer.lexZeroNumber].  The names [parseFloat] and [parseInt] are bound
    nowhere in the module, nor are they Python built-ins: evaluating
    either raises [NameError]. *)
Definition lexZeroNumber (ch : ascii) : M unit :=
  upd_token "type" (with_type "number") ;;
  ch <- next_char ;;
  if ch_eq ch "." then
    with_fuel (scan_while is_digit) ;;
    retreat ;;
    _ <- lexExponent ;;
    raise (NameError "parseFloat")
  else if ch_eq ch "x" || ch_eq ch "X" then
    with_fuel (scan_while is_hex) ;;
    retreat ;;
    raise (NameError "parseInt")
  else if between "0" "7" ch then
    with_fuel (scan_while is_octal) ;;
    retreat ;;
    raise (NameError "parseInt")
  else
    retreat ;;
    _ <- lexExponent ;;
    upd_token "value" (with_value (VInt 0)).

(** The loop of [lexNumber]; it returns the final [floating]. *)
Fixpoint lexNumber_loop (fuel : nat) (floating : bool) : M bool :=
  match fuel with
  | 0 => out_of_fuel
  | S fuel' =>
      ch <- next_char ;;
      r <- (if ch_eq ch "." && negb floating
            then ch' <- next_char ;; ret (true, ch')
            else ret (floating, ch)) ;;
      if is_digit (snd r) then lexNumber_loop fuel' (fst r)
      else ret (fst r)
  end.

(** [token.value = float(segment)] and [token.value = int(segment)] *)
Definition set_float_value (segment : string) : M unit :=
  match py_float segment with
  | Some d => upd_token "value" (with_value (VFloat d))
  | None => raise ValueError
  end.

Definition set_int_value (segment : string) : M unit :=
  match py_int segment with
  | Some z => upd_token "value" (with_value (VInt z))
  | None => raise ValueError
  end.

(** [input[token.start:self.cursor]] *)
Definition segment_from_start : M string :=
  start <- read_token "start" t_start ;;
  L <- self ;;
  ret (slice (source L) start (cursor L)).

(** [Lexer.lexNumber] *)
Definition lexNumber (ch : ascii) : M unit :=
  upd_token "type" (with_type "number") ;;
  floating <- with_fuel (fun n => lexNumber_loop n false) ;;
  retreat ;;
  exponent <- lexExponent ;;
  segment <- segment_from_start ;;
  if floating || exponent then set_float_value segment
  else set_int_value segment.

(** [Lexer.lexDot] *)
Definition lexDot (ch : ascii) : M unit :=
  next <- read_input ;;
  if is_digit next then
    with_fuel (scan_while is_digit) ;;
    retreat ;;
    _ <- lexExponent ;;
    upd_token "type" (with_type "number") ;;
    segment <- segment_from_start ;;
    set_float_value segment
  else upd_token "type" (with_type "dot").

(** The loop of [lexString], entered with the first character after the
    opening delimiter already read; it returns the final [hasEscapes]. *)
Fixpoint lexString_loop (fuel : nat) (delim ch : ascii) (hasEscapes : bool)
  : M bool :=
  match fuel with
  | 0 => out_of_fuel
  | S fuel' =>
      if ch_eq ch delim then ret hasEscapes
      else
        hasEscapes' <- (if ch_eq ch BACKSLASH then advance ;; ret true
                        else ret hasEscapes) ;;
        ch' <- next_char ;;
        lexString_loop fuel' delim ch' hasEscapes'
  end.

(** The loop of [lexRegExp] on a character class, entered with [ch] the
    opening bracket; it returns the last character read. *)
Fixpoint lexRegExp_class (fuel : nat) (ch : ascii) : M ascii :=
  match fuel with
  | 0 => out_of_fuel
  | S fuel' =>
      (if ch_eq ch BACKSLASH then advance else ret tt) ;;
      ch' <- try_IndexError next_char
               (raise_ParseError "Unterminated character class") ;;
      if ch_eq ch' "]" then ret ch' else lexRegExp_class fuel' ch'
  end.

(** The loop of [lexRegExp] up to the closing slash. *)
Fixpoint lexRegExp_body (fuel : nat) : M unit :=
  match fuel with
  | 0 => out_of_fuel
  | S fuel' =>
      ch <- try_IndexError next_char
              (raise_ParseError "Unterminated regex") ;;
      ch <- (if ch_eq ch BACKSLASH then advance ;; ret ch
             else if ch_eq ch "[" then
               with_fuel (fun n => lexRegExp_class n ch)
             else ret ch) ;;
      if ch_eq ch "/" then ret tt else lexRegExp_body fuel'
  end.

(** The first loop of [lexOp]; it returns the final [op]. *)
Fixpoint lexOp_loop (fuel : nat) (op : string) : M string :=
  match fuel with
  | 0 => out_of_fuel
  | S fuel' =>
      next <- read_input ;;
      if is_operator (op ++ str1 next) then
        advance ;;
        lexOp_loop fuel' (op ++ str1 next)
      else ret op
  end.

(** [operatorNames[op]] *)
Definition operatorName (op : string) : M string :=
  match assoc op operatorNames with
  | Some name => ret name
  | None => raise KeyError
  end.

(** [Lexer.lexOp] *)
Definition lexOp (ch : ascii) : M unit :=
  op <- with_fuel (fun n => lexOp_loop n (str1 ch)) ;;
  next <- read_input ;;
  if ch_eq next "=" && str_in op assignOperators then
    advance ;;
    upd_token "type" (with_type "assign") ;;
    name <- operatorName op ;;
    upd_token "assignOp" (with_assignOp (Some name))
  else
    name <- operatorName op ;;
    upd_token "type" (with_type name) ;;
    upd_token "assignOp" (with_assignOp None) ;;
    L <- self ;;
    if scanOperand L then
      if String.eqb name "plus" then
        upd_token "type" (with_type "unary_plus")
      else if String.eqb name "minus" then
        upd_token "type" (with_type "unary_minus")
      else ret tt
    else ret tt.

(** [Lexer.lexIdent] *)
Definition lexIdent (ch : ascii) : M unit :=
  try_IndexError (with_fuel (scan_while is_ident_part)) advance ;;
  retreat ;;
  identifier <- segment_from_start ;;
  if str_in identifier keywords then
    upd_token "type" (with_type identifier)
  else
    upd_token "type" (with_type "identifier") ;;
    upd_token "value" (with_value (VStr identifier)).

Section Methods.

(** Python's built-in [eval], on which the lexer relies to decode string
    literals with escapes and regular expressions: it returns a value or
    raises, and has no effect on the lexer. *)
Variable py_eval : string -> Exn + Value.

Definition set_eval_value (text : string) : M unit :=
  match py_eval text with
  | inr v => upd_token "value" (with_value v)
  | inl e => raise e
  end.

(** [Lexer.lexString] *)
Definition lexString (ch : ascii) : M unit :=
  upd_token "type" (with_type "string") ;;
  let delim := ch in
  ch <- next_char ;;
  hasEscapes <- with_fuel (fun n => lexString_loop n delim ch false) ;;
  if hasEscapes : bool then
    text <- segment_from_start ;;
    set_eval_value text
  else
    start <- read_token "start" t_start ;;
    L <- self ;;
    upd_token "value"
      (with_value (VStr (slice (source L) (start + 1) (cursor L - 1)))).

(** [Lexer.lexRegExp] *)
Definition lexRegExp (ch : ascii) : M unit :=
  upd_token "type" (with_type "regexp") ;;
  with_fuel lexRegExp_body ;;
  with_fuel (scan_while is_lower) ;;
  retreat ;;
  text <- segment_from_start ;;
  set_eval_value text.

(** ** The lookahead ring buffer *)

(** [(self.tokenIndex + 1) & 3] and [(self.tokenIndex - 1) & 3] *)
Definition next_slot (i : Z) : Z := Z.land (i + 1) 3.
Definition prev_slot (i : Z) : Z := Z.land (i - 1) 3.

(** The loop [while self.lookahead:] of [get], by recursion on the value
    of [self.lookahead]: [Some ty] when it returns [ty] from [get], [None]
    when it ends with no lookahead left. *)
Fixpoint get_replay (n : nat) : M (option string) :=
  match n with
  | 0 => ret None
  | S n' =>
      modify (set_lookahead n') ;;
      modify (fun L => set_tokenIndex (next_slot (tokenIndex L)) L) ;;
      L <- self ;;
      match tokens L !! tokenIndex L with
      | None => raise KeyError
      | Some token =>
          match t_type token with
          | None => raise (AttributeError "type")
          | Some ty =>
              if negb (String.eqb ty "newline") || scanNewlines L
              then ret (Some ty)
              else get_replay n'
          end
      end
  end.

(** The dispatch of [get] on the first character of the token. *)
Definition get_dispatch (ch : ascii) : M unit :=
  L <- self ;;
  if is_ident_start ch then lexIdent ch
  else if scanOperand L && ch_eq ch "/" then lexRegExp ch
  else if ch_eq ch "." then lexDot ch
  else if scanNewlines L && ch_eq ch NL then
    upd_token "type" (with_type "newline") ;;
    incr_line
  else if is_operator (str1 ch) then lexOp ch
  else if between "1" "9" ch then lexNumber ch
  else if ch_eq ch "0" then lexZeroNumber ch
  else if ch_eq ch DQUOTE || ch_eq ch "'" then lexString ch
  else raise_ParseError ("Illegal token: " ++ str1 ch).

(** The part of [get] that scans a fresh token. *)
Definition get_scan : M string :=
  skip ;;
  modify (fun L => set_tokenIndex (next_slot (tokenIndex L)) L) ;;
  modify (fun L => set_tokens (<[tokenIndex L := new_Token]> (tokens L)) L) ;;
  L <- self ;;
  if cursor L =? String.length (source L) then
    upd_token "type" (with_type "end") ;;
    read_token "type" t_type
  else
    upd_token "start" (with_start (cursor L)) ;;
    upd_token "line" (with_line (line L)) ;;
    ch <- next_char ;;
    get_dispatch ch ;;
    L' <- self ;;
    upd_token "end" (with_end (cursor L')) ;;
    read_token "type" t_type.

(** [Lexer.get] *)
Definition get : M string :=
  L <- self ;;
  r <- get_replay (lookahead L) ;;
  match r with
  | Some ty => ret ty
  | None => get_scan
  end.

(** [Lexer.unget] *)
Definition unget : M unit :=
  modify (fun L => set_lookahead (lookahead L + 1) L) ;;
  L <- self ;;
  if lookahead L =? 4 then raise_ParseError "PANIC: too much lookahead!"
  else modify (fun L => set_tokenIndex (prev_slot (tokenIndex L)) L).

(** [Lexer.peek]; the result [None] is Python's [None]. *)
Definition peek : M (option string) :=
  L <- self ;;
  if negb (lookahead L =? 0) then
    let next := tokens L !! Z.land (tokenIndex L + Z.of_nat (lookahead L)) 3 in
    let next_line := match next with Some t => t_line t | None => None end in
    if scanNewlines L
       && negb (bool_decide (next_line = Some (line L)))
    then ret (Some "newline")
    else ret (match next with Some t => t_type t | None => None end)
  else
    tokenType <- get ;;
    unget ;;
    ret (Some tokenType).

(** [Lexer.peekOnSameLine] *)
Definition peekOnSameLine : M (option string) :=
  modify (set_scanNewlines true) ;;
  tokenType <- peek ;;
  modify (set_scanNewlines false) ;;
  ret tokenType.

(** [Lexer.match]: [True], or the [None] that [unget] returns, as [false]. *)
Definition match_ (tokenType : string) : M bool :=
  ty <- get ;;
  if String.eqb ty tokenType then ret true
  else unget ;; ret false.

(** The property [token]: [self.tokens.get(self.tokenIndex)] *)
Definition token (L : Lexer) : option Token := tokens L !! tokenIndex L.

(** [Lexer.mustMatch]; it returns [self.token]. *)
Definition mustMatch (tokenType : string) : M (option Token) :=
  ok <- match_ tokenType ;;
  if ok : bool then
    L <- self ;;
    ret (token L)
  else raise_ParseError ("Missing " ++ tokenType).

(** The property [done] *)
Definition done_ : M bool :=
  tokenType <- peek ;;
  ret (bool_decide (tokenType = Some "end")).

(** ** The parser's use of the lexer

    The parser drives a lexer through its methods and by assigning the two
    mode flags; a state is reachable when such calls lead to it from a
    freshly constructed lexer, none of them having raised. *)

Inductive Call :=
| CGet
| CUnget
| CPeek
| CPeekOnSameLine
| CMatch (tokenType : string)
| CMustMatch (tokenType : string)
| CDone
| CScanNewlines (b : bool)
| CScanOperand (b : bool).

Definition call (c : Call) : M unit :=
  match c with
  | CGet => _ <- get ;; ret tt
  | CUnget => unget
  | CPeek => _ <- peek ;; ret tt
  | CPeekOnSameLine => _ <- peekOnSameLine ;; ret tt
  | CMatch ty => _ <- match_ ty ;; ret tt
  | CMustMatch ty => _ <- mustMatch ty ;; ret tt
  | CDone => _ <- done_ ;; ret tt
  | CScanNewlines b => modify (set_scanNewlines b)
  | CScanOperand b => modify (set_scanOperand b)
  end.

(** The methods [get] is made of, which Python lets anyone call too. *)
Inductive Internal :=
| ISkip
| ILexExponent
| ILexZeroNumber (ch : ascii)
| ILexNumber (ch : ascii)
| ILexDot (ch : ascii)
| ILexString (ch : ascii)
| ILexRegExp (ch : ascii)
| ILexOp (ch : ascii)
| ILexIdent (ch : ascii).

Definition internal (i : Internal) : M unit :=
  match i with
  | ISkip => skip
  | ILexExponent => _ <- lexExponent ;; ret tt
  | ILexZeroNumber ch => lexZeroNumber ch
  | ILexNumber ch => lexNumber ch
  | ILexDot ch => lexDot ch
  | ILexString ch => lexString ch
  | ILexRegExp ch => lexRegExp ch
  | ILexOp ch => lexOp ch
  | ILexIdent ch => lexIdent ch
  end.

Inductive reachable : Lexer -> Prop :=
| reach_init src fname : reachable (Lexer_init src fname)
| reach_call c L L' :
    reachable L -> call c L = (Ok tt, L') -> reachable L'.

(** The outcome of [get] on a freshly constructed lexer, with the value of
    the current token. *)
Definition value_after_get (src : string) : Res string * option Value :=
  let '(r, L) := get (Lexer_init src "lexer.js") in
  (r, match tokens L !! tokenIndex L with
      | Some t => t_value t
      | None => None
      end).

(** [unget] called [n] times in a row; the run stops at the first call
    that raises. *)
Fixpoint ungets (n : nat) : M unit :=
  match n with
  | 0 => ret tt
  | S n' => unget ;; ungets n'
  end.

(** From [L], whose current token has type [ty], [unget] then [get] gives
    [ty] back and leaves the line and the cursor where they were. *)
Definition unget_get_noop (L : Lexer) (ty : string) : Prop :=
  exists L1 L2,
    unget L = (Ok tt, L1) /\ get L1 = (Ok ty, L2) /\
    line L2 = line L /\ cursor L2 = cursor L.

End Methods.

(** A source for the examples on newlines: a newline, then [x]. *)
Definition newline_x : string := String NL (String "x" EmptyString).

(** An instance of [eval] for the examples.  No Python expression begins
    with a slash: on such a text [eval] raises [SyntaxError].  Any other
    text stands for the value Python gives it. *)
Definition eval_text (text : string) : Exn + Value :=
  match text with
  | String "/" _ => inl SyntaxError
  | _ => inr (VObj text)
  end.

(** The property [input_] *)
Definition input_ (L : Lexer) : string :=
  slice (source L) (cursor L) (String.length (source L)).

(** * Reasoning about methods *)

(** [sat m L Q]: run from [L], the method [m] ends in an outcome and a
    state that satisfy [Q]. *)
Definition sat {A} (m : M A) (L : Lexer) (Q : Res A -> Lexer -> Prop) : Prop :=
  Q (fst (m L)) (snd (m L)).

(** The span and line of a token, and those of all the tokens. *)
Definition span_of (t : Token) : option nat * option nat * option nat :=
  (t_start t, t_end t, t_line t).

Definition spans (L : Lexer) : gmap Z (option nat * option nat * option nat) :=
  span_of <$> tokens L.

(** The tokens of the buffer other than the current one. *)
Definition others (L : Lexer) : gmap Z Token :=
  delete (tokenIndex L) (tokens L).

(** What a lexing function never touches: everything but the cursor, the
    line and, in the current token, the attributes other than its span. *)
Definition shape (L : Lexer) :=
  (source L, filename L, tokenIndex L, lookahead L,
   scanNewlines L, scanOperand L, spans L, others L).

Definition len (L : Lexer) : nat := String.length (source L).

(** The cursor after a method, against the cursor before it: it never
    moves back, and when the method returns it has moved on by at least
    [k] characters and stands within the source, if it stood there. *)
Definition grow {A} (k : nat) (L : Lexer) (r : Res A) (L' : Lexer) : Prop :=
  cursor L <= cursor L' /\
  match r with
  | Ok _ => cursor L + k <= cursor L' /\
            cursor L' <= Nat.max (cursor L) (len L)
  | Raise _ => True
  | OutOfFuel => False
  end.

Definition post {A} (k : nat) (L : Lexer) (r : Res A) (L' : Lexer) : Prop :=
  shape L' = shape L /\ line L <= line L' /\ grow k L r L'.

(** What [skip] does: it keeps the tokens too, and moves forward. *)
Definition moves {A} (L : Lexer) (r : Res A) (L' : Lexer) : Prop :=
  tokens L' = tokens L /\ shape L' = shape L /\ line L <= line L' /\
  cursor L <= cursor L' /\
  match r with OutOfFuel => False | _ => True end.

(** ** Unterminated block comments *)

(** The number of newline characters of a text. *)
Fixpoint count_nl (s : string) : nat :=
  match s with
  | EmptyString => 0
  | String ch s' => (if ch_eq ch NL then 1 else 0) + count_nl s'
  end.

(** What [skip] passes over one character at a time: spaces, tabs and,
    unless [scanNewlines] is set, newlines. *)
Definition skipped (scanNewlines : bool) (ch : ascii) : bool :=
  ch_eq ch " " || ch_eq ch TAB || (negb scanNewlines && ch_eq ch NL).

(** The text of a block comment that nothing closes: each of its stars is
    followed by a character, and that character is not a slash. *)
Fixpoint open_ended (body : string) : bool :=
  match body with
  | EmptyString => true
  | String ch rest =>
      (if ch_eq ch "*" then
         match rest with
         | EmptyString => false
         | String ch' _ => negb (ch_eq ch' "/")
         end
       else true)
      && open_ended rest
  end.

(** ** Well-formed tokens *)

(** The token carries a span [start < end <= n]. *)
Definition span_ok (n : nat) (t : Token) : bool :=
  match t_start t, t_end t with
  | Some s, Some e => (s <? e) && (e <=? n)
  | _, _ => false
  end.

(** The token carries neither [start] nor [end]. *)
Definition no_span (t : Token) : bool :=
  match t_start t, t_end t with
  | None, None => true
  | _, _ => false
  end.

(** A well-formed token has a type; the end-of-input sentinel carries no
    span, every other token carries a span within the source. *)
Definition tok_ok (src : string) (t : Token) : bool :=
  match t_type t with
  | Some ty =>
      if String.eqb ty "end" then no_span t
      else span_ok (String.length src) t
  | None => false
  end.

(** Every token of the ring buffer is well formed. *)
Definition tokens_ok (L : Lexer) : Prop :=
  map_Forall (fun _ t => tok_ok (source L) t = true) (tokens L).

(** What [get] never changes. *)
Definition same_text (L L' : Lexer) : Prop :=
  source L' = source L /\ filename L' = filename L /\
  scanNewlines L' = scanNewlines L /\ scanOperand L' = scanOperand L.

(** What a fresh scan by [get] does. *)
Definition scanned (L : Lexer) (r : Res string) (L' : Lexer) : Prop :=
  same_text L L' /\ cursor L <= cursor L' /\ line L <= line L' /\
  lookahead L' = lookahead L /\
  match r with
  | Ok ty =>
      tokenIndex L' = Z.land (tokenIndex L + 1) 3 /\
      delete (tokenIndex L') (tokens L') = delete (tokenIndex L') (tokens L) /\
      exists tok, tokens L' !! tokenIndex L' = Some tok /\
                  t_type tok = Some ty /\ tok_ok (source L) tok = true
  | Raise _ => True
  | OutOfFuel => False
  end.

(** What the replay loop of [get] does, whatever the count it runs on. *)
Definition replayed (n : nat) (L : Lexer) (r : Res (option string))
           (L' : Lexer) : Prop :=
  same_text L L' /\ cursor L' = cursor L /\ line L' = line L /\
  tokens L' = tokens L /\ lookahead L' <= Nat.max n (lookahead L) /\
  match r with
  | Ok _ => n = lookahead L -> lookahead L' <= lookahead L - 1
  | _ => True
  end /\
  match r with
  | Ok (Some ty) =>
      (0 <= tokenIndex L' < 4)%Z /\
      exists tok, tokens L' !! tokenIndex L' = Some tok /\ t_type tok = Some ty
  | Ok None => True
  | Raise _ => True
  | OutOfFuel => False
  end.

(** What [get] does. *)
Definition got (L : Lexer) (r : Res string) (L' : Lexer) : Prop :=
  same_text L L' /\ cursor L <= cursor L' /\ line L <= line L' /\
  lookahead L' <= lookahead L /\
  match r with
  | Ok ty =>
      lookahead L' <= lookahead L - 1 /\
      (0 <= tokenIndex L' < 4)%Z /\
      exists tok, tokens L' !! tokenIndex L' = Some tok /\
                  t_type tok = Some ty /\
                  (tokens_ok L -> tokens_ok L' /\ tok_ok (source L') tok = true)
  | Raise _ => True
  | OutOfFuel => False
  end.

(** The type of the current token. *)
Definition cur_type (L : Lexer) : option string :=
  match tokens L !! tokenIndex L with
  | Some t => t_type t
  | None => None
  end.

(** What a scanning loop keeps: the ring buffer. *)
Definition kept {A} (L : Lexer) (r : Res A) (L' : Lexer) : Prop :=
  tokens L' = tokens L /\ tokenIndex L' = tokenIndex L.

(** What a lexer that returns has done: it has given the current token a
    type, which is not that of the end-of-input sentinel. *)
Definition typed {A} (r : Res A) (L' : Lexer) : Prop :=
  match r with
  | Ok _ => exists ty, cur_type L' = Some ty /\ ty <> "end"
  | _ => True
  end.

(** The invariant of the ring buffer. *)
Definition inv (L : Lexer) : Prop :=
  (0 <= tokenIndex L < 4)%Z /\ lookahead L < 4 /\ tokens_ok L.

(** What every call of the parser does. *)
Definition served {A} (L : Lexer) (r : Res A) (L' : Lexer) : Prop :=
  source L' = source L /\ filename L' = filename L /\
  cursor L <= cursor L' /\ line L <= line L' /\
  match r with
  | Ok _ => inv L -> inv L'
  | Raise _ => True
  | OutOfFuel => False
  end.

(** A loop run with [fuel] iterations from [L] has enough of them. *)
Definition enough (fuel : nat) (L : Lexer) : Prop :=
  0 < fuel /\ len L < fuel + cursor L.

(** ** What [get] scans

    [reads s c t]: read from offset [c] on, the text [s] is [t]. *)
Definition reads (s : string) (c : nat) (t : string) : Prop :=
  forall i, String.get (c + i) s = String.get i t.

(** The state in which [get], having skipped to [L1], has put the token
    [tok] in the next slot of the ring and stands at offset [c]. *)
Definition with_token (tok : Token) (c : nat) (L1 : Lexer) : Lexer :=
  set_cursor c
    (set_tokens (<[next_slot (tokenIndex L1) := tok]> (tokens L1))
       (set_tokenIndex (next_slot (tokenIndex L1)) L1)).

(** The token [get] allocates at [L1]: it has a start and a line only. *)
Definition started (L1 : Lexer) : Token :=
  with_line (line L1) (with_start (cursor L1) new_Token).

(** The end of [get], after the dispatch. *)
Definition get_finish : M string :=
  L' <- self ;;
  upd_token "end" (with_end (cursor L')) ;;
  read_token "type" t_type.

(** A token with all its attributes but [assignOp]. *)
Definition mk_token (ty : string) (v : option Value) (s e l : nat) : Token :=
  {| t_type := Some ty; t_value := v; t_start := Some s; t_end := Some e;
     t_line := Some l; t_assignOp := None |}.

(** A token of [lexOp], which assigns [assignOp] too. *)
Definition op_token (ty : string) (a : option string) (s e l : nat) : Token :=
  {| t_type := Some ty; t_value := None; t_start := Some s; t_end := Some e;
     t_line := Some l; t_assignOp := Some a |}.

(** Every character of [s] passes the test [p]. *)
Fixpoint all_chars (p : ascii -> bool) (s : string) : bool :=
  match s with
  | EmptyString => true
  | String ch s' => p ch && all_chars p s'
  end.

(** The first character of [s] if any fails the test [p]. *)
Definition stops (p : ascii -> bool) (s : string) : bool :=
  match s with
  | EmptyString => true
  | String ch _ => negb (p ch)
  end.

(** A character of a string literal that neither closes it nor escapes. *)
Definition plain (delim ch : ascii) : bool :=
  negb (ch_eq ch delim) && negb (ch_eq ch BACKSLASH).

(** The prefixes of a text, the empty one left out. *)
Fixpoint prefixes (s : string) : list string :=
  match s with
  | EmptyString => []
  | String a s' => str1 a :: map (String a) (prefixes s')
  end.
(** Nothing is left for [skip] at the cursor: the source ends there, or
    the character there is not a blank, not a newline that is passed
    over, and does not open a comment. *)
Definition nothing_to_skip (L : Lexer) : bool :=
  match String.get (cursor L) (source L) with
  | None => true
  | Some ch =>
      negb (skipped (scanNewlines L) ch) &&
      negb (ch_eq ch "/" &&
            (opt_is (String.get (cursor L + 1) (source L)) "*"
             || opt_is (String.get (cursor L + 1) (source L)) "/"))
  end.

(** From [L0] to [L] the cursor has moved forward, and the line count has
    gone up by the number of newlines of the text passed over. *)
Definition counted (L0 L : Lexer) : Prop :=
  source L = source L0 /\ cursor L0 <= cursor L /\
  line L = line L0 + count_nl (slice (source L0) (cursor L0) (cursor L)).
(** What a lexer that returns has done to the current token: it has
    given it a type, which is not [newline]. *)
Definition worded {A} (r : Res A) (L' : Lexer) : Prop :=
  match r with
  | Ok _ => exists ty, cur_type L' = Some ty /\ ty <> "newline"
  | _ => True
  end.
(** What [skip] passes over in one turn of its loop: a blank or a counted
    newline, a block comment that is closed, or a line comment with the
    newline that ends it. *)
Inductive Passed :=
| PChar (ch : ascii)
| PBlock (body : string)
| PLine (text : string).

Definition passed_text (p : Passed) : string :=
  match p with
  | PChar ch => str1 ch
  | PBlock body => String "/" (String "*" (body ++ "*/"))
  | PLine text => String "/" (String "/" (text ++ str1 NL))
  end.

Fixpoint passed_texts (ps : list Passed) : string :=
  match ps with
  | [] => EmptyString
  | p :: ps' => (passed_text p ++ passed_texts ps')%string
  end.

(** The text of a block comment in which no star is followed by a slash. *)
Fixpoint no_close (body : string) : bool :=
  match body with
  | EmptyString => true
  | String ch rest =>
      negb (ch_eq ch "*" &&
            match rest with
            | String ch' _ => ch_eq ch' "/"
            | EmptyString => false
            end)
      && no_close rest
  end.

Definition not_newline (ch : ascii) : bool := negb (ch_eq ch NL).

Definition passed_ok (scanNewlines : bool) (p : Passed) : bool :=
  match p with
  | PChar ch => skipped scanNewlines ch
  | PBlock body => no_close body
  | PLine text => all_chars not_newline text
  end.

Arguments sat : simpl never.
Arguments len : simpl never.

Lemma sat_ret {A} (a : A) L Q : Q (Ok a) L -> sat (ret a) L Q.
Proof. intros H; exact H. Qed.

Lemma sat_raise {A} e L (Q : Res A -> Lexer -> Prop) :
  Q (Raise e) L -> sat (raise e) L Q.
Proof. intros H; exact H. Qed.

Lemma sat_bind {A B} (m : M A) (f : A -> M B) L Q :
  sat m L (fun r L1 =>
             match r with
             | Ok a => sat (f a) L1 Q
             | Raise e => Q (Raise e) L1
             | OutOfFuel => Q OutOfFuel L1
             end) ->
  sat (bind m f) L Q.
Proof.
  unfold sat, bind. destruct (m L) as [[a|e|] L1]; simpl; auto.
Qed.

Lemma sat_conseq {A} (m : M A) L (Q Q' : Res A -> Lexer -> Prop) :
  sat m L Q -> (forall r L', Q r L' -> Q' r L') -> sat m L Q'.
Proof. unfold sat; auto. Qed.

Lemma sat_self L (Q : Res Lexer -> Lexer -> Prop) :
  Q (Ok L) L -> sat self L Q.
Proof. intros H; exact H. Qed.

Lemma sat_modify f L (Q : Res unit -> Lexer -> Prop) :
  Q (Ok tt) (f L) -> sat (modify f) L Q.
Proof. intros H; exact H. Qed.

Lemma sat_raise_ParseError {A} msg L (Q : Res A -> Lexer -> Prop) :
  Q (Raise (ParseError msg (filename L) (line L))) L ->
  sat (raise_ParseError msg) L Q.
Proof. intros H; exact H. Qed.

Lemma get_Some_lt s : forall i ch, String.get i s = Some ch -> i < String.length s.
Proof.
  induction s as [|c s IH]; intros [|i] ch H; simpl in *; try discriminate; try lia.
  apply IH in H. lia.
Qed.

Lemma get_None_ge s : forall i, String.get i s = None -> String.length s <= i.
Proof.
  induction s as [|c s IH]; intros [|i] H; simpl in *; try discriminate; try lia.
  apply IH in H. lia.
Qed.

Lemma sat_read_input L (Q : Res ascii -> Lexer -> Prop) :
  (forall ch, String.get (cursor L) (source L) = Some ch ->
              cursor L < len L -> Q (Ok ch) L) ->
  (len L <= cursor L -> Q (Raise IndexError) L) ->
  sat read_input L Q.
Proof.
  intros Hs Hn. unfold sat, read_input.
  destruct (String.get (cursor L) (source L)) as [ch|] eqn:E; simpl.
  - apply Hs; [reflexivity | exact (get_Some_lt _ _ _ E)].
  - apply Hn. exact (get_None_ge _ _ E).
Qed.

Lemma sat_next_char L (Q : Res ascii -> Lexer -> Prop) :
  (forall ch, String.get (cursor L) (source L) = Some ch ->
              cursor L < len L -> Q (Ok ch) (set_cursor (cursor L + 1) L)) ->
  (len L <= cursor L -> Q (Raise IndexError) L) ->
  sat next_char L Q.
Proof.
  intros Hs Hn. unfold sat, next_char, bind, read_input.
  destruct (String.get (cursor L) (source L)) as [ch|] eqn:E; simpl.
  - apply Hs; [reflexivity | exact (get_Some_lt _ _ _ E)].
  - apply Hn. exact (get_None_ge _ _ E).
Qed.

(** [try: ch = input[cursor]; cursor += 1  except IndexError: h] *)
Lemma sat_try_next_char (h : M ascii) L (Q : Res ascii -> Lexer -> Prop) :
  (forall ch, String.get (cursor L) (source L) = Some ch ->
              cursor L < len L -> Q (Ok ch) (set_cursor (cursor L + 1) L)) ->
  (len L <= cursor L -> sat h L Q) ->
  sat (try_IndexError next_char h) L Q.
Proof.
  intros Hs Hn. unfold sat, try_IndexError, next_char, bind, read_input.
  destruct (String.get (cursor L) (source L)) as [ch|] eqn:E; simpl.
  - apply Hs; [reflexivity | exact (get_Some_lt _ _ _ E)].
  - apply Hn. exact (get_None_ge _ _ E).
Qed.

Lemma sat_with_fuel {A} (loop : nat -> M A) L Q :
  (forall fuel, enough fuel L -> sat (loop fuel) L Q) ->
  sat (with_fuel loop) L Q.
Proof.
  intros H. unfold sat, with_fuel. apply H.
  unfold enough, fuel_of, len. lia.
Qed.

Lemma shape_len L L' : shape L' = shape L -> len L' = len L.
Proof. unfold shape, len. intros H. injection H as -> _ _ _ _ _ _ _. reflexivity. Qed.

Lemma shape_set_cursor c L : shape (set_cursor c L) = shape L.
Proof. reflexivity. Qed.

Lemma shape_set_line n L : shape (set_line n L) = shape L.
Proof. reflexivity. Qed.

(** A step of the current token that keeps its span keeps the shape. *)
Lemma sat_upd_token attr f L (Q : Res unit -> Lexer -> Prop) :
  (forall t, span_of (f t) = span_of t) ->
  (forall L', shape L' = shape L -> cursor L' = cursor L -> line L' = line L ->
              Q (Ok tt) L') ->
  (Q (Raise (AttributeError attr)) L) ->
  sat (upd_token attr f) L Q.
Proof.
  intros Hf Hs Hn. unfold sat, upd_token.
  destruct (tokens L !! tokenIndex L) as [t|] eqn:E; simpl; [|exact Hn].
  apply Hs; try reflexivity.
  unfold shape, spans, others; simpl. f_equal; [f_equal|].
  - rewrite fmap_insert, Hf. apply insert_id. rewrite lookup_fmap, E. reflexivity.
  - apply delete_insert_eq.
Qed.

(** ** Updates of the cursor and the line *)

Lemma cursor_set_cursor c L : cursor (set_cursor c L) = c. Proof. reflexivity. Qed.
Lemma line_set_cursor c L : line (set_cursor c L) = line L. Proof. reflexivity. Qed.
Lemma len_set_cursor c L : len (set_cursor c L) = len L. Proof. reflexivity. Qed.
Lemma cursor_set_line c L : cursor (set_line c L) = cursor L. Proof. reflexivity. Qed.
Lemma line_set_line c L : line (set_line c L) = c. Proof. reflexivity. Qed.
Lemma len_set_line c L : len (set_line c L) = len L. Proof. reflexivity. Qed.
Lemma source_set_cursor c L : source (set_cursor c L) = source L. Proof. reflexivity. Qed.
Lemma source_set_line c L : source (set_line c L) = source L. Proof. reflexivity. Qed.

Lemma tokenIndex_set_cursor c L : tokenIndex (set_cursor c L) = tokenIndex L. Proof. reflexivity. Qed.
Lemma tokenIndex_set_line c L : tokenIndex (set_line c L) = tokenIndex L. Proof. reflexivity. Qed.
Lemma cur_type_set_cursor c L : cur_type (set_cursor c L) = cur_type L. Proof. reflexivity. Qed.
Lemma cur_type_set_line c L : cur_type (set_line c L) = cur_type L. Proof. reflexivity. Qed.
Lemma tokens_set_cursor c L : tokens (set_cursor c L) = tokens L. Proof. reflexivity. Qed.
Lemma tokens_set_line c L : tokens (set_line c L) = tokens L. Proof. reflexivity. Qed.

Create Rewrite HintDb lexer.
#[local] Hint Rewrite cursor_set_cursor line_set_cursor len_set_cursor shape_set_cursor
  cursor_set_line line_set_line len_set_line shape_set_line source_set_cursor source_set_line
  tokens_set_cursor tokens_set_line tokenIndex_set_cursor tokenIndex_set_line
  cur_type_set_cursor cur_type_set_line : lexer.


Lemma sat_read_token {A} attr (f : Token -> option A) L (Q : Res A -> Lexer -> Prop) :
  (forall a, Q (Ok a) L) -> Q (Raise (AttributeError attr)) L ->
  sat (read_token attr f) L Q.
Proof.
  intros Hs Hn. unfold sat, read_token.
  destruct (tokens L !! tokenIndex L) as [t|]; simpl; [|exact Hn].
  destruct (f t); simpl; auto.
Qed.

Lemma sat_set_float_value s L (Q : Res unit -> Lexer -> Prop) :
  (forall L', shape L' = shape L -> cursor L' = cursor L -> line L' = line L ->
              Q (Ok tt) L') ->
  (forall e, Q (Raise e) L) ->
  sat (set_float_value s) L Q.
Proof.
  intros Hs Hn. unfold set_float_value. destruct (py_float s).
  - apply sat_upd_token; [intros []; reflexivity | exact Hs | apply Hn].
  - apply sat_raise, Hn.
Qed.

Lemma sat_set_int_value s L (Q : Res unit -> Lexer -> Prop) :
  (forall L', shape L' = shape L -> cursor L' = cursor L -> line L' = line L ->
              Q (Ok tt) L') ->
  (forall e, Q (Raise e) L) ->
  sat (set_int_value s) L Q.
Proof.
  intros Hs Hn. unfold set_int_value. destruct (py_int s).
  - apply sat_upd_token; [intros []; reflexivity | exact Hs | apply Hn].
  - apply sat_raise, Hn.
Qed.

Lemma sat_operatorName op L (Q : Res string -> Lexer -> Prop) :
  (forall name, assoc op operatorNames = Some name -> Q (Ok name) L) ->
  Q (Raise KeyError) L ->
  sat (operatorName op) L Q.
Proof.
  intros Hs Hn. unfold operatorName.
  destruct (assoc op operatorNames) eqn:E.
  - apply sat_ret, Hs. reflexivity.
  - apply sat_raise, Hn.
Qed.

Lemma sat_try {A} (m h : M A) L Q :
  sat m L (fun r L1 =>
             match r with
             | Raise IndexError => sat h L1 Q
             | _ => Q r L1
             end) ->
  sat (try_IndexError m h) L Q.
Proof.
  unfold sat, try_IndexError. destruct (m L) as [[a|[]|] L1]; simpl; auto.
Qed.


(** ** Proof steps *)

Ltac len_facts :=
  repeat match goal with
  | H : shape ?a = shape ?b |- _ =>
      lazymatch goal with
      | _ : len a = len b |- _ => fail
      | _ => pose proof (shape_len _ _ H)
      end
  end.

Ltac finish :=
  unfold post, moves, grow, enough in *; autorewrite with lexer in *; len_facts;
  repeat match goal with
         | |- _ /\ _ => split
         | H : _ /\ _ |- _ => destruct H
         end;
  try congruence; try lia; try tauto.

Ltac step :=
  lazymatch goal with
  | |- sat (bind _ _) _ _ => apply sat_bind
  | |- sat (ret _) _ _ => apply sat_ret
  | |- sat next_char _ _ => apply sat_next_char; [intros ? ? ? | intros ?]
  | |- sat read_input _ _ => apply sat_read_input; [intros ? ? ? | intros ?]
  | |- sat (try_IndexError next_char _) _ _ => apply sat_try_next_char; [intros ? ? ? | intros ?]
  | |- sat (raise_ParseError _) _ _ => apply sat_raise_ParseError
  | |- sat (raise _) _ _ => apply sat_raise
  | |- sat advance _ _ => apply sat_modify
  | |- sat retreat _ _ => apply sat_modify
  | |- sat incr_line _ _ => apply sat_modify
  | |- sat (modify _) _ _ => apply sat_modify
  | |- sat self _ _ => apply sat_self
  | |- sat (with_fuel _) _ _ => apply sat_with_fuel; intros ? ?
  | |- sat (upd_token _ _) _ _ => apply sat_upd_token; [intros []; reflexivity | intros ? ? ? ? | ]
  | |- sat (read_token _ _) _ _ => apply sat_read_token; [intros ? | ]
  | |- sat (set_float_value _) _ _ => apply sat_set_float_value; [intros ? ? ? ? | intros ?]
  | |- sat (set_int_value _) _ _ => apply sat_set_int_value; [intros ? ? ? ? | intros ?]
  | |- sat (operatorName _) _ _ => apply sat_operatorName; [intros ? ? | ]
  | |- sat segment_from_start _ _ => unfold segment_from_start
  | |- sat (if ?b then _ else _) _ _ => destruct b eqn:?
  end.


(** Two tests on one character that cannot both succeed. *)
Ltac ch_contra :=
  exfalso;
  repeat match goal with
         | H : ch_eq ?a _ = true |- _ =>
             is_var a; apply Ascii.eqb_eq in H; subst a
         end;
  match goal with
  | H : ch_eq _ _ = true |- _ => vm_compute in H; discriminate H
  | H : ch_eq _ _ = false |- _ => vm_compute in H; discriminate H
  end.

(** Use the specification [H] of a method already verified. *)
Ltac call H :=
  eapply sat_conseq; [ apply H; try solve [finish] | intros [?|?|] ? (? & ? & ? & ?) ].


Ltac callm H :=
  eapply sat_conseq;
    [ apply H; try solve [finish] | intros [?|?|] ? (? & ? & ? & ? & ?) ].

(** ** The scanning loops and the lexers keep the shape and move forward *)

Lemma scan_while_spec p fuel : forall L, enough fuel L -> sat (scan_while p fuel) L (post 1 L).
Proof.
  induction fuel as [|fuel IH]; intros L HE; [finish|].
  simpl. repeat step; try solve [finish].
  call IH; finish.
Qed.


(** Started within the source, a run of [scan_while] stays within it, also
    when it ends on [IndexError]. *)
Lemma scan_while_within p fuel : forall L,
  sat (scan_while p fuel) L
      (fun _ L' => cursor L' <= Nat.max (cursor L) (len L)).
Proof.
  induction fuel as [|fuel IH]; intros L; [unfold sat; simpl; lia|].
  simpl. repeat step; try solve [finish].
  eapply sat_conseq; [apply IH | intros; finish].
Qed.

Lemma sat_and {A} (m : M A) L (Q1 Q2 : Res A -> Lexer -> Prop) :
  sat m L Q1 -> sat m L Q2 -> sat m L (fun r L' => Q1 r L' /\ Q2 r L').
Proof. unfold sat; auto. Qed.

Lemma lexExponent_spec L : sat lexExponent L (post 0 L).
Proof.
  unfold lexExponent. repeat step; try solve [finish].
  all: try (call scan_while_spec; repeat step; finish).
Qed.

Lemma lexZeroNumber_spec ch L : sat (lexZeroNumber ch) L (post 0 L).
Proof.
  unfold lexZeroNumber. repeat step; try solve [finish].
  - call scan_while_spec; repeat step; try solve [finish].
    call lexExponent_spec; repeat step; finish.
  - call scan_while_spec; repeat step; finish.
  - call scan_while_spec; repeat step; finish.
  - call lexExponent_spec; repeat step; finish.
Qed.

Lemma lexNumber_loop_spec fuel : forall floating L,
  enough fuel L -> sat (lexNumber_loop fuel floating) L (post 1 L).
Proof.
  induction fuel as [|fuel IH]; intros floating L HE; [finish|].
  simpl. repeat step; simpl in *; try solve [finish].
  all: try (call IH; finish).
Qed.

Lemma lexNumber_spec ch L : sat (lexNumber ch) L (post 0 L).
Proof.
  unfold lexNumber. repeat step; try solve [finish].
  call lexNumber_loop_spec; repeat step; try solve [finish].
  call lexExponent_spec; repeat step; finish.
Qed.

Lemma lexDot_spec ch L : sat (lexDot ch) L (post 0 L).
Proof.
  unfold lexDot. repeat step; try solve [finish].
  call scan_while_spec; repeat step; try solve [finish].
  call lexExponent_spec; repeat step; finish.
Qed.

Lemma lexString_loop_spec fuel delim : forall ch hasEscapes L,
  enough fuel L ->
  sat (lexString_loop fuel delim ch hasEscapes) L (post 0 L).
Proof.
  induction fuel as [|fuel IH]; intros ch hasEscapes L HE; [finish|].
  simpl. repeat step; try solve [finish].
  all: call IH; finish.
Qed.

Lemma lexRegExp_class_spec fuel : forall ch L,
  enough fuel L -> sat (lexRegExp_class fuel ch) L (post 1 L).
Proof.
  induction fuel as [|fuel IH]; intros ch L HE; [finish|].
  simpl. repeat step; try solve [finish].
  all: call IH; finish.
Qed.

Lemma lexRegExp_body_spec fuel : forall L,
  enough fuel L -> sat (lexRegExp_body fuel) L (post 1 L).
Proof.
  induction fuel as [|fuel IH]; intros L HE; [finish|].
  simpl. repeat step; try solve [finish]; try solve [ch_contra];
    try solve [call IH; finish].
  call lexRegExp_class_spec; repeat step; try solve [finish].
  call IH; finish.
Qed.

Lemma lexOp_loop_spec fuel : forall op L,
  enough fuel L -> sat (lexOp_loop fuel op) L (post 0 L).
Proof.
  induction fuel as [|fuel IH]; intros op L HE; [finish|].
  simpl. repeat step; try solve [finish].
  call IH; finish.
Qed.

Lemma lexOp_spec ch L : sat (lexOp ch) L (post 0 L).
Proof.
  unfold lexOp. repeat step; try solve [finish].
  call lexOp_loop_spec; repeat step; finish.
Qed.

Lemma lexIdent_spec ch L : sat (lexIdent ch) L (post 0 L).
Proof.
  unfold lexIdent. apply sat_bind, sat_try. step.
  eapply sat_conseq;
    [ apply sat_and; [apply scan_while_spec; assumption
                     | apply scan_while_within]
    | intros [?|e|] L1 [(? & ? & ? & ?) ?] ]; repeat step; try solve [finish].
  destruct e; repeat step; finish.
Qed.

(** ** The scanning loops keep the ring buffer *)

Ltac kept_done :=
  try (progress unfold sat; simpl);
  unfold kept in *; autorewrite with lexer in *;
  repeat match goal with H : _ /\ _ |- _ => destruct H end;
  split; congruence.

Ltac callk H :=
  eapply sat_conseq; [ apply H | intros ? ? ? ]; try solve [kept_done].

Lemma scan_while_kept p fuel : forall L, sat (scan_while p fuel) L (kept L).
Proof.
  induction fuel as [|fuel IH]; intros L; [kept_done|].
  simpl. repeat step; try solve [kept_done]. callk IH.
Qed.

Lemma lexExponent_kept L : sat lexExponent L (kept L).
Proof.
  unfold lexExponent. repeat step; try solve [kept_done].
  all: callk scan_while_kept; destruct r; repeat step; kept_done.
Qed.

Lemma lexNumber_loop_kept fuel : forall floating L,
  sat (lexNumber_loop fuel floating) L (kept L).
Proof.
  induction fuel as [|fuel IH]; intros floating L; [kept_done|].
  simpl. repeat step; try solve [kept_done]. all: callk IH.
Qed.

Lemma lexString_loop_kept fuel delim : forall ch hasEscapes L,
  sat (lexString_loop fuel delim ch hasEscapes) L (kept L).
Proof.
  induction fuel as [|fuel IH]; intros ch hasEscapes L; [kept_done|].
  simpl. repeat step; try solve [kept_done]. all: callk IH.
Qed.

Lemma lexRegExp_class_kept fuel : forall ch L,
  sat (lexRegExp_class fuel ch) L (kept L).
Proof.
  induction fuel as [|fuel IH]; intros ch L; [kept_done|].
  simpl. repeat step; try solve [kept_done]. all: callk IH.
Qed.

Lemma lexRegExp_body_kept fuel : forall L,
  sat (lexRegExp_body fuel) L (kept L).
Proof.
  induction fuel as [|fuel IH]; intros L; [kept_done|].
  simpl. repeat step; try solve [kept_done]; try solve [callk IH].
  callk lexRegExp_class_kept. destruct r; repeat step; try solve [kept_done].
  all: callk IH.
Qed.

Lemma lexOp_loop_kept fuel : forall op L, sat (lexOp_loop fuel op) L (kept L).
Proof.
  induction fuel as [|fuel IH]; intros op L; [kept_done|].
  simpl. repeat step; try solve [kept_done]. callk IH.
Qed.

Lemma cur_type_kept {A} L (r : Res A) L' : kept L r L' -> cur_type L' = cur_type L.
Proof. intros [Ht Hi]. unfold cur_type. rewrite Ht, Hi. reflexivity. Qed.

(** ** A lexer that returns has typed the current token *)

Lemma sat_set_type attr ty L (Q : Res unit -> Lexer -> Prop) :
  (forall L', cur_type L' = Some ty -> Q (Ok tt) L') ->
  Q (Raise (AttributeError attr)) L ->
  sat (upd_token attr (with_type ty)) L Q.
Proof.
  intros Hs Hn. unfold sat, upd_token.
  destruct (tokens L !! tokenIndex L) as [t|]; simpl; [|exact Hn].
  apply Hs. unfold cur_type. simpl. rewrite lookup_insert_eq. reflexivity.
Qed.

Lemma sat_keep_type attr f L (Q : Res unit -> Lexer -> Prop) :
  (forall t, t_type (f t) = t_type t) ->
  (forall L', cur_type L' = cur_type L -> Q (Ok tt) L') ->
  Q (Raise (AttributeError attr)) L ->
  sat (upd_token attr f) L Q.
Proof.
  intros Hf Hs Hn. unfold sat, upd_token.
  destruct (tokens L !! tokenIndex L) as [t|] eqn:E; simpl; [|exact Hn].
  apply Hs. unfold cur_type. simpl. rewrite lookup_insert_eq, E. apply Hf.
Qed.

Lemma sat_set_value_type (m : M unit) L (Q : Res unit -> Lexer -> Prop) :
  (exists s, m = set_float_value s \/ m = set_int_value s) ->
  (forall L', cur_type L' = cur_type L -> Q (Ok tt) L') ->
  (forall e, Q (Raise e) L) ->
  sat m L Q.
Proof.
  intros (s & [-> | ->]) Hs Hn.
  - unfold set_float_value. destruct (py_float s).
    + apply sat_keep_type; [intros []; reflexivity | exact Hs | apply Hn].
    + apply sat_raise, Hn.
  - unfold set_int_value. destruct (py_int s).
    + apply sat_keep_type; [intros []; reflexivity | exact Hs | apply Hn].
    + apply sat_raise, Hn.
Qed.

Lemma keyword_not_end s : str_in s keywords = true -> s <> "end".
Proof. intros H ->. vm_compute in H. discriminate H. Qed.

Lemma assoc_In k v l : assoc k l = Some v -> In v (map snd l).
Proof.
  induction l as [|[k' v'] l IH]; simpl; [discriminate|].
  destruct (String.eqb k k'); [injection 1 as ->; auto | auto].
Qed.

Lemma operator_not_end op name :
  assoc op operatorNames = Some name -> name <> "end".
Proof.
  intros H ->. apply assoc_In in H. simpl in H.
  repeat (destruct H as [H|H]; [discriminate H|]). exact H.
Qed.

Ltac stepT :=
  lazymatch goal with
  | |- sat (upd_token _ (with_type _)) _ _ =>
      apply sat_set_type; [intros ? ? | ]
  | |- sat (upd_token _ _) _ _ =>
      apply sat_keep_type; [intros []; reflexivity | intros ? ? | ]
  | |- sat (set_float_value _) _ _ =>
      apply sat_set_value_type; [eexists; left; reflexivity | intros ? ? | intros ?]
  | |- sat (set_int_value _) _ _ =>
      apply sat_set_value_type; [eexists; right; reflexivity | intros ? ? | intros ?]
  | |- _ => step
  end.

Ltac typed_done :=
  unfold typed; try exact I;
  autorewrite with lexer in *;
  repeat match goal with
         | H : kept _ _ _ |- _ => apply cur_type_kept in H
         end;
  autorewrite with lexer in *;
  repeat match goal with
         | H : cur_type ?a = cur_type ?b |- _ => rewrite H in *; clear H
         end;
  match goal with
  | H : cur_type _ = Some ?ty |- _ =>
      exists ty; split;
      [ exact H
      | first [ discriminate
              | eauto using keyword_not_end, operator_not_end ] ]
  end.

Ltac callT H :=
  eapply sat_conseq; [ apply H | intros [?|?|] ? ? ]; try solve [typed_done].

Ltac callK :=
  first [ callT scan_while_kept | callT lexExponent_kept
        | callT lexNumber_loop_kept | callT lexString_loop_kept
        | callT lexRegExp_body_kept | callT lexOp_loop_kept ].

Ltac typed_auto := repeat first [ solve [typed_done] | stepT | callK ].

Lemma lexZeroNumber_typed ch L : sat (lexZeroNumber ch) L typed.
Proof. unfold lexZeroNumber. typed_auto. Qed.

Lemma lexNumber_typed ch L : sat (lexNumber ch) L typed.
Proof. unfold lexNumber. typed_auto. Qed.

Lemma lexDot_typed ch L : sat (lexDot ch) L typed.
Proof. unfold lexDot. typed_auto. Qed.

Lemma lexOp_typed ch L : sat (lexOp ch) L typed.
Proof. unfold lexOp. typed_auto. Qed.

Lemma lexIdent_typed ch L : sat (lexIdent ch) L typed.
Proof.
  unfold lexIdent. apply sat_bind, sat_try. step.
  callT scan_while_kept; [typed_auto|].
  match goal with e : Exn |- _ => destruct e end; typed_auto.
Qed.

(** ** Skipping keeps the tokens and moves forward *)

Lemma skip_block_comment_spec fuel : forall L,
  enough fuel L -> sat (skip_block_comment fuel) L (moves L).
Proof.
  induction fuel as [|fuel IH]; intros L HE; [finish|].
  simpl. repeat step; try solve [finish].
  all: callm IH; finish.
Qed.

Lemma skip_line_comment_spec fuel : forall L,
  enough fuel L -> sat (skip_line_comment fuel) L (moves L).
Proof.
  induction fuel as [|fuel IH]; intros L HE; [finish|].
  simpl. apply sat_bind, sat_try. repeat step; try solve [finish].
  callm IH; finish.
Qed.

Lemma skip_loop_spec fuel : forall L,
  enough fuel L -> sat (skip_loop fuel) L (moves L).
Proof.
  induction fuel as [|fuel IH]; intros L HE; [finish|].
  simpl. step. step.
  destruct (String.get (cursor L) (source L)) as [ch|] eqn:E;
    [apply get_Some_lt in E; fold (len L) in E | step; finish].
  repeat step; try solve [finish]; try solve [callm IH; finish].
  - callm skip_block_comment_spec; repeat step; try solve [finish].
    callm IH; finish.
  - callm skip_line_comment_spec; repeat step; try solve [finish].
    callm IH; finish.
Qed.

Lemma skip_spec L : sat skip L (moves L).
Proof. unfold skip. step. apply skip_loop_spec; assumption. Qed.

(** ** A fresh scan *)

Lemma sat_upd_token_at attr f L t (Q : Res unit -> Lexer -> Prop) :
  tokens L !! tokenIndex L = Some t ->
  Q (Ok tt) (set_tokens (<[tokenIndex L := f t]> (tokens L)) L) ->
  sat (upd_token attr f) L Q.
Proof. intros E H. unfold sat, upd_token. rewrite E. exact H. Qed.

Lemma sat_read_token_at {A} attr (f : Token -> option A) L t
      (Q : Res A -> Lexer -> Prop) :
  tokens L !! tokenIndex L = Some t ->
  match f t with
  | Some a => Q (Ok a) L
  | None => Q (Raise (AttributeError attr)) L
  end ->
  sat (read_token attr f) L Q.
Proof.
  intros E H. unfold sat, read_token. rewrite E. destruct (f t); exact H.
Qed.

Lemma spans_lookup L L' i t :
  spans L' = spans L -> tokens L !! i = Some t ->
  exists t', tokens L' !! i = Some t' /\ span_of t' = span_of t.
Proof.
  unfold spans. intros H E.
  assert (H' : (span_of <$> tokens L') !! i = Some (span_of t))
    by (rewrite H, lookup_fmap, E; reflexivity).
  rewrite lookup_fmap in H'.
  destruct (tokens L' !! i) as [t'|]; [|discriminate].
  exists t'. split; [reflexivity|]. simpl in H'. congruence.
Qed.

Lemma shape_inv L L' :
  shape L' = shape L ->
  same_text L L' /\ tokenIndex L' = tokenIndex L /\
  lookahead L' = lookahead L /\ spans L' = spans L /\ others L' = others L.
Proof.
  unfold shape, same_text. intros H.
  injection H as -> -> -> -> -> -> -> ->. tauto.
Qed.

Lemma moves_inv {A} L (r : Res A) L' :
  moves L r L' ->
  same_text L L' /\ tokenIndex L' = tokenIndex L /\
  lookahead L' = lookahead L /\ tokens L' = tokens L /\
  cursor L <= cursor L' /\ line L <= line L'.
Proof.
  intros (Ht & Hs & Hl & Hc & _). apply shape_inv in Hs. tauto.
Qed.

Lemma span_ok_with_end c0 c t n :
  t_start t = Some c0 -> c0 < c -> c <= n -> span_ok n (with_end c t) = true.
Proof.
  intros E H1 H2. unfold span_ok. simpl. rewrite E.
  apply andb_true_intro.
  split; [apply Nat.ltb_lt | apply Nat.leb_le]; assumption.
Qed.

Section Specs.

Variable py_eval : string -> Exn + Value.

Lemma sat_set_eval_value s L (Q : Res unit -> Lexer -> Prop) :
  (forall L', shape L' = shape L -> cursor L' = cursor L -> line L' = line L ->
              Q (Ok tt) L') ->
  (forall e, Q (Raise e) L) ->
  sat (set_eval_value py_eval s) L Q.
Proof.
  intros Hs Hn. unfold set_eval_value. destruct (py_eval s).
  - apply sat_raise, Hn.
  - apply sat_upd_token; [intros []; reflexivity | exact Hs | apply Hn].
Qed.

Ltac step' :=
  first [ step
        | lazymatch goal with
          | |- sat (set_eval_value _ _) _ _ =>
              apply sat_set_eval_value; [intros ? ? ? ? | intros ?]
          end ].

Lemma lexString_spec ch L :
  sat (lexString py_eval ch) L (post 0 L).
Proof.
  unfold lexString. repeat step'; try solve [finish].
  call lexString_loop_spec; repeat step'; finish.
Qed.

Lemma lexRegExp_spec ch L :
  sat (lexRegExp py_eval ch) L (post 0 L).
Proof.
  unfold lexRegExp. repeat step'; try solve [finish].
  call lexRegExp_body_spec; repeat step'; try solve [finish].
  call scan_while_spec; repeat step'; finish.
Qed.

Lemma lexString_typed ch L : sat (lexString py_eval ch) L typed.
Proof.
  unfold lexString, set_eval_value. typed_auto.
  destruct (py_eval _); typed_auto.
Qed.

Lemma lexRegExp_typed ch L : sat (lexRegExp py_eval ch) L typed.
Proof.
  unfold lexRegExp, set_eval_value. typed_auto.
  destruct (py_eval _); typed_auto.
Qed.

Lemma get_dispatch_typed ch L : sat (get_dispatch py_eval ch) L typed.
Proof.
  unfold get_dispatch. step. step.
  repeat lazymatch goal with
         | |- sat (if ?b then _ else _) _ _ => destruct b
         end.
  - apply lexIdent_typed.
  - apply lexRegExp_typed.
  - apply lexDot_typed.
  - typed_auto.
  - apply lexOp_typed.
  - apply lexNumber_typed.
  - apply lexZeroNumber_typed.
  - apply lexString_typed.
  - typed_auto.
Qed.

(** Once entered on a token, [lexRegExp] tags it [regexp], whether it
    returns or raises. *)
Lemma lexRegExp_tagged ch L t :
  tokens L !! tokenIndex L = Some t ->
  sat (lexRegExp py_eval ch) L (fun _ L' => cur_type L' = Some "regexp").
Proof.
  intros E. unfold lexRegExp, set_eval_value. step.
  eapply sat_upd_token_at; [exact E|].
  set (L1 := set_tokens _ _).
  assert (H1 : cur_type L1 = Some "regexp")
    by (unfold cur_type, L1; simpl; rewrite lookup_insert_eq; reflexivity).
  clearbody L1.
  repeat first [ stepT | eapply sat_conseq; [apply lexRegExp_body_kept |
                                              intros [?|?|] ? ?]
               | eapply sat_conseq; [apply scan_while_kept |
                                     intros [?|?|] ? ?] ];
    try (destruct (py_eval _); repeat stepT);
    autorewrite with lexer in *;
    repeat match goal with
           | H : kept _ _ _ |- _ => apply cur_type_kept in H
           end;
    autorewrite with lexer in *; congruence.
Qed.

Lemma get_dispatch_spec ch L : sat (get_dispatch py_eval ch) L (post 0 L).
Proof.
  unfold get_dispatch. step. step.
  repeat lazymatch goal with
         | |- sat (if ?b then _ else _) _ _ => destruct b
         end.
  - apply lexIdent_spec.
  - call lexRegExp_spec; finish.
  - call lexDot_spec; finish.
  - repeat step; finish.
  - call lexOp_spec; finish.
  - call lexNumber_spec; finish.
  - apply lexZeroNumber_spec.
  - call lexString_spec; finish.
  - step. finish.
Qed.

Ltac raised :=
  unfold scanned, same_text; simpl; repeat split; try congruence; try lia.

Lemma get_scan_spec L : sat (get_scan py_eval) L (scanned L).
Proof.
  unfold get_scan. step.
  eapply sat_conseq; [apply skip_spec | intros r L1 HM].
  pose proof (moves_inv _ _ _ HM)
    as ((Hsrc & Hfn & Hnl & Hop) & Hti & Hla & Htok & Hc & Hl).
  destruct r as [[]|e|]; [ | raised | destruct HM as (_ & _ & _ & _ & []) ].
  do 6 step. cbn [set_tokens set_tokenIndex cursor source tokens tokenIndex line].
  set (ti := next_slot (tokenIndex L1)).
  set (L2 := set_tokens _ _).
  destruct (cursor L1 =? String.length (source L1)) eqn:Ecur.
  - (* end of input: the sentinel *)
    step. eapply sat_upd_token_at; [simpl; apply lookup_insert_eq|].
    eapply sat_read_token_at; [simpl; apply lookup_insert_eq|]. simpl.
    unfold scanned, same_text. simpl. fold ti.
    rewrite !insert_insert_eq, !delete_insert_eq, lookup_insert_eq.
    repeat split; try congruence; try lia.
    + unfold ti, next_slot; congruence.
    + eexists; split; [reflexivity|]. split; reflexivity.
  - (* a token: its span starts at the cursor *)
    step. eapply sat_upd_token_at; [simpl; apply lookup_insert_eq|].
    step. eapply sat_upd_token_at; [simpl; apply lookup_insert_eq|].
    simpl. rewrite !insert_insert_eq. fold ti.
    set (t1 := with_line _ _). set (L3 := set_tokens _ _).
    step. step; [|raised].
    step. eapply sat_conseq;
      [apply sat_and; [apply get_dispatch_spec|apply get_dispatch_typed]|].
    intros r L4 [(Hs4 & Hl4 & Hc4 & Hg4) Hty4].
    apply shape_inv in Hs4.
    destruct Hs4 as ((Hsrc4 & Hfn4 & Hnl4 & Hop4) & Hti4 & Hla4 & Hsp4 & Hot4).
    autorewrite with lexer in *. simpl in * |-.
    destruct (spans_lookup L3 L4 ti t1 Hsp4) as (t4 & E4 & Hspan4);
      [apply lookup_insert_eq|].
    destruct r as [[]|e|]; [|raised|contradiction].
    do 3 step. eapply sat_upd_token_at; [rewrite Hti4; exact E4|].
    eapply sat_read_token_at; [simpl; rewrite Hti4; apply lookup_insert_eq|].
    simpl. destruct (t_type t4) as [ty|] eqn:Ety; [|raised].
    unfold scanned, same_text. simpl. rewrite Hti4.
    rewrite delete_insert_eq, lookup_insert_eq.
    unfold others in Hot4. simpl in Hot4. rewrite Hti4 in Hot4. rewrite Hot4.
    rewrite delete_insert_eq.
    repeat split; try congruence; try lia.
    + unfold ti, next_slot; congruence.
    + eexists; split; [reflexivity|]. split; [exact Ety|].
      destruct Hty4 as (ty4 & Hcur & Hne). unfold cur_type in Hcur.
      rewrite Hti4, E4, Ety in Hcur. injection Hcur as <-.
      apply String.eqb_neq in Hne.
      unfold tok_ok. simpl. rewrite Ety, Hne.
      apply span_ok_with_end with (c0 := cursor L1).
      * injection Hspan4 as -> _ _. reflexivity.
      * lia.
      * unfold len in *. simpl in *. destruct Hg4. rewrite <- Hsrc. lia.
Qed.

(** ** The ring buffer *)

Lemma land3_range z : (0 <= Z.land z 3 < 4)%Z.
Proof.
  change 3%Z with (Z.ones 2). rewrite Z.land_ones by lia.
  apply Z.mod_pos_bound. reflexivity.
Qed.

Lemma next_prev_slot i : (0 <= i < 4)%Z -> next_slot (prev_slot i) = i.
Proof.
  intros H. assert (i = 0 \/ i = 1 \/ i = 2 \/ i = 3)%Z as [->|[->|[->| ->]]] by lia;
    reflexivity.
Qed.

Lemma get_replay_spec n : forall L, sat (get_replay n) L (replayed n L).
Proof.
  induction n as [|n IH]; intros L.
  - apply sat_ret. unfold replayed, same_text. repeat split; lia.
  - simpl. do 6 step.
    cbn [set_lookahead set_tokenIndex tokens tokenIndex scanNewlines].
    set (L1 := set_tokenIndex _ _).
    destruct (tokens L !! next_slot (tokenIndex L)) as [token|] eqn:E.
    2:{ step. unfold replayed, same_text. simpl. repeat split; lia. }
    destruct (t_type token) as [ty|] eqn:Ety.
    2:{ step. unfold replayed, same_text. simpl. repeat split; lia. }
    step.
    + step. unfold replayed, same_text. simpl.
      repeat split; try lia; try apply land3_range.
      exists token. split; assumption.
    + eapply sat_conseq; [apply IH|].
      intros r L2 ((? & ? & ? & ?) & ? & ? & ? & ? & Hla & Hr).
      unfold replayed, same_text. subst L1. simpl in *.
      refine (conj _ (conj _ (conj _ (conj _ (conj _ (conj _ Hr))))));
        try congruence; try lia.
      * repeat split; congruence.
      * destruct r; auto. intros. specialize (Hla eq_refl). lia.
Qed.

Lemma tokens_ok_source L L' :
  source L' = source L -> tokens L' = tokens L -> tokens_ok L -> tokens_ok L'.
Proof. unfold tokens_ok. intros -> ->. auto. Qed.

Lemma get_spec L : sat (get py_eval) L (got L).
Proof.
  unfold get. step. step. step.
  eapply sat_conseq; [apply get_replay_spec|].
  intros r L1 ((Hsrc & Hfn & Hnl & Hop) & Hc & Hl & Htok & Hla & Hdec & Hr).
  rewrite Nat.max_id in Hla.
  destruct r as [[ty|]|e|]; [ | | | contradiction ];
    try specialize (Hdec eq_refl).
  - (* a token of the buffer, replayed *)
    step. destruct Hr as (Hti & tok & E & Ety).
    unfold got, same_text.
    refine (conj _ (conj _ (conj _ (conj _ (conj _ (conj _ _))))));
      try lia; try assumption; [repeat split; congruence|].
    exists tok. repeat split; try assumption.
    + eapply tokens_ok_source; eassumption.
    + rewrite Hsrc. rewrite Htok in E. exact (H _ _ E).
  - (* a fresh scan *)
    eapply sat_conseq; [apply get_scan_spec|].
    intros r L2 ((Hsrc2 & Hfn2 & Hnl2 & Hop2) & Hc2 & Hl2 & Hla2 & Hr2).
    unfold got, same_text.
    destruct r as [ty|e|]; [ | repeat split; try congruence; lia | contradiction ].
    destruct Hr2 as (Hti2 & Hdel & tok & E & Ety & Hok).
    refine (conj _ (conj _ (conj _ (conj _ (conj _ (conj _ _))))));
      try lia; try (rewrite Hti2; apply land3_range);
      [repeat split; congruence|].
    exists tok. repeat split; try assumption; [|congruence].
    intros i t Hi. destruct (decide (i = tokenIndex L2)) as [->|Hne].
    + rewrite E in Hi. injection Hi as <-. congruence.
    + assert (Hi' : delete (tokenIndex L2) (tokens L2) !! i = Some t)
        by (rewrite lookup_delete_ne; [exact Hi | congruence]).
      rewrite Hdel, lookup_delete_ne, Htok in Hi' by congruence.
      rewrite Hsrc2, Hsrc. exact (H _ _ Hi').
  - unfold got, same_text. repeat split; try congruence; lia.
Qed.

(** ** Every call keeps the invariant and moves forward *)

Lemma served_ret {A} (a : A) L : sat (ret a) L (served L).
Proof.
  apply sat_ret. unfold served. simpl.
  refine (conj _ (conj _ (conj _ (conj _ _)))); auto.
Qed.

Lemma served_bind {A B} (m : M A) (f : A -> M B) L :
  sat m L (served L) -> (forall a L1, sat (f a) L1 (served L1)) ->
  sat (bind m f) L (served L).
Proof.
  intros Hm Hf. apply sat_bind. eapply sat_conseq; [exact Hm|].
  intros [a|e|] L1 (Hs & Hn & Hc & Hl & Hr); [|unfold served; tauto|contradiction].
  eapply sat_conseq; [apply Hf|].
  intros r L2 (Hs2 & Hn2 & Hc2 & Hl2 & Hr2). unfold served.
  repeat split; try congruence; try lia.
  destruct r; auto.
Qed.

Lemma served_flag f L :
  (forall L, source (f L) = source L /\ filename (f L) = filename L /\
             cursor (f L) = cursor L /\ line (f L) = line L /\
             tokens (f L) = tokens L /\ tokenIndex (f L) = tokenIndex L /\
             lookahead (f L) = lookahead L) ->
  sat (modify f) L (served L).
Proof.
  intros Hf. destruct (Hf L) as (Hs & Hn & Hc & Hl & Ht & Hi & Ha).
  apply sat_modify. unfold served, inv, tokens_ok.
  rewrite Hs, Hn, Hc, Hl, Ht, Hi, Ha. repeat split; try lia; tauto.
Qed.

Lemma get_served L : sat (get py_eval) L (served L).
Proof.
  eapply sat_conseq; [apply get_spec|].
  intros r L' ((Hs & Hn & _ & _) & Hc & Hl & Ha & Hr). unfold served.
  repeat split; try assumption.
  destruct r as [ty|e|]; [|exact I|exact Hr].
  destruct Hr as (_ & Hti & tok & _ & _ & Hok). intros (_ & Hla & Htok).
  unfold inv. repeat split; try lia. apply Hok, Htok.
Qed.

Lemma unget_eq L :
  unget L =
  if lookahead L + 1 =? 4
  then (Raise (ParseError "PANIC: too much lookahead!" (filename L) (line L)),
        set_lookahead (lookahead L + 1) L)
  else (Ok tt, set_tokenIndex (prev_slot (tokenIndex L))
                 (set_lookahead (lookahead L + 1) L)).
Proof.
  unfold unget, bind, modify, self, raise_ParseError. simpl.
  destruct (lookahead L + 1 =? 4); reflexivity.
Qed.

Lemma unget_served L : sat unget L (served L).
Proof.
  unfold sat. rewrite unget_eq.
  destruct (lookahead L + 1 =? 4) eqn:E; unfold served; simpl.
  - repeat split; lia.
  - apply Nat.eqb_neq in E.
    refine (conj _ (conj _ (conj _ (conj _ _)))); try reflexivity; try lia.
    intros (_ & Hla & Htok). unfold inv, tokens_ok. simpl.
    repeat split; try apply land3_range; try lia. exact Htok.
Qed.

Lemma peek_served L : sat (peek py_eval) L (served L).
Proof.
  unfold peek. apply sat_bind, sat_self.
  destruct (negb (lookahead L =? 0)).
  - destruct (_ && _); apply served_ret.
  - apply served_bind; [apply get_served|]. intros ty L1.
    apply served_bind; [apply unget_served|]. intros ? L2. apply served_ret.
Qed.

Lemma peekOnSameLine_served L : sat (peekOnSameLine py_eval) L (served L).
Proof.
  unfold peekOnSameLine.
  apply served_bind; [apply served_flag; intros; repeat split|]. intros ? L1.
  apply served_bind; [apply peek_served|]. intros ty L2.
  apply served_bind; [apply served_flag; intros; repeat split|]. intros ? L3.
  apply served_ret.
Qed.

Lemma match_served ty L : sat (match_ py_eval ty) L (served L).
Proof.
  unfold match_. apply served_bind; [apply get_served|]. intros ty' L1.
  destruct (String.eqb ty' ty); [apply served_ret|].
  apply served_bind; [apply unget_served|]. intros ? L2. apply served_ret.
Qed.

Lemma mustMatch_served ty L : sat (mustMatch py_eval ty) L (served L).
Proof.
  unfold mustMatch. apply served_bind; [apply match_served|]. intros [|] L1.
  - apply sat_bind, sat_self. apply served_ret.
  - apply sat_raise_ParseError. unfold served.
    refine (conj _ (conj _ (conj _ (conj _ I)))); try reflexivity; lia.
Qed.

Lemma done_served L : sat (done_ py_eval) L (served L).
Proof.
  unfold done_. apply served_bind; [apply peek_served|]. intros ty L1.
  apply served_ret.
Qed.

Lemma call_served c L : sat (call py_eval c) L (served L).
Proof.
  destruct c; simpl;
    try (apply served_bind; [|intros; apply served_ret]).
  - apply get_served.
  - apply unget_served.
  - apply peek_served.
  - apply peekOnSameLine_served.
  - apply match_served.
  - apply mustMatch_served.
  - apply done_served.
  - apply served_flag; intros; repeat split.
  - apply served_flag; intros; repeat split.
Qed.

Lemma inv_init src fname : inv (Lexer_init src fname).
Proof.
  unfold inv, tokens_ok. simpl. repeat split; try lia.
  apply map_Forall_empty.
Qed.

Lemma reachable_inv L : reachable py_eval L -> inv L.
Proof.
  induction 1 as [src fname | c L L' _ IH Hc].
  - apply inv_init.
  - pose proof (call_served c L) as Hs. unfold sat in Hs. rewrite Hc in Hs.
    destruct Hs as (_ & _ & _ & _ & Hs). exact (Hs IH).
Qed.

Lemma internal_forward i L :
  sat (internal py_eval i) L
      (fun r L' => cursor L <= cursor L' /\
                   match r with OutOfFuel => False | _ => True end).
Proof.
  destruct i; simpl.
  - eapply sat_conseq; [apply skip_spec|].
    intros r L' (_ & _ & _ & Hc & Hr). split; assumption.
  - step. eapply sat_conseq; [apply lexExponent_spec|].
    intros [b|e|] L' (_ & _ & Hc & Hr); [step| |]; tauto.
  - eapply sat_conseq; [apply lexZeroNumber_spec|].
    intros [?|?|] L' (_ & _ & Hc & Hr); tauto.
  - eapply sat_conseq; [apply lexNumber_spec|].
    intros [?|?|] L' (_ & _ & Hc & Hr); tauto.
  - eapply sat_conseq; [apply lexDot_spec|].
    intros [?|?|] L' (_ & _ & Hc & Hr); tauto.
  - eapply sat_conseq; [apply lexString_spec|].
    intros [?|?|] L' (_ & _ & Hc & Hr); tauto.
  - eapply sat_conseq; [apply lexRegExp_spec|].
    intros [?|?|] L' (_ & _ & Hc & Hr); tauto.
  - eapply sat_conseq; [apply lexOp_spec|].
    intros [?|?|] L' (_ & _ & Hc & Hr); tauto.
  - eapply sat_conseq; [apply lexIdent_spec|].
    intros [?|?|] L' (_ & _ & Hc & Hr); tauto.
Qed.

(** The iteration bound never runs out: the outcome of a call is that of
    the Python method, a result or an exception. *)
Lemma get_has_fuel L : fst (get py_eval L) <> OutOfFuel.
Proof.
  pose proof (get_spec L) as H. unfold sat, got in H.
  destruct (get py_eval L) as [[ty|e|] L']; simpl in *;
    [discriminate | discriminate | tauto].
Qed.

Lemma call_has_fuel c L : fst (call py_eval c L) <> OutOfFuel.
Proof.
  pose proof (call_served c L) as H. unfold sat, served in H.
  destruct (call py_eval c L) as [[[]|e|] L']; simpl in *;
    [discriminate | discriminate | tauto].
Qed.

End Specs.

(** ** An unterminated block comment *)

Lemma get_ge_None s : forall i, String.length s <= i -> String.get i s = None.
Proof.
  induction s as [|c s IH]; intros [|i] H; simpl in *; try reflexivity; try lia.
  apply IH. lia.
Qed.

Lemma get_lt_Some s : forall i,
  i < String.length s -> exists ch, String.get i s = Some ch.
Proof.
  induction s as [|c s IH]; intros [|i] H; simpl in *; try lia; eauto.
  apply IH. lia.
Qed.

(** [input_] is the source read from the cursor on. *)
Lemma input_get L i :
  String.get i (input_ L) = String.get (cursor L + i) (source L).
Proof.
  unfold input_, slice.
  destruct (Nat.lt_ge_cases i (String.length (source L) - cursor L)) as [H|H].
  - rewrite substring_correct1 by exact H. f_equal. lia.
  - rewrite substring_correct2 by exact H.
    symmetry. apply get_ge_None. lia.
Qed.

Lemma try_next_char_Some h L ch :
  String.get (cursor L) (source L) = Some ch ->
  try_IndexError next_char h L = (Ok ch, set_cursor (cursor L + 1) L).
Proof.
  intros E. unfold try_IndexError, next_char, bind, read_input.
  rewrite E. reflexivity.
Qed.

Lemma try_next_char_None h L :
  String.get (cursor L) (source L) = None ->
  try_IndexError next_char h L = h L.
Proof.
  intros E. unfold try_IndexError, next_char, bind, read_input.
  rewrite E. reflexivity.
Qed.

(** On the text of a comment that nothing closes, the loop runs to the end
    of the source, counting the lines, and raises there. *)
Lemma skip_block_comment_open_ended body : forall fuel L,
  (forall i, String.get (cursor L + i) (source L) = String.get i body) ->
  open_ended body = true ->
  String.length body < fuel ->
  fst (skip_block_comment fuel L)
  = Raise (ParseError "Unterminated comment" (filename L)
             (line L + count_nl body)).
Proof.
  induction body as [|c rest IH]; intros fuel L Hget Hopen Hfuel;
    (destruct fuel as [|fuel]; [simpl in Hfuel; lia|]);
    simpl skip_block_comment; unfold bind at 1;
    pose proof (Hget 0) as H0; rewrite Nat.add_0_r in H0; simpl in H0.
  - rewrite try_next_char_None by exact H0.
    unfold raise_ParseError. simpl. rewrite Nat.add_0_r. reflexivity.
  - rewrite try_next_char_Some with (ch := c) by exact H0.
    simpl in Hopen. apply andb_prop in Hopen. destruct Hopen as [Hstar Hrest].
    assert (Hget' : forall i,
               String.get (cursor L + 1 + i) (source L) = String.get i rest).
    { intros i. specialize (Hget (S i)). simpl in Hget. rewrite <- Hget.
      f_equal. lia. }
    simpl in Hfuel.
    destruct (ch_eq c "*") eqn:Ec.
    + (* a star: the next character is read, and is not a slash *)
      destruct rest as [|c' rest']; [discriminate Hstar|].
      unfold bind at 1, read_input. simpl cursor. simpl source.
      pose proof (Hget' 0) as H1. rewrite Nat.add_0_r in H1. simpl in H1.
      rewrite H1. apply negb_true_iff in Hstar. rewrite Hstar.
      rewrite (IH fuel (set_cursor (cursor L + 1) L)); try assumption; try lia.
      simpl. apply Ascii.eqb_eq in Ec. subst c. reflexivity.
    + destruct (ch_eq c NL) eqn:En.
      * unfold bind at 1, incr_line, modify. simpl.
        rewrite (IH fuel (set_line (line L + 1) (set_cursor (cursor L + 1) L)));
          try assumption; try lia.
        simpl. rewrite En. f_equal. f_equal. lia.
      * rewrite (IH fuel (set_cursor (cursor L + 1) L)); try assumption; try lia.
        simpl. rewrite En. reflexivity.
Qed.

Lemma length_le_source body c s :
  (forall i, String.get (c + i) s = String.get i body) ->
  String.length body <= String.length s.
Proof.
  intros H. destruct (String.length body) as [|n] eqn:E; [lia|].
  destruct (get_lt_Some body n) as (ch & Hch); [lia|].
  rewrite <- H in Hch. apply get_Some_lt in Hch. lia.
Qed.

(** Standing on the opener of such a comment, [skip_loop] raises. *)
Lemma skip_loop_at_opener L body fuel :
  (forall i, String.get (cursor L + i) (source L)
             = String.get i (String "/" (String "*" body))) ->
  open_ended body = true ->
  fst (skip_loop (S fuel) L)
  = Raise (ParseError "Unterminated comment" (filename L)
             (line L + count_nl body)).
Proof.
  intros Hget Hopen.
  pose proof (Hget 0) as H0. rewrite Nat.add_0_r in H0. simpl in H0.
  pose proof (Hget 1) as H1. simpl in H1.
  simpl skip_loop.
  unfold bind at 1, self. rewrite H0.
  unfold bind at 1, advance, modify.
  unfold bind at 1. autorewrite with lexer. rewrite H1.
  change (ch_eq "/" NL) with false.
  change (ch_eq "/" "/") with true.
  change (opt_is (Some "*"%char) "*") with true.
  cbn [andb].
  unfold bind at 1. cbv beta iota. unfold bind at 1.
  autorewrite with lexer.
  set (L2 := set_cursor (cursor L + 1 + 1) _).
  assert (Hraise : fst (with_fuel skip_block_comment L2)
                   = Raise (ParseError "Unterminated comment" (filename L)
                              (line L + count_nl body))).
  { unfold with_fuel, fuel_of.
    assert (Hget2 : forall i, String.get (cursor L2 + i) (source L2)
                              = String.get i body).
    { intros i. unfold L2. autorewrite with lexer.
      specialize (Hget (S (S i))). simpl in Hget.
      rewrite <- Hget. f_equal. lia. }
    rewrite (skip_block_comment_open_ended body _ L2 Hget2 Hopen).
    - reflexivity.
    - pose proof (length_le_source _ _ _ Hget2). lia. }
  destruct (with_fuel skip_block_comment L2) as [[[]|e|] L3];
    simpl in Hraise; try discriminate Hraise.
  simpl. exact Hraise.
Qed.


Lemma length_append s1 s2 :
  String.length (s1 ++ s2) = String.length s1 + String.length s2.
Proof. induction s1 as [|c s1 IH]; simpl; [reflexivity | rewrite IH; reflexivity]. Qed.


(** ** A slash in operand position *)

Lemma sat_known {A} (m : M A) L r L' (Q : Res A -> Lexer -> Prop) :
  m L = (r, L') -> Q r L' -> sat m L Q.
Proof. intros E H. unfold sat. rewrite E. exact H. Qed.

Lemma cur_type_Some L ty :
  cur_type L = Some ty ->
  exists t, tokens L !! tokenIndex L = Some t /\ t_type t = Some ty.
Proof.
  unfold cur_type. destruct (tokens L !! tokenIndex L) as [t|]; [|discriminate].
  intros H. exists t. split; [reflexivity | exact H].
Qed.

Section Slash.

Variable py_eval : string -> Exn + Value.

(** With no lookahead and [scanOperand] set, a slash found by [skip] goes
    to [lexRegExp]: the token is tagged [regexp], and [get] returns that
    type when it returns. *)
Lemma get_slash_regexp L L1 :
  lookahead L = 0 -> scanOperand L = true ->
  skip L = (Ok tt, L1) ->
  String.get (cursor L1) (source L) = Some "/"%char ->
  sat (get py_eval) L
      (fun r L' => cur_type L' = Some "regexp" /\
                   (r = Ok "regexp" \/ exists e, r = Raise e)).
Proof.
  intros Hla Hop Hskip Hget.
  pose proof (skip_spec L) as HM. unfold sat in HM. rewrite Hskip in HM.
  simpl in HM. apply moves_inv in HM.
  destruct HM as ((Hsrc & _ & _ & Hop1) & _).
  unfold get. step. step. rewrite Hla. simpl get_replay. step. step.
  unfold get_scan. step. eapply sat_known; [exact Hskip|]. cbv beta iota.
  do 6 step. cbn [set_tokens set_tokenIndex cursor source tokens tokenIndex line].
  rewrite <- Hsrc in Hget.
  pose proof (get_Some_lt _ _ _ Hget) as Hlt.
  replace (cursor L1 =? String.length (source L1)) with false
    by (symmetry; apply Nat.eqb_neq; lia).
  step. eapply sat_upd_token_at; [simpl; apply lookup_insert_eq|].
  step. eapply sat_upd_token_at; [simpl; apply lookup_insert_eq|].
  simpl. rewrite !insert_insert_eq.
  set (ti := next_slot (tokenIndex L1)).
  set (t1 := with_line _ _). set (L3 := set_tokens _ _).
  step. eapply sat_known;
    [unfold next_char, bind, read_input; simpl; rewrite Hget; reflexivity|].
  cbv beta iota. step. unfold get_dispatch. step. step.
  change (is_ident_start "/") with false. cbv iota.
  replace (scanOperand (set_cursor (cursor L3 + 1) L3)) with true
    by (simpl; congruence).
  change (ch_eq "/" "/") with true. cbn [andb].
  eapply sat_conseq;
    [apply sat_and;
     [apply lexRegExp_spec
     |apply (lexRegExp_tagged py_eval "/" _ t1); simpl; apply lookup_insert_eq]|].
  intros r L4 [(Hs4 & _ & _ & Hg4) Hty4].
  destruct r as [[]|e|]; [|split; [exact Hty4|eauto]|contradiction].
  destruct (cur_type_Some _ _ Hty4) as (t4 & E4 & Ety4).
  do 3 step. eapply sat_upd_token_at; [exact E4|].
  eapply sat_read_token_at; [simpl; apply lookup_insert_eq|].
  simpl. rewrite Ety4. split; [|left; reflexivity].
  unfold cur_type. simpl. rewrite lookup_insert_eq. exact Ety4.
Qed.

Lemma sat_with_fuel_S {A} (loop : nat -> M A) L Q :
  sat (loop (S (String.length (source L)))) L Q -> sat (with_fuel loop) L Q.
Proof. intros H; exact H. Qed.

Lemma ident_part_not_assign c : is_ident_part c = true -> ch_eq c "=" = false.
Proof.
  intros H. destruct (ch_eq c "=") eqn:E; [|reflexivity].
  apply Ascii.eqb_eq in E. subst c. discriminate H.
Qed.

(** With no lookahead and [scanOperand] cleared, a slash found by [skip]
    and followed by a character of an identifier is the division
    operator. *)
Lemma get_slash_div L L1 c :
  lookahead L = 0 -> scanOperand L = false ->
  skip L = (Ok tt, L1) ->
  String.get (cursor L1) (source L) = Some "/"%char ->
  String.get (cursor L1 + 1) (source L) = Some c ->
  is_ident_part c = true ->
  fst (get py_eval L) = Ok "div".
Proof.
  intros Hla Hop Hskip Hget Hnext Hc.
  pose proof (skip_spec L) as HM. unfold sat in HM. rewrite Hskip in HM.
  simpl in HM. apply moves_inv in HM.
  destruct HM as ((Hsrc & _ & _ & Hop1) & _).
  change (sat (get py_eval) L (fun r _ => r = Ok "div")).
  unfold get. step. step. rewrite Hla. simpl get_replay. step. step.
  unfold get_scan. step. eapply sat_known; [exact Hskip|]. cbv beta iota.
  do 6 step. cbn [set_tokens set_tokenIndex cursor source tokens tokenIndex line].
  rewrite <- Hsrc in Hget, Hnext.
  pose proof (get_Some_lt _ _ _ Hget) as Hlt.
  replace (cursor L1 =? String.length (source L1)) with false
    by (symmetry; apply Nat.eqb_neq; lia).
  step. eapply sat_upd_token_at; [simpl; apply lookup_insert_eq|].
  step. eapply sat_upd_token_at; [simpl; apply lookup_insert_eq|].
  simpl. rewrite !insert_insert_eq.
  set (ti := next_slot (tokenIndex L1)).
  set (t1 := with_line _ _). set (L3 := set_tokens _ _).
  step. eapply sat_known;
    [unfold next_char, bind, read_input; simpl; rewrite Hget; reflexivity|].
  cbv beta iota. step. unfold get_dispatch. step. step.
  change (is_ident_start "/") with false. cbv iota.
  replace (scanOperand (set_cursor (cursor L3 + 1) L3)) with false
    by (simpl; congruence).
  cbn [andb]. change (ch_eq "/" ".") with false. cbv iota.
  change (ch_eq "/" NL) with false. rewrite andb_false_r.
  change (is_operator (str1 "/")) with true. cbv iota.
  set (L4 := set_cursor _ L3).
  assert (Hn4 : String.get (cursor L4) (source L4) = Some c)
    by (unfold L4, L3; simpl; exact Hnext).
  assert (Ht4 : tokens L4 !! tokenIndex L4 = Some t1)
    by (unfold L4, L3; simpl; apply lookup_insert_eq).
  assert (Hop4 : scanOperand L4 = false)
    by (unfold L4, L3; simpl; congruence).
  clearbody L4.
  unfold lexOp. step. apply sat_with_fuel_S. simpl lexOp_loop.
  step. eapply sat_known; [unfold read_input; rewrite Hn4; reflexivity|].
  cbv beta iota.
  step.
  step. eapply sat_known; [unfold read_input; rewrite Hn4; reflexivity|].
  cbv beta iota. rewrite (ident_part_not_assign c Hc). cbn [andb].
  step. change (operatorName (str1 "/")) with (@ret string "div"). step.
  step. eapply sat_upd_token_at; [exact Ht4|].
  step. eapply sat_upd_token_at; [simpl; apply lookup_insert_eq|].
  step. step. simpl scanOperand. rewrite Hop4. step.
  do 3 step. eapply sat_upd_token_at; [simpl; apply lookup_insert_eq|].
  eapply sat_read_token_at; [simpl; apply lookup_insert_eq|].
  reflexivity.
Qed.

End Slash.

(** ** Pushing a token back and reading it again *)

Section Pushback.

Variable py_eval : string -> Exn + Value.

Lemma unget_get_restores L tok ty :
  (0 <= tokenIndex L < 4)%Z ->
  lookahead L < 3 ->
  tokens L !! tokenIndex L = Some tok ->
  t_type tok = Some ty ->
  ty <> "newline" \/ scanNewlines L = true ->
  exists L1, unget L = (Ok tt, L1) /\ get py_eval L1 = (Ok ty, L).
Proof.
  intros Hti Hla E Ety Hnl.
  rewrite unget_eq.
  replace (lookahead L + 1 =? 4) with false
    by (symmetry; apply Nat.eqb_neq; lia).
  eexists. split; [reflexivity|].
  unfold get, bind at 1, self. cbn [lookahead set_tokenIndex set_lookahead].
  rewrite Nat.add_1_r. simpl get_replay.
  unfold bind, modify, self, ret. simpl.
  rewrite (next_prev_slot _ Hti), E, Ety.
  assert (Hc : negb (String.eqb ty "newline") || scanNewlines L = true).
  { destruct Hnl as [Hne | ->]; [|apply orb_true_r].
    apply String.eqb_neq in Hne. rewrite Hne. reflexivity. }
  rewrite Hc. destruct L; reflexivity.
Qed.

(** [peek] keeps both mode flags, and its loops have fuel enough. *)
Lemma peek_flags L :
  sat (peek py_eval) L
      (fun r L' => scanNewlines L' = scanNewlines L /\
                   scanOperand L' = scanOperand L /\
                   match r with OutOfFuel => False | _ => True end).
Proof.
  unfold peek. step. step.
  destruct (negb (lookahead L =? 0)).
  - destruct (_ && _); step; repeat split.
  - step. eapply sat_conseq; [apply get_spec|].
    intros r L1 ((_ & _ & Hnl & Hop) & _ & _ & _ & Hr).
    destruct r as [ty|e|]; [|repeat split; assumption|contradiction].
    step. unfold sat. rewrite unget_eq.
    destruct (lookahead L1 + 1 =? 4); simpl; repeat split; assumption.
Qed.

End Pushback.

(** * The claims *)

Section Claims.

Variable py_eval : string -> Exn + Value.

(** ** Malformed input *)

(** C1 (defect of the code).  A string literal that nothing terminates is
    malformed input, yet [get] does not raise the lexer's [ParseError] on
    it: reading past the end of the source, [lexString] lets Python's
    [IndexError] escape.  The same happens to a number cut off after its
    exponent marker and to a block comment whose last character is a star. *)
Theorem C1_unterminated_string_escapes_as_IndexError :
  fst (get py_eval (Lexer_init (String DQUOTE "abc") "lexer.js"))
  = Raise IndexError /\
  fst (get py_eval (Lexer_init "1e" "lexer.js")) = Raise IndexError /\
  fst (get py_eval (Lexer_init "/* a *" "lexer.js")) = Raise IndexError /\
  is_ParseError IndexError = false.
Proof. repeat split; vm_compute; reflexivity. Qed.

(** The conditions the lexer does detect raise [ParseError] with the file
    name and the current line. *)
Lemma detected_conditions_raise_ParseError :
  fst (get py_eval (Lexer_init "/* a" "lexer.js"))
  = Raise (ParseError "Unterminated comment" "lexer.js" 1) /\
  fst (get py_eval (Lexer_init "/ab" "lexer.js"))
  = Raise (ParseError "Unterminated regex" "lexer.js" 1) /\
  fst (get py_eval (Lexer_init "/a[b" "lexer.js"))
  = Raise (ParseError "Unterminated character class" "lexer.js" 1) /\
  fst (get py_eval (Lexer_init "1e;" "lexer.js"))
  = Raise (ParseError "Missing exponent" "lexer.js" 1) /\
  fst (get py_eval (Lexer_init "#" "lexer.js"))
  = Raise (ParseError "Illegal token: #" "lexer.js" 1) /\
  fst (mustMatch py_eval "semicolon" (Lexer_init "a b" "lexer.js"))
  = Raise (ParseError "Missing semicolon" "lexer.js" 1).
Proof. repeat split; vm_compute; reflexivity. Qed.

(** ** Numbers *)

(** C4 (defect of the code).  On a hexadecimal or an octal literal
    [lexZeroNumber] calls [parseInt], a name bound nowhere: [get] raises
    [NameError] and the token gets no value, 31 or 8 or other.  At the very
    end of the source the digit loop raises [IndexError] before that. *)
Theorem C4_hex_and_octal_literals_raise_NameError :
  fst (get py_eval (Lexer_init "0x1F;" "lexer.js"))
  = Raise (NameError "parseInt") /\
  fst (get py_eval (Lexer_init "010;" "lexer.js"))
  = Raise (NameError "parseInt") /\
  fst (get py_eval (Lexer_init "0.5;" "lexer.js"))
  = Raise (NameError "parseFloat") /\
  fst (get py_eval (Lexer_init "0x1F" "lexer.js")) = Raise IndexError /\
  fst (get py_eval (Lexer_init "010" "lexer.js")) = Raise IndexError.
Proof. repeat split; vm_compute; reflexivity. Qed.

(** The literals that [lexNumber] and [lexDot] decode, followed by one more
    character, get their decimal value: an integer without dot or exponent,
    a float otherwise. *)
Lemma decimal_literals_decode :
  value_after_get py_eval "3.14e2;"
  = (Ok "number", Some (VFloat {| dec_mant := 314; dec_exp := 0 |})) /\
  value_after_get py_eval ".5;"
  = (Ok "number", Some (VFloat {| dec_mant := 5; dec_exp := -1 |})) /\
  value_after_get py_eval "42;" = (Ok "number", Some (VInt 42)) /\
  value_after_get py_eval "4e1;"
  = (Ok "number", Some (VFloat {| dec_mant := 4; dec_exp := 1 |})) /\
  value_after_get py_eval "0;" = (Ok "number", Some (VInt 0)) /\
  (Dec_to_Q {| dec_mant := 314; dec_exp := 0 |} == 314)%Q /\
  (Dec_to_Q {| dec_mant := 5; dec_exp := -1 |} == 1 # 2)%Q.
Proof. repeat split; vm_compute; reflexivity. Qed.

(** ** Regular expressions and division *)

(** C5 (defect of the code).  With [scanOperand] set, the input [/abc/g]
    does not lex as a token: after the flag [g] the loop on the flags reads
    past the end of the source and [get] raises [IndexError], leaving a
    token tagged [regexp] that has no [end].  With [scanOperand] cleared
    the same input gives the division operator, of span 0 to 1. *)
Theorem C5_regexp_then_end_of_input_raises_IndexError :
  let L := Lexer_init "/abc/g" "lexer.js" in
  fst (get py_eval L) = Raise IndexError /\
  (tokens (snd (get py_eval L)) !! 1%Z
   = Some {| t_type := Some "regexp"; t_value := None; t_start := Some 0;
             t_end := None; t_line := Some 1; t_assignOp := None |}) /\
  fst (get py_eval (set_scanOperand false L)) = Ok "div" /\
  (tokens (snd (get py_eval (set_scanOperand false L))) !! 1%Z
   = Some {| t_type := Some "div"; t_value := None; t_start := Some 0;
             t_end := Some 1; t_line := Some 1; t_assignOp := Some None |}).
Proof. repeat split; vm_compute; reflexivity. Qed.

(** Followed by one more character, the literal is scanned to its end and
    its text handed to [eval]; what [get] does then is what [eval] does. *)
Lemma regexp_value_is_left_to_eval :
  fst (get py_eval (Lexer_init "/abc/g;" "lexer.js"))
  = match py_eval "/abc/g" with
    | inl e => Raise e
    | inr _ => Ok "regexp"
    end.
Proof.
  unfold get, get_scan, bind; simpl.
  vm_compute. destruct (py_eval "/abc/g"); reflexivity.
Qed.


(** ** The lookahead ring buffer *)

(** C2 (amended).  From a state with no lookahead, three calls of [unget]
    in a row succeed and the fourth raises the lookahead-overflow error:
    [unget] raises as soon as the count reaches 4. *)
Theorem unget_overflows_on_fourth_call L :
  lookahead L = 0 ->
  fst (ungets 3 L) = Ok tt /\
  lookahead (snd (ungets 3 L)) = 3 /\
  fst (unget (snd (ungets 3 L)))
  = Raise (ParseError "PANIC: too much lookahead!" (filename L) (line L)).
Proof.
  intros H. destruct L. simpl in H. subst. repeat split; reflexivity.
Qed.

(** C6 (amended).  From a reachable state, after a [get] that returned
    the type [ty] and whatever the parser then assigns to the two mode
    flags, provided [ty] is not [newline] or [scanNewlines] is set, [unget]
    followed by [get] returns [ty] again and restores the whole state, the
    line and the cursor with it. *)
Theorem unget_then_get_replays_the_token L0 ty L1 b1 b2 :
  reachable py_eval L0 ->
  get py_eval L0 = (Ok ty, L1) ->
  ty <> "newline" \/ b1 = true ->
  let L := set_scanOperand b2 (set_scanNewlines b1 L1) in
  exists Lu, unget L = (Ok tt, Lu) /\ get py_eval Lu = (Ok ty, L).
Proof.
  intros Hreach Hget Hnl L.
  pose proof (reachable_inv py_eval L0 Hreach) as (_ & Hla0 & _).
  pose proof (get_spec py_eval L0) as Hgot. unfold sat in Hgot.
  rewrite Hget in Hgot. simpl in Hgot.
  destruct Hgot as (_ & _ & _ & _ & Hla & Hti & tok & E & Ety & _).
  apply (unget_get_restores py_eval L tok ty); unfold L; simpl;
    try assumption; lia.
Qed.

(** C7 (amended).  [peekOnSameLine] peeks with [scanNewlines] set and,
    when the peek returns, leaves [scanNewlines] cleared, whatever its
    value was before: the prior value is restored only if it was false.
    When the peek raises, the flag stays set. *)
Theorem peekOnSameLine_clears_scanNewlines L :
  match peek py_eval (set_scanNewlines true L) with
  | (Ok ty, L1) =>
      peekOnSameLine py_eval L = (Ok ty, set_scanNewlines false L1) /\
      scanNewlines (snd (peekOnSameLine py_eval L)) = false
  | (Raise e, L1) =>
      peekOnSameLine py_eval L = (Raise e, L1) /\ scanNewlines L1 = true
  | (OutOfFuel, _) => False
  end.
Proof.
  pose proof (peek_flags py_eval (set_scanNewlines true L)) as H.
  unfold sat in H. unfold peekOnSameLine, bind, modify, ret.
  destruct (peek py_eval (set_scanNewlines true L)) as [[ty|e|] L1];
    simpl in *.
  - split; reflexivity.
  - split; [reflexivity | tauto].
  - tauto.
Qed.

(** C8.  From a reachable state, the token of a [get] that returns is in
    the current slot with the type returned; the end-of-input sentinel
    carries neither [start] nor [end], and every other token carries a span
    with [start < end] and [end] at most the length of the source.  The
    same holds of every token then in the ring buffer. *)
Theorem get_returns_well_formed_token L ty L' :
  reachable py_eval L ->
  get py_eval L = (Ok ty, L') ->
  exists tok,
    tokens L' !! tokenIndex L' = Some tok /\
    t_type tok = Some ty /\
    (ty = "end" -> t_start tok = None /\ t_end tok = None) /\
    (ty <> "end" ->
     exists s e, t_start tok = Some s /\ t_end tok = Some e /\
                 s < e /\ e <= String.length (source L')) /\
    tokens_ok L'.
Proof.
  intros Hreach Hget.
  pose proof (reachable_inv py_eval L Hreach) as (_ & _ & Hok).
  pose proof (get_spec py_eval L) as Hgot. unfold sat in Hgot.
  rewrite Hget in Hgot. simpl in Hgot.
  destruct Hgot as (_ & _ & _ & _ & _ & _ & tok & E & Ety & Htok).
  destruct (Htok Hok) as [Hok' Hwf].
  exists tok. split; [exact E|]. split; [exact Ety|].
  refine ((fun H => conj (proj1 H) (conj (proj2 H) Hok')) _).
  unfold tok_ok in Hwf. rewrite Ety in Hwf.
  split.
  - intros ->. simpl in Hwf. unfold no_span in Hwf.
    destruct (t_start tok); [discriminate|].
    destruct (t_end tok); [discriminate|]. split; reflexivity.
  - intros Hne. apply String.eqb_neq in Hne. rewrite Hne in Hwf.
    unfold span_ok in Hwf.
    destruct (t_start tok) as [s|]; [|discriminate].
    destruct (t_end tok) as [e|]; [|discriminate].
    apply andb_prop in Hwf. destruct Hwf as [H1 H2].
    apply Nat.ltb_lt in H1. apply Nat.leb_le in H2.
    exists s, e. repeat split; assumption.
Qed.

(** C9.  [unget] changes the lookahead count and the token index only:
    the cursor, the line, the source and the buffered tokens are those of
    before, whether it returns or raises.  And no method of the lexer,
    [unget] included, ever moves the cursor back: not the calls of the
    parser, nor the methods [get] is made of. *)
Theorem unget_keeps_cursor_and_no_call_moves_it_back L :
  (let L' := snd (unget L) in
   cursor L' = cursor L /\ line L' = line L /\ source L' = source L /\
   tokens L' = tokens L /\ filename L' = filename L /\
   scanNewlines L' = scanNewlines L /\ scanOperand L' = scanOperand L) /\
  (forall c, cursor L <= cursor (snd (call py_eval c L))) /\
  (forall i, cursor L <= cursor (snd (internal py_eval i L))).
Proof.
  split; [|split].
  - rewrite unget_eq. destruct (lookahead L + 1 =? 4); simpl; repeat split.
  - intros c. pose proof (call_served py_eval c L) as H. unfold sat in H.
    destruct H as (_ & _ & H & _). exact H.
  - intros i. pose proof (internal_forward py_eval i L) as H. unfold sat in H.
    destruct H as [H _]. exact H.
Qed.


End Claims.

(** C3 (counterexample).  The comment begins on line 1 and the source ends
    on line 2: the error carries line 2, not line 1. *)
Lemma C3_error_line_counterexample :
  let src := String "/" (String "*" (String NL EmptyString)) in
  fst (get eval_text (Lexer_init src "lexer.js"))
  = Raise (ParseError "Unterminated comment" "lexer.js" 2) /\
  fst (get eval_text (Lexer_init src "lexer.js"))
  <> Raise (ParseError "Unterminated comment" "lexer.js"
              (line (Lexer_init src "lexer.js"))).
Proof. split; [vm_compute; reflexivity | vm_compute; discriminate]. Qed.


(** C2 (counterexample).  On a fresh lexer the run of four calls does not
    succeed: the fourth raises.  The count is then 4, and a fifth call,
    which finds it at 5, raises nothing. *)
Lemma C2_fifth_unget_counterexample :
  let L := Lexer_init "" "lexer.js" in
  fst (ungets 4 L)
  = Raise (ParseError "PANIC: too much lookahead!" "lexer.js" 1) /\
  ~ (exists L4, ungets 4 L = (Ok tt, L4)) /\
  fst (unget (snd (ungets 4 L))) = Ok tt.
Proof.
  repeat split; try (vm_compute; reflexivity).
  intros (L4 & H). vm_compute in H. discriminate H.
Qed.

Lemma unget_overflows_on_fourth_call_witness :
  let L := Lexer_init "a b" "lexer.js" in
  fst (ungets 3 L) = Ok tt /\
  lookahead (snd (ungets 3 L)) = 3 /\
  fst (unget (snd (ungets 3 L)))
  = Raise (ParseError "PANIC: too much lookahead!" "lexer.js" 1).
Proof.
  intros L. apply (unget_overflows_on_fourth_call L). reflexivity.
Defined.

Lemma reach_step py_eval c L :
  reachable py_eval L -> fst (call py_eval c L) = Ok tt ->
  reachable py_eval (snd (call py_eval c L)).
Proof.
  intros HL Hc. apply (reach_call py_eval c L); [exact HL|].
  destruct (call py_eval c L) as [r L']. simpl in *. rewrite Hc. reflexivity.
Qed.

(** C6 (counterexample).  The parser sets [scanNewlines], gets the
    [newline] token, and clears the flag: the state is reachable, its
    current token is the one the preceding [get] returned, and [unget]
    followed by [get] skips that token and scans the identifier after it,
    moving the cursor. *)
Lemma C6_newline_counterexample :
  let L0 := set_scanNewlines true (Lexer_init newline_x "lexer.js") in
  let L := set_scanNewlines false (snd (get eval_text L0)) in
  reachable eval_text L /\
  fst (get eval_text L0) = Ok "newline" /\
  cur_type L = Some "newline" /\
  ~ unget_get_noop eval_text L "newline" /\
  fst (get eval_text (snd (unget L))) = Ok "identifier" /\
  cursor (snd (get eval_text (snd (unget L)))) <> cursor L.
Proof.
  intros L0 L. split; [|split; [|split; [|split; [|split]]]].
  - apply (reach_step eval_text (CScanNewlines false)
             (snd (call eval_text CGet L0))); [|reflexivity].
    apply (reach_step eval_text CGet L0); [|vm_compute; reflexivity].
    apply (reach_step eval_text (CScanNewlines true)
             (Lexer_init newline_x "lexer.js")); [|reflexivity].
    apply reach_init.
  - vm_compute; reflexivity.
  - vm_compute; reflexivity.
  - intros (L1 & L2 & Hu & Hg & _).
    assert (E : L1 = snd (unget L)) by (rewrite Hu; reflexivity).
    subst L1. vm_compute in Hg. discriminate Hg.
  - vm_compute; reflexivity.
  - vm_compute. discriminate.
Qed.

Lemma unget_then_get_replays_the_token_witness :
  let L0 := Lexer_init "x + y" "lexer.js" in
  let L := set_scanOperand false
             (set_scanNewlines true (snd (get eval_text L0))) in
  exists Lu, unget L = (Ok tt, Lu) /\ get eval_text Lu = (Ok "identifier", L).
Proof.
  intros L0 L.
  apply (unget_then_get_replays_the_token eval_text L0 "identifier"
           (snd (get eval_text L0)) true false).
  - apply reach_init.
  - vm_compute. reflexivity.
  - left. discriminate.
Defined.

(** C7 (counterexample).  With [scanNewlines] set before the call,
    [peekOnSameLine] returns and leaves it cleared. *)
Lemma C7_scanNewlines_counterexample :
  let L := set_scanNewlines true (Lexer_init "x" "lexer.js") in
  fst (peekOnSameLine eval_text L) = Ok (Some "identifier") /\
  scanNewlines L = true /\
  scanNewlines (snd (peekOnSameLine eval_text L)) = false /\
  scanNewlines (snd (peekOnSameLine eval_text L)) <> scanNewlines L.
Proof.
  repeat split; try (vm_compute; reflexivity). vm_compute. discriminate.
Qed.

Lemma get_returns_well_formed_token_witness :
  let L := Lexer_init "ab + 1" "lexer.js" in
  let L' := snd (get eval_text L) in
  exists tok,
    tokens L' !! tokenIndex L' = Some tok /\
    t_type tok = Some "identifier" /\
    ("identifier" = "end" -> t_start tok = None /\ t_end tok = None) /\
    ("identifier" <> "end" ->
     exists s e, t_start tok = Some s /\ t_end tok = Some e /\
                 s < e /\ e <= String.length (source L')) /\
    tokens_ok L'.
Proof.
  intros L L'.
  apply (get_returns_well_formed_token eval_text L "identifier" L').
  - apply reach_init.
  - vm_compute. reflexivity.
Defined.


(** * Further properties of the lexer *)

(** ** Texts read from an offset *)

Lemma input_reads L t : input_ L = t -> reads (source L) (cursor L) t.
Proof. intros <- i. symmetry. apply input_get. Qed.

Lemma reads_head s c ch t : reads s c (String ch t) -> String.get c s = Some ch.
Proof. intros H. specialize (H 0). rewrite Nat.add_0_r in H. exact H. Qed.

Lemma reads_tail s c ch t : reads s c (String ch t) -> reads s (c + 1) t.
Proof.
  intros H i. specialize (H (S i)). simpl in H. rewrite <- H. f_equal. lia.
Qed.

Lemma reads_nil s c : reads s c EmptyString -> String.get c s = None.
Proof. intros H. specialize (H 0). rewrite Nat.add_0_r in H. exact H. Qed.

Lemma reads_app s c w t :
  reads s c (w ++ t) -> reads s (c + String.length w) t.
Proof.
  revert c. induction w as [|ch w IH]; intros c H; simpl in *.
  - intros i. rewrite Nat.add_0_r. apply H.
  - apply reads_tail in H. apply IH in H.
    intros i. specialize (H i). rewrite <- H. f_equal. lia.
Qed.

Lemma reads_length s c t : reads s c t -> String.length t <= String.length s.
Proof. intros H. exact (length_le_source t c s H). Qed.

Lemma get_app_l w t i :
  i < String.length w -> String.get i (w ++ t) = String.get i w.
Proof. intros H. symmetry. apply append_correct1. exact H. Qed.

(** The slice over a text that is read there is that text. *)
Lemma reads_slice s c w t :
  reads s c (w ++ t) -> slice s c (c + String.length w) = w.
Proof.
  intros H. unfold slice. apply get_correct. intros i.
  replace (c + String.length w - c) with (String.length w) by lia.
  destruct (Nat.lt_ge_cases i (String.length w)) as [Hi|Hi].
  - rewrite substring_correct1 by exact Hi.
    rewrite Nat.add_comm, H. apply get_app_l. exact Hi.
  - rewrite substring_correct2 by exact Hi.
    symmetry. apply get_ge_None. exact Hi.
Qed.

(** ** Steps of a lexer on the token [get] has allocated *)

Lemma set_cursor_id L : set_cursor (cursor L) L = L.
Proof. destruct L; reflexivity. Qed.

Lemma sat_upd_token_with attr f tok c L1 (Q : Res unit -> Lexer -> Prop) :
  Q (Ok tt) (with_token (f tok) c L1) ->
  sat (upd_token attr f) (with_token tok c L1) Q.
Proof.
  intros H. unfold sat, upd_token, with_token in *. simpl.
  rewrite lookup_insert_eq. simpl. rewrite insert_insert_eq. exact H.
Qed.

Lemma sat_read_token_with {A} attr (f : Token -> option A) tok c L1
      (Q : Res A -> Lexer -> Prop) :
  match f tok with
  | Some a => Q (Ok a) (with_token tok c L1)
  | None => Q (Raise (AttributeError attr)) (with_token tok c L1)
  end ->
  sat (read_token attr f) (with_token tok c L1) Q.
Proof.
  intros H. unfold sat, read_token. unfold with_token at 1 2. simpl.
  rewrite lookup_insert_eq. destruct (f tok); exact H.
Qed.

Lemma sat_read_input_with tok c L1 ch (Q : Res ascii -> Lexer -> Prop) :
  String.get c (source L1) = Some ch ->
  Q (Ok ch) (with_token tok c L1) ->
  sat read_input (with_token tok c L1) Q.
Proof.
  intros E H. unfold sat, read_input. unfold with_token at 1 2. simpl.
  rewrite E. exact H.
Qed.

Lemma sat_read_input_eof tok c L1 (Q : Res ascii -> Lexer -> Prop) :
  String.get c (source L1) = None ->
  Q (Raise IndexError) (with_token tok c L1) ->
  sat read_input (with_token tok c L1) Q.
Proof.
  intros E H. unfold sat, read_input. unfold with_token at 1 2. simpl.
  rewrite E. exact H.
Qed.

Lemma sat_next_char_with tok c L1 ch (Q : Res ascii -> Lexer -> Prop) :
  String.get c (source L1) = Some ch ->
  Q (Ok ch) (with_token tok (c + 1) L1) ->
  sat next_char (with_token tok c L1) Q.
Proof.
  intros E H. unfold sat, next_char, bind, read_input.
  unfold with_token at 1 2. simpl. rewrite E. exact H.
Qed.

Lemma sat_next_char_eof tok c L1 (Q : Res ascii -> Lexer -> Prop) :
  String.get c (source L1) = None ->
  Q (Raise IndexError) (with_token tok c L1) ->
  sat next_char (with_token tok c L1) Q.
Proof.
  intros E H. unfold sat, next_char, bind, read_input.
  unfold with_token at 1 2. simpl. rewrite E. exact H.
Qed.

Lemma sat_advance_with tok c L1 (Q : Res unit -> Lexer -> Prop) :
  Q (Ok tt) (with_token tok (c + 1) L1) ->
  sat advance (with_token tok c L1) Q.
Proof. intros H. exact H. Qed.

Lemma sat_retreat_with tok c L1 (Q : Res unit -> Lexer -> Prop) :
  Q (Ok tt) (with_token tok (c - 1) L1) ->
  sat retreat (with_token tok c L1) Q.
Proof. intros H. exact H. Qed.

Lemma sat_self_with tok c L1 (Q : Res Lexer -> Lexer -> Prop) :
  Q (Ok (with_token tok c L1)) (with_token tok c L1) ->
  sat self (with_token tok c L1) Q.
Proof. intros H. exact H. Qed.

(** [scan_while] over a run of characters that pass the test, up to one
    that does not. *)
Lemma sat_scan_while_run p w : forall fuel c tok L1 ch t
    (Q : Res unit -> Lexer -> Prop),
  reads (source L1) c (w ++ String ch t) ->
  all_chars p w = true -> p ch = false ->
  String.length w < fuel ->
  Q (Ok tt) (with_token tok (c + String.length w + 1) L1) ->
  sat (scan_while p fuel) (with_token tok c L1) Q.
Proof.
  induction w as [|a w IH]; intros fuel c tok L1 ch t Q Hr Hw Hch Hf HQ;
    (destruct fuel as [|fuel]; [simpl in Hf; lia|]); simpl scan_while;
    apply sat_bind.
  - simpl in Hr. apply sat_next_char_with with (ch := ch);
      [exact (reads_head _ _ _ _ Hr)|].
    rewrite Hch. apply sat_ret. simpl in HQ. rewrite Nat.add_0_r in HQ. exact HQ.
  - simpl in Hr, Hw. apply andb_prop in Hw. destruct Hw as [Ha Hw].
    apply sat_next_char_with with (ch := a);
      [exact (reads_head _ _ _ _ Hr)|].
    rewrite Ha. apply (IH fuel (c + 1) tok L1 ch t Q); try assumption.
    + exact (reads_tail _ _ _ _ Hr).
    + simpl in Hf. lia.
    + simpl in HQ. replace (c + 1 + String.length w + 1)
        with (c + S (String.length w) + 1) by lia. exact HQ.
Qed.

(** [scan_while] over a run of characters that pass the test, up to the
    end of the source. *)
Lemma sat_scan_while_eof p w : forall fuel c tok L1
    (Q : Res unit -> Lexer -> Prop),
  reads (source L1) c w ->
  all_chars p w = true ->
  String.length w < fuel ->
  Q (Raise IndexError) (with_token tok (c + String.length w) L1) ->
  sat (scan_while p fuel) (with_token tok c L1) Q.
Proof.
  induction w as [|a w IH]; intros fuel c tok L1 Q Hr Hw Hf HQ;
    (destruct fuel as [|fuel]; [simpl in Hf; lia|]); simpl scan_while;
    apply sat_bind.
  - apply sat_next_char_eof; [exact (reads_nil _ _ Hr)|].
    simpl in HQ. rewrite Nat.add_0_r in HQ. exact HQ.
  - simpl in Hw. apply andb_prop in Hw. destruct Hw as [Ha Hw].
    apply sat_next_char_with with (ch := a);
      [exact (reads_head _ _ _ _ Hr)|].
    rewrite Ha. apply (IH fuel (c + 1) tok L1 Q); try assumption.
    + exact (reads_tail _ _ _ _ Hr).
    + simpl in Hf. lia.
    + simpl in HQ. replace (c + 1 + String.length w)
        with (c + S (String.length w)) by lia. exact HQ.
Qed.

Lemma sat_with_fuel_with {A} (loop : nat -> M A) tok c L1 Q :
  sat (loop (S (String.length (source L1)))) (with_token tok c L1) Q ->
  sat (with_fuel loop) (with_token tok c L1) Q.
Proof. intros H; exact H. Qed.

Section Fresh.

Variable py_eval : string -> Exn + Value.

(** With no lookahead, [get] skips, allocates a token at the character
    where [skip] stopped, and hands that character to the dispatch. *)
Lemma get_fresh L L1 ch :
  lookahead L = 0 ->
  skip L = (Ok tt, L1) ->
  String.get (cursor L1) (source L1) = Some ch ->
  get py_eval L
  = (get_dispatch py_eval ch ;; get_finish)%lexer
      (with_token (started L1) (cursor L1 + 1) L1).
Proof.
  intros Hla Hskip Hget.
  pose proof (get_Some_lt _ _ _ Hget) as Hlt.
  unfold get, bind at 1, self. rewrite Hla. simpl get_replay.
  unfold bind at 1, ret. unfold get_scan. unfold bind at 1. rewrite Hskip.
  unfold bind at 1, modify. unfold bind at 1. unfold bind at 1, self.
  cbn [set_tokens set_tokenIndex cursor source tokens tokenIndex line].
  replace (cursor L1 =? String.length (source L1)) with false
    by (symmetry; apply Nat.eqb_neq; lia).
  unfold bind at 1. unfold upd_token at 1.
  cbn [set_tokens set_tokenIndex cursor source tokens tokenIndex line].
  rewrite lookup_insert_eq.
  unfold bind at 1. unfold upd_token at 1.
  cbn [set_tokens set_tokenIndex cursor source tokens tokenIndex line].
  rewrite lookup_insert_eq.
  unfold bind at 1. unfold next_char, bind at 1, read_input.
  cbn [set_tokens set_tokenIndex cursor source tokens tokenIndex line].
  rewrite Hget. unfold bind at 1, advance, modify.
  cbn [bind ret].
  rewrite !insert_insert_eq.
  reflexivity.
Qed.

(** At the end of the source, it allocates the sentinel. *)
Lemma get_fresh_end L L1 :
  lookahead L = 0 ->
  skip L = (Ok tt, L1) ->
  cursor L1 = String.length (source L1) ->
  get py_eval L
  = (Ok "end", with_token (with_type "end" new_Token) (cursor L1) L1).
Proof.
  intros Hla Hskip Hc.
  unfold get, bind at 1, self. rewrite Hla. simpl get_replay.
  unfold bind at 1, ret. unfold get_scan. unfold bind at 1. rewrite Hskip.
  unfold bind at 1, modify. unfold bind at 1. unfold bind at 1, self.
  cbn [set_tokens set_tokenIndex cursor source tokens tokenIndex line].
  replace (cursor L1 =? String.length (source L1)) with true
    by (symmetry; apply Nat.eqb_eq; exact Hc).
  unfold bind at 1. unfold upd_token at 1.
  cbn [set_tokens set_tokenIndex cursor source tokens tokenIndex line].
  rewrite lookup_insert_eq.
  unfold read_token.
  cbn [set_tokens set_tokenIndex cursor source tokens tokenIndex line].
  rewrite lookup_insert_eq. simpl t_type. cbv iota.
  rewrite !insert_insert_eq. unfold with_token.
  f_equal.
Qed.

End Fresh.

(** ** Exact outcomes *)

Lemma sat_eq {A} (m : M A) L r L' :
  sat m L (fun r0 L0 => r0 = r /\ L0 = L') -> m L = (r, L').
Proof.
  unfold sat. intros [<- <-]. apply surjective_pairing.
Qed.

Lemma with_token_at tok c c' L1 :
  c = c' -> with_token tok c L1 = with_token tok c' L1.
Proof. intros ->. reflexivity. Qed.

Lemma sat_get_finish tok c L1 ty (Q : Res string -> Lexer -> Prop) :
  t_type tok = Some ty ->
  Q (Ok ty) (with_token (with_end c tok) c L1) ->
  sat get_finish (with_token tok c L1) Q.
Proof.
  intros Hty H. unfold get_finish.
  apply sat_bind, sat_self_with. cbv beta iota.
  apply sat_bind, sat_upd_token_with. cbv beta iota.
  apply sat_read_token_with.
  change (t_type (with_end (cursor (with_token tok c L1)) tok)) with (t_type tok).
  rewrite Hty. exact H.
Qed.

Lemma sat_segment_from_start tok c L1 s (Q : Res string -> Lexer -> Prop) :
  t_start tok = Some s ->
  Q (Ok (slice (source L1) s c)) (with_token tok c L1) ->
  sat segment_from_start (with_token tok c L1) Q.
Proof.
  intros Hs H. unfold segment_from_start.
  apply sat_bind, sat_read_token_with. rewrite Hs.
  apply sat_bind, sat_self_with. cbv beta iota.
  apply sat_ret. exact H.
Qed.

(** One step of a method on the token that [get] has allocated. *)
Ltac run :=
  lazymatch goal with
  | |- sat (bind _ _) _ _ => apply sat_bind
  | |- sat (ret _) _ _ => apply sat_ret
  | |- sat advance (with_token _ _ _) _ => apply sat_advance_with
  | |- sat retreat (with_token _ _ _) _ => apply sat_retreat_with
  | |- sat self (with_token _ _ _) _ => apply sat_self_with
  | |- sat (upd_token _ _) (with_token _ _ _) _ => apply sat_upd_token_with
  | |- sat (with_fuel _) (with_token _ _ _) _ => apply sat_with_fuel_with
  | |- sat (raise _) _ _ => apply sat_raise
  | |- sat (raise_ParseError _) _ _ => apply sat_raise_ParseError
  | |- sat (try_IndexError _ _) _ _ => apply sat_try
  | |- sat segment_from_start (with_token _ _ _) _ =>
      eapply sat_segment_from_start; [reflexivity|]
  end; cbv beta iota.

Lemma all_chars_app p w1 w2 :
  all_chars p (w1 ++ w2) = all_chars p w1 && all_chars p w2.
Proof.
  induction w1 as [|a w1 IH]; simpl; [reflexivity|].
  rewrite IH. apply andb_assoc.
Qed.

Lemma append_empty_r s : (s ++ "")%string = s.
Proof.
  induction s as [|a s IH]; [reflexivity|].
  change (String a (s ++ "") = String a s). f_equal. exact IH.
Qed.

Lemma skip_keeps L r L1 :
  skip L = (r, L1) ->
  same_text L L1 /\ tokenIndex L1 = tokenIndex L /\
  lookahead L1 = lookahead L /\ tokens L1 = tokens L /\
  cursor L <= cursor L1 /\ line L <= line L1.
Proof.
  intros H. pose proof (skip_spec L) as HM. unfold sat in HM.
  rewrite H in HM. exact (moves_inv _ _ _ HM).
Qed.

(** The flags of the lexer are those of the state [skip] left. *)
Ltac flags :=
  repeat match goal with
         | |- context [scanOperand (with_token ?t ?c ?L)] =>
             change (scanOperand (with_token t c L)) with (scanOperand L)
         | |- context [scanNewlines (with_token ?t ?c ?L)] =>
             change (scanNewlines (with_token t c L)) with (scanNewlines L)
         end.

(** Enter the dispatch of [get] on the character where [skip] stopped. *)
Ltac fresh_get py_eval Hla Hskip Hin :=
  apply input_reads in Hin;
  rewrite (get_fresh py_eval _ _ _ Hla Hskip (reads_head _ _ _ _ Hin));
  apply sat_eq; run; unfold get_dispatch; run; run; flags.

Ltac finish_get :=
  (eapply sat_get_finish; [reflexivity|]); split; reflexivity.

(** Decide the test of a conditional on a character that is known. *)
Ltac test :=
  lazymatch goal with
  | |- sat (if ?b then _ else _) _ _ =>
      first
        [ let v := eval vm_compute in b in
          match v with
          | true => change b with true
          | false => change b with false
          end
        | lazymatch b with
          | (?x && ?y)%bool =>
              let v := eval vm_compute in y in
              match v with
              | false => change y with false; rewrite (andb_false_r x)
              end
          end ];
      cbv iota
  end.

Lemma sat_bind_inv {A B} (m : M A) (f : A -> M B) L Q :
  sat (bind m f) L Q ->
  sat m L (fun r L1 =>
             match r with
             | Ok a => sat (f a) L1 Q
             | Raise e => Q (Raise e) L1
             | OutOfFuel => Q OutOfFuel L1
             end).
Proof.
  unfold sat, bind. destruct (m L) as [[a|e|] L1]; simpl; auto.
Qed.

Lemma nonempty_head w q rest :
  exists ch tl, (w ++ String q rest)%string = String ch tl.
Proof. destruct w as [|a w]; [exists q, rest | exists a, (w ++ String q rest)%string]; reflexivity. Qed.

(** The loop of [lexString] over characters that neither close the
    literal nor escape, up to the closing delimiter. *)
Lemma sat_lexString_loop_plain q rest : forall body fuel c tok L1 ch tl
    (Q : Res bool -> Lexer -> Prop),
  String ch tl = (body ++ String q rest)%string ->
  reads (source L1) c tl ->
  all_chars (plain q) body = true ->
  String.length body < fuel ->
  Q (Ok false) (with_token tok (c + String.length body) L1) ->
  sat (lexString_loop fuel q ch false) (with_token tok c L1) Q.
Proof.
  induction body as [|a body IH]; intros fuel c tok L1 ch tl Q E Hr Hb Hf HQ;
    (destruct fuel as [|fuel]; [simpl in Hf; lia|]); simpl lexString_loop.
  - change (String ch tl = String q rest) in E. injection E as -> ->.
    unfold ch_eq. rewrite Ascii.eqb_refl. apply sat_ret.
    simpl in HQ. rewrite Nat.add_0_r in HQ. exact HQ.
  - change (String ch tl = String a (body ++ String q rest)) in E.
    injection E as -> ->.
    simpl in Hb. apply andb_prop in Hb. destruct Hb as [Ha Hb].
    unfold plain in Ha. apply andb_prop in Ha. destruct Ha as [Ha1 Ha2].
    apply negb_true_iff in Ha1, Ha2. rewrite Ha1, Ha2.
    run. run. run.
    destruct (nonempty_head body q rest) as (ch' & tl' & E').
    rewrite E' in Hr.
    apply sat_next_char_with with (ch := ch'); [exact (reads_head _ _ _ _ Hr)|].
    apply (IH fuel (c + 1) tok L1 ch' tl' Q); try assumption.
    + symmetry. exact E'.
    + exact (reads_tail _ _ _ _ Hr).
    + simpl in Hf. lia.
    + simpl in HQ. replace (c + 1 + String.length body)
        with (c + S (String.length body)) by lia. exact HQ.
Qed.

Lemma digit_not_dot c : is_digit c = true -> ch_eq c "." = false.
Proof.
  intros H. destruct (ch_eq c ".") eqn:E; [|reflexivity].
  apply Ascii.eqb_eq in E. subst c. discriminate H.
Qed.

(** The loop of [lexNumber] over digits, up to a character that is
    neither a digit nor a dot. *)
Lemma sat_lexNumber_loop_digits : forall w fuel c0 tok L1 c rest
    (Q : Res bool -> Lexer -> Prop),
  reads (source L1) c0 (w ++ String c rest) ->
  all_chars is_digit w = true ->
  is_digit c = false -> ch_eq c "." = false ->
  String.length w < fuel ->
  Q (Ok false) (with_token tok (c0 + String.length w + 1) L1) ->
  sat (lexNumber_loop fuel false) (with_token tok c0 L1) Q.
Proof.
  induction w as [|a w IH]; intros fuel c0 tok L1 c rest Q Hr Hw Hc Hdot Hf HQ;
    (destruct fuel as [|fuel]; [simpl in Hf; lia|]); simpl lexNumber_loop;
    run.
  - apply sat_next_char_with with (ch := c); [exact (reads_head _ _ _ _ Hr)|].
    rewrite Hdot. simpl andb. cbv iota. run. run. cbn [fst snd]. rewrite Hc.
    run. simpl in HQ. rewrite Nat.add_0_r in HQ. exact HQ.
  - simpl in Hw. apply andb_prop in Hw. destruct Hw as [Ha Hw].
    apply sat_next_char_with with (ch := a); [exact (reads_head _ _ _ _ Hr)|].
    rewrite (digit_not_dot _ Ha). simpl andb. cbv iota. run. run.
    cbn [fst snd]. rewrite Ha.
    apply (IH fuel (c0 + 1) tok L1 c rest Q); try assumption.
    + exact (reads_tail _ _ _ _ Hr).
    + simpl in Hf. lia.
    + simpl in HQ. replace (c0 + 1 + String.length w + 1)
        with (c0 + S (String.length w) + 1) by lia. exact HQ.
Qed.

(** The same loop over digits that end the source. *)
Lemma sat_lexNumber_loop_eof : forall w fuel c0 tok L1
    (Q : Res bool -> Lexer -> Prop),
  reads (source L1) c0 w ->
  all_chars is_digit w = true ->
  String.length w < fuel ->
  Q (Raise IndexError) (with_token tok (c0 + String.length w) L1) ->
  sat (lexNumber_loop fuel false) (with_token tok c0 L1) Q.
Proof.
  induction w as [|a w IH]; intros fuel c0 tok L1 Q Hr Hw Hf HQ;
    (destruct fuel as [|fuel]; [simpl in Hf; lia|]); simpl lexNumber_loop;
    run.
  - apply sat_next_char_eof; [exact (reads_nil _ _ Hr)|].
    simpl in HQ. rewrite Nat.add_0_r in HQ. exact HQ.
  - simpl in Hw. apply andb_prop in Hw. destruct Hw as [Ha Hw].
    apply sat_next_char_with with (ch := a); [exact (reads_head _ _ _ _ Hr)|].
    rewrite (digit_not_dot _ Ha). simpl andb. cbv iota. run. run.
    cbn [fst snd]. rewrite Ha.
    apply (IH fuel (c0 + 1) tok L1 Q); try assumption.
    + exact (reads_tail _ _ _ _ Hr).
    + simpl in Hf. lia.
    + simpl in HQ. replace (c0 + 1 + String.length w)
        with (c0 + S (String.length w)) by lia. exact HQ.
Qed.

Lemma digits_val_total s : forall acc,
  all_chars is_digit s = true -> exists z, digits_val s acc = Some z.
Proof.
  induction s as [|a s IH]; intros acc H; simpl in *.
  - exists acc. reflexivity.
  - apply andb_prop in H. destruct H as [Ha Hs]. rewrite Ha. apply IH, Hs.
Qed.

Lemma nonzero_digit d :
  between "1" "9" d = true ->
  is_digit d = true /\ is_ident_start d = false /\ ch_eq d "/" = false /\
  ch_eq d "." = false /\ ch_eq d NL = false /\ is_operator (str1 d) = false.
Proof.
  destruct d as [[] [] [] [] [] [] [] []]; intros H; try discriminate H;
    repeat split.
Qed.

(** ** The operator table *)

Lemma string_app_assoc (a b c : string) :
  ((a ++ b) ++ c)%string = (a ++ (b ++ c))%string.
Proof.
  induction a as [|x a IH]; [reflexivity|].
  change (String x ((a ++ b) ++ c) = String x (a ++ (b ++ c))).
  f_equal. exact IH.
Qed.

Lemma prefix_in p s : p <> EmptyString -> In p (prefixes (p ++ s)).
Proof.
  induction p as [|a p IH]; intros Hp; [congruence|].
  change (In (String a p) (prefixes (String a (p ++ s)))). simpl prefixes.
  destruct p as [|b p]; [left; reflexivity|].
  right. apply in_map. apply IH. discriminate.
Qed.

Lemma assoc_key k v l : assoc k l = Some v -> In k (map fst l).
Proof.
  induction l as [|[k' v'] l IH]; simpl; [discriminate|].
  destruct (String.eqb_spec k k') as [->|Hne]; [left; reflexivity|].
  intros H. right. apply IH, H.
Qed.

Lemma is_operator_key op : is_operator op = true -> In op (map fst operatorNames).
Proof.
  unfold is_operator. destruct (assoc op operatorNames) eqn:E; [|discriminate].
  intros _. exact (assoc_key _ _ _ E).
Qed.

(** As the comment on the table requires, the lexer not backtracking:
    every prefix of an operator is an operator. *)
Lemma operators_prefix_closed op p :
  In op (map fst operatorNames) -> In p (prefixes op) -> is_operator p = true.
Proof.
  assert (H : forallb (fun op => forallb is_operator (prefixes op))
                (map fst operatorNames) = true) by (vm_compute; reflexivity).
  rewrite forallb_forall in H. intros Hop Hp.
  specialize (H op Hop). rewrite forallb_forall in H. exact (H p Hp).
Qed.

Lemma operator_prefix p s :
  is_operator (p ++ s) = true -> p <> EmptyString -> is_operator p = true.
Proof.
  intros H Hp. apply (operators_prefix_closed (p ++ s) p).
  - apply is_operator_key, H.
  - apply prefix_in, Hp.
Qed.

(** The first character of an operator. *)
Lemma operator_head a w :
  is_operator (String a w) = true ->
  is_operator (str1 a) = true /\ is_ident_start a = false /\
  ch_eq a "." = false /\ ch_eq a NL = false.
Proof.
  intros H. assert (H1 : is_operator (str1 a) = true).
  { apply (operator_prefix (str1 a) w); [exact H | discriminate]. }
  split; [exact H1|]. revert H1. clear H.
  destruct a as [[] [] [] [] [] [] [] []]; intros H; try discriminate H;
    repeat split.
Qed.

(** The first loop of [lexOp], over the characters of an operator, up to
    a character that does not continue it. *)
Lemma sat_lexOp_loop_run : forall w fuel p c0 tok L1 ch rest
    (Q : Res string -> Lexer -> Prop),
  reads (source L1) c0 (w ++ String ch rest) ->
  p <> EmptyString ->
  is_operator (p ++ w) = true ->
  is_operator ((p ++ w) ++ str1 ch) = false ->
  String.length w < fuel ->
  Q (Ok (p ++ w)%string) (with_token tok (c0 + String.length w) L1) ->
  sat (lexOp_loop fuel p) (with_token tok c0 L1) Q.
Proof.
  induction w as [|a w IH]; intros fuel p c0 tok L1 ch rest Q Hr Hp Hop Hno Hf HQ;
    (destruct fuel as [|fuel]; [simpl in Hf; lia|]); simpl lexOp_loop; run.
  - rewrite append_empty_r in Hno, HQ.
    apply sat_read_input_with with (ch := ch); [exact (reads_head _ _ _ _ Hr)|].
    rewrite Hno. run. simpl in HQ. rewrite Nat.add_0_r in HQ. exact HQ.
  - assert (E : (p ++ String a w)%string = ((p ++ str1 a) ++ w)%string)
      by (rewrite string_app_assoc; reflexivity).
    rewrite E in Hop, Hno, HQ.
    apply sat_read_input_with with (ch := a); [exact (reads_head _ _ _ _ Hr)|].
    rewrite (operator_prefix (p ++ str1 a) w Hop)
      by (destruct p; discriminate).
    run. run.
    apply (IH fuel (p ++ str1 a)%string (c0 + 1) tok L1 ch rest Q);
      try assumption.
    + exact (reads_tail _ _ _ _ Hr).
    + destruct p; discriminate.
    + simpl in Hf. lia.
    + simpl in HQ. replace (c0 + 1 + String.length w)
        with (c0 + S (String.length w)) by lia. exact HQ.
Qed.

(** The same loop over an operator that ends the source. *)
Lemma sat_lexOp_loop_eof : forall w fuel p c0 tok L1
    (Q : Res string -> Lexer -> Prop),
  reads (source L1) c0 w ->
  p <> EmptyString ->
  is_operator (p ++ w) = true ->
  String.length w < fuel ->
  Q (Raise IndexError) (with_token tok (c0 + String.length w) L1) ->
  sat (lexOp_loop fuel p) (with_token tok c0 L1) Q.
Proof.
  induction w as [|a w IH]; intros fuel p c0 tok L1 Q Hr Hp Hop Hf HQ;
    (destruct fuel as [|fuel]; [simpl in Hf; lia|]); simpl lexOp_loop; run.
  - apply sat_read_input_eof; [exact (reads_nil _ _ Hr)|].
    simpl in HQ. rewrite Nat.add_0_r in HQ. exact HQ.
  - assert (E : (p ++ String a w)%string = ((p ++ str1 a) ++ w)%string)
      by (rewrite string_app_assoc; reflexivity).
    rewrite E in Hop.
    apply sat_read_input_with with (ch := a); [exact (reads_head _ _ _ _ Hr)|].
    rewrite (operator_prefix (p ++ str1 a) w Hop)
      by (destruct p; discriminate).
    run. run.
    apply (IH fuel (p ++ str1 a)%string (c0 + 1) tok L1 Q); try assumption.
    + exact (reads_tail _ _ _ _ Hr).
    + destruct p; discriminate.
    + simpl in Hf. lia.
    + simpl in HQ. replace (c0 + 1 + String.length w)
        with (c0 + S (String.length w)) by lia. exact HQ.
Qed.

Lemma str_in_In s l : str_in s l = true -> In s l.
Proof.
  unfold str_in. rewrite existsb_exists. intros (x & Hx & E).
  apply String.eqb_eq in E. subst x. exact Hx.
Qed.

(** An operator that has a compound assignment: followed by an equals
    sign it is not an operator of the table. *)
Lemma assign_operator op :
  str_in op assignOperators = true ->
  is_operator (op ++ "=") = false /\
  exists name, assoc op operatorNames = Some name.
Proof.
  intros H. apply str_in_In in H. simpl in H.
  repeat (destruct H as [<-|H]; [split; [reflexivity | eexists; reflexivity]|]).
  contradiction.
Qed.

(** Whether the slash goes to [lexRegExp]. *)
Lemma not_regexp (b : bool) a :
  b = false \/ a <> "/"%char -> b && ch_eq a "/" = false.
Proof.
  intros [-> | Hne]; [reflexivity|].
  apply andb_false_iff. right. apply Ascii.eqb_neq. exact Hne.
Qed.

(** A character that starts no token. *)
Lemma not_a_digit ch :
  is_digit ch = false -> between "1" "9" ch = false /\ ch_eq ch "0" = false.
Proof.
  destruct ch as [[] [] [] [] [] [] [] []]; intros H; try discriminate H;
    split; reflexivity.
Qed.

Section Tokens.

Variable py_eval : string -> Exn + Value.

(** [lexIdent] on the token allocated at the first character of a word:
    the word ends at a character that is not part of an identifier, or at
    the end of the source. *)
Lemma lexIdent_word L1 ch w rest a (Q : Res unit -> Lexer -> Prop) :
  reads (source L1) (cursor L1) (String ch (w ++ rest)) ->
  all_chars is_ident_part w = true ->
  stops is_ident_part rest = true ->
  Q (Ok tt)
    (with_token
       (if str_in (String ch w) keywords
        then with_type (String ch w) (started L1)
        else with_value (VStr (String ch w))
               (with_type "identifier" (started L1)))
       (cursor L1 + S (String.length w)) L1) ->
  sat (lexIdent a) (with_token (started L1) (cursor L1 + 1) L1) Q.
Proof.
  intros Hr Hw Hst HQ.
  assert (Hlen : String.length (String ch (w ++ rest))
                 <= String.length (source L1))
    by (apply reads_length in Hr; exact Hr).
  simpl in Hlen. rewrite length_append in Hlen.
  pose proof (reads_tail _ _ _ _ Hr) as Hr1.
  assert (Hseg : slice (source L1) (cursor L1)
                   (cursor L1 + S (String.length w)) = String ch w).
  { apply (reads_slice _ _ (String ch w) rest). exact Hr. }
  assert (Hnext :
    sat (retreat;;
         identifier <- segment_from_start;;
         (if str_in identifier keywords
          then upd_token "type" (with_type identifier)
          else upd_token "type" (with_type "identifier");;
               upd_token "value" (with_value (VStr identifier))))
        (with_token (started L1) (cursor L1 + S (String.length w) + 1) L1) Q).
  { run. run.
    replace (cursor L1 + S (String.length w) + 1 - 1)
      with (cursor L1 + S (String.length w)) by lia.
    run. run. rewrite Hseg.
    destruct (str_in (String ch w) keywords).
    - run. exact HQ.
    - run. run. run. exact HQ. }
  unfold lexIdent. run. run. run.
  destruct rest as [|c rest].
  - rewrite append_empty_r in Hr1.
    apply (sat_scan_while_eof _ w); try assumption; [lia|].
    run.
    replace (cursor L1 + 1 + String.length w + 1)
      with (cursor L1 + S (String.length w) + 1) by lia.
    exact Hnext.
  - simpl in Hst. apply negb_true_iff in Hst.
    apply (sat_scan_while_run _ w) with (ch := c) (t := rest);
      try assumption; [lia|].
    replace (cursor L1 + 1 + String.length w + 1)
      with (cursor L1 + S (String.length w) + 1) by lia.
    exact Hnext.
Qed.


(** X1.  An identifier or a keyword.  Where [skip] stops on a letter, a
    dollar or an underscore, [get] takes the longest run of letters,
    digits, dollars and underscores, up to the end of the source if
    nothing else follows.  When that text is a keyword the token has it
    for type and carries no value; otherwise the type is [identifier] and
    the value is the text.  The token spans exactly the text, on the line
    where it begins. *)
Theorem get_identifier_or_keyword L L1 ch w rest :
  lookahead L = 0 ->
  skip L = (Ok tt, L1) ->
  input_ L1 = String ch (w ++ rest) ->
  is_ident_start ch = true ->
  all_chars is_ident_part w = true ->
  stops is_ident_part rest = true ->
  get py_eval L =
  if str_in (String ch w) keywords then
    (Ok (String ch w),
     with_token (mk_token (String ch w) None (cursor L1)
                   (cursor L1 + S (String.length w)) (line L1))
       (cursor L1 + S (String.length w)) L1)
  else
    (Ok "identifier",
     with_token (mk_token "identifier" (Some (VStr (String ch w))) (cursor L1)
                   (cursor L1 + S (String.length w)) (line L1))
       (cursor L1 + S (String.length w)) L1).
Proof.
  intros Hla Hskip Hin Hch Hw Hst.
  apply input_reads in Hin.
  rewrite (get_fresh py_eval L L1 ch Hla Hskip (reads_head _ _ _ _ Hin)).
  assert (E : forall r L',
    sat (get_dispatch py_eval ch ;; get_finish)
        (with_token (started L1) (cursor L1 + 1) L1)
        (fun r0 L0 => r0 = r /\ L0 = L') ->
    (get_dispatch py_eval ch ;; get_finish)
      (with_token (started L1) (cursor L1 + 1) L1) = (r, L'))
    by (intros r L'; apply sat_eq).
  destruct (str_in (String ch w) keywords) eqn:Ekw; apply E;
    run; unfold get_dispatch; run; run; rewrite Hch;
    apply (lexIdent_word L1 ch w rest); try assumption; rewrite Ekw;
    (eapply sat_get_finish; [reflexivity|]); split; reflexivity.
Qed.


(** X2.  A dot that no digit follows is the token [dot], one character
    long. *)
Theorem get_dot L L1 c rest :
  lookahead L = 0 ->
  skip L = (Ok tt, L1) ->
  input_ L1 = String "." (String c rest) ->
  is_digit c = false ->
  get py_eval L
  = (Ok "dot",
     with_token (mk_token "dot" None (cursor L1) (cursor L1 + 1) (line L1))
       (cursor L1 + 1) L1).
Proof.
  intros Hla Hskip Hin Hc.
  fresh_get py_eval Hla Hskip Hin.
  change (is_ident_start ".") with false.
  change (ch_eq "." "/") with false. rewrite andb_false_r.
  change (ch_eq "." ".") with true. cbv iota.
  unfold lexDot. run.
  apply sat_read_input_with with (ch := c);
    [exact (reads_head _ _ _ _ (reads_tail _ _ _ _ Hin))|].
  rewrite Hc. run. finish_get.
Qed.

(** X3.  With [scanNewlines] set, a newline is a token of its own: [get]
    returns [newline], the token carries the line on which the newline
    stands, and the line count goes up by one. *)
Theorem get_newline L L1 rest :
  lookahead L = 0 ->
  scanNewlines L = true ->
  skip L = (Ok tt, L1) ->
  input_ L1 = String NL rest ->
  get py_eval L
  = (Ok "newline",
     with_token (mk_token "newline" None (cursor L1) (cursor L1 + 1) (line L1))
       (cursor L1 + 1) (set_line (line L1 + 1) L1)).
Proof.
  intros Hla Hnl Hskip Hin.
  destruct (skip_keeps _ _ _ Hskip) as ((_ & _ & Hnl1 & _) & _).
  fresh_get py_eval Hla Hskip Hin.
  change (is_ident_start NL) with false.
  change (ch_eq NL "/") with false. rewrite andb_false_r.
  change (ch_eq NL ".") with false.
  change (ch_eq NL NL) with true. rewrite Hnl1, Hnl. cbv iota. simpl andb. cbv iota.
  run. run. apply sat_modify.
  change (set_line (line (with_token (with_type "newline" (started L1))
                            (cursor L1 + 1) L1) + 1)
            (with_token (with_type "newline" (started L1)) (cursor L1 + 1) L1))
    with (with_token (with_type "newline" (started (set_line (line L1) L1)))
            (cursor L1 + 1) (set_line (line L1 + 1) L1)).
  finish_get.
Qed.

(** X4.  A string literal without backslash.  From a quote to the next
    occurrence of the same quote, [get] returns [string]; the value is
    the text between the quotes, and the token spans both quotes.  The
    closing quote may be the last character of the source. *)
Theorem get_string_without_escapes L L1 q body rest :
  lookahead L = 0 ->
  skip L = (Ok tt, L1) ->
  input_ L1 = String q (body ++ String q rest) ->
  q = DQUOTE \/ q = "'"%char ->
  all_chars (plain q) body = true ->
  get py_eval L
  = (Ok "string",
     with_token (mk_token "string" (Some (VStr body)) (cursor L1)
                   (cursor L1 + String.length body + 2) (line L1))
       (cursor L1 + String.length body + 2) L1).
Proof.
  intros Hla Hskip Hin Hq Hbody.
  pose proof (input_reads _ _ Hin) as Hr.
  assert (Hlen : String.length (String q (body ++ String q rest))
                 <= String.length (source L1)) by (apply reads_length in Hr; exact Hr).
  simpl in Hlen. rewrite length_append in Hlen. simpl in Hlen.
  pose proof (reads_tail _ _ _ _ Hr) as Hr1.
  assert (Hseg : slice (source L1) (cursor L1 + 1)
                   (cursor L1 + 1 + String.length body) = body)
    by (exact (reads_slice _ _ body (String q rest) Hr1)).
  fresh_get py_eval Hla Hskip Hin.
  assert (Hdisp :
    sat (lexString py_eval q;; get_finish)
        (with_token (started L1) (cursor L1 + 1) L1)
        (fun r0 L0 =>
           r0 = Ok "string" /\
           L0 = with_token (mk_token "string" (Some (VStr body)) (cursor L1)
                              (cursor L1 + String.length body + 2) (line L1))
                  (cursor L1 + String.length body + 2) L1)).
  { unfold lexString. run. run. run. run.
    destruct (nonempty_head body q rest) as (ch' & tl' & E').
    rewrite E' in Hr1.
    apply sat_next_char_with with (ch := ch');
      [exact (reads_head _ _ _ _ Hr1)|].
    run. run.
    apply (sat_lexString_loop_plain q rest body _ _ _ _ ch' tl');
      try assumption.
    - symmetry. exact E'.
    - exact (reads_tail _ _ _ _ Hr1).
    - lia.
    - run. apply sat_read_token_with. cbn [t_start with_type started with_line with_start].
      run. run. run.
      change (cursor (with_token (with_type "string" (started L1))
                        (cursor L1 + 1 + 1 + String.length body) L1))
        with (cursor L1 + 1 + 1 + String.length body).
      change (source (with_token (with_type "string" (started L1))
                        (cursor L1 + 1 + 1 + String.length body) L1))
        with (source L1).
      replace (cursor L1 + 1 + 1 + String.length body - 1)
        with (cursor L1 + 1 + String.length body) by lia.
      rewrite Hseg.
      replace (cursor L1 + 1 + 1 + String.length body)
        with (cursor L1 + String.length body + 2) by lia.
      finish_get. }
  destruct Hq as [-> | ->]; repeat test; exact (sat_bind_inv _ _ _ _ Hdisp).
Qed.

(** X5.  A decimal integer.  From a digit other than zero, [get] takes
    the digits that follow; when the next character is not a dot nor an
    exponent marker, the text of the digits goes to [int].  Within the
    limit of [int] on the number of digits, the token is a [number] whose
    value is the integer that the digits denote, and it spans exactly the
    digits.  Beyond the limit [int] raises, and so does [get], with
    [ValueError]: the token is left with a type and without value or end. *)
Theorem get_decimal_integer L L1 d w c rest :
  lookahead L = 0 ->
  skip L = (Ok tt, L1) ->
  input_ L1 = String d (w ++ String c rest) ->
  between "1" "9" d = true ->
  all_chars is_digit w = true ->
  is_digit c = false ->
  ch_eq c "." = false ->
  ch_eq c "e" || ch_eq c "E" = false ->
  if S (String.length w) <=? int_max_str_digits then
    exists z,
      py_int (String d w) = Some z /\
      get py_eval L
      = (Ok "number",
         with_token (mk_token "number" (Some (VInt z)) (cursor L1)
                       (cursor L1 + S (String.length w)) (line L1))
           (cursor L1 + S (String.length w)) L1)
  else
    get py_eval L
    = (Raise ValueError,
       with_token (with_type "number" (started L1))
         (cursor L1 + S (String.length w)) L1).
Proof.
  intros Hla Hskip Hin Hd Hw Hc Hdot He.
  destruct (nonzero_digit d Hd) as (Hdig & H1 & H2 & H3 & H4 & H5).
  destruct (digits_val_total (String d w) 0%Z) as (z & Hz).
  { simpl. rewrite Hdig. exact Hw. }
  assert (Hint : py_int (String d w)
                 = if S (String.length w) <=? int_max_str_digits
                   then Some z else None).
  { unfold py_int. change (String.length (String d w)) with (S (String.length w)).
    destruct (S (String.length w) <=? int_max_str_digits);
      [exact Hz | reflexivity]. }
  pose proof (input_reads _ _ Hin) as Hr.
  assert (Hlen : String.length (String d (w ++ String c rest))
                 <= String.length (source L1)) by (apply reads_length in Hr; exact Hr).
  simpl in Hlen. rewrite length_append in Hlen. simpl in Hlen.
  pose proof (reads_tail _ _ _ _ Hr) as Hr1.
  assert (Hseg : slice (source L1) (cursor L1)
                   (cursor L1 + S (String.length w)) = String d w)
    by (exact (reads_slice _ _ (String d w) (String c rest) Hr)).
  assert (Hrun : forall Q : Res string -> Lexer -> Prop,
    sat (set_int_value (String d w))
        (with_token (with_type "number" (started L1))
           (cursor L1 + S (String.length w)) L1)
        (fun r L2 =>
           match r with
           | Ok _ => sat get_finish L2 Q
           | Raise e => Q (Raise e) L2
           | OutOfFuel => Q OutOfFuel L2
           end) ->
    sat (get_dispatch py_eval d ;; get_finish)
        (with_token (started L1) (cursor L1 + 1) L1) Q).
  { intros Q HQ. run. unfold get_dispatch. run. run. flags.
    rewrite H1, H2, andb_false_r, H3, H4, andb_false_r, H5, Hd.
    unfold lexNumber. run. run. run. run.
    apply (sat_lexNumber_loop_digits w _ _ _ _ c rest);
      [exact Hr1 | exact Hw | exact Hc | exact Hdot | lia |].
    run. run.
    replace (cursor L1 + 1 + String.length w + 1 - 1)
      with (cursor L1 + S (String.length w)) by lia.
    run. unfold lexExponent. run.
    apply sat_read_input_with with (ch := c).
    { replace (cursor L1 + S (String.length w))
        with (cursor L1 + 1 + String.length w) by lia.
      exact (reads_head _ _ _ _ (reads_app _ _ _ _ Hr1)). }
    rewrite He. run. run. run. rewrite Hseg. simpl orb. cbv iota.
    exact HQ. }
  rewrite (get_fresh py_eval L L1 d Hla Hskip (reads_head _ _ _ _ Hr)).
  destruct (S (String.length w) <=? int_max_str_digits).
  - exists z. split; [exact Hint|].
    apply sat_eq, Hrun. unfold set_int_value. rewrite Hint. run. finish_get.
  - apply sat_eq, Hrun. unfold set_int_value. rewrite Hint.
    apply sat_raise. split; reflexivity.
Qed.

(** X6.  A decimal integer that ends the source is not lexed: looking
    for the character after the last digit, [lexNumber] reads past the
    end and [get] raises [IndexError].  The token is left with a type and
    no end. *)
Theorem get_integer_at_end_raises_IndexError L L1 d w :
  lookahead L = 0 ->
  skip L = (Ok tt, L1) ->
  input_ L1 = String d w ->
  between "1" "9" d = true ->
  all_chars is_digit w = true ->
  get py_eval L
  = (Raise IndexError,
     with_token (with_type "number" (started L1))
       (cursor L1 + S (String.length w)) L1).
Proof.
  intros Hla Hskip Hin Hd Hw.
  destruct (nonzero_digit d Hd) as (Hdig & H1 & H2 & H3 & H4 & H5).
  pose proof (input_reads _ _ Hin) as Hr.
  assert (Hlen : String.length (String d w) <= String.length (source L1))
    by (apply reads_length in Hr; exact Hr).
  simpl in Hlen.
  pose proof (reads_tail _ _ _ _ Hr) as Hr1.
  fresh_get py_eval Hla Hskip Hin.
  rewrite H1, H2, andb_false_r, H3, H4, andb_false_r, H5, Hd.
  unfold lexNumber. run. run. run. run.
  apply (sat_lexNumber_loop_eof w); try assumption; [lia|].
  split; [reflexivity|]. apply with_token_at. lia.
Qed.

(** X7.  The longest operator.  Where [skip] stops on the text of an
    operator of the table that the next character does not extend to a
    longer one, nor to a compound assignment, [get] returns the name the
    table gives it, and sets [assignOp] to [None]; the token spans the
    operator.  In operand position ([scanOperand] set) a plus or a minus
    is the unary one.  A slash counts only when [scanOperand] is cleared. *)
Theorem get_operator L L1 a w ch rest name :
  lookahead L = 0 ->
  skip L = (Ok tt, L1) ->
  input_ L1 = String a (w ++ String ch rest) ->
  assoc (String a w) operatorNames = Some name ->
  is_operator (String a w ++ str1 ch) = false ->
  ch_eq ch "=" && str_in (String a w) assignOperators = false ->
  scanOperand L = false \/ a <> "/"%char ->
  let ty :=
    if scanOperand L then
      if String.eqb name "plus" then "unary_plus"
      else if String.eqb name "minus" then "unary_minus"
      else name
    else name in
  get py_eval L
  = (Ok ty,
     with_token (op_token ty None (cursor L1)
                   (cursor L1 + S (String.length w)) (line L1))
       (cursor L1 + S (String.length w)) L1).
Proof.
  intros Hla Hskip Hin Hname Hlong Hassign Hslash ty.
  destruct (skip_keeps _ _ _ Hskip) as ((_ & _ & _ & Hop1) & _).
  assert (Hop : is_operator (String a w) = true)
    by (unfold is_operator; rewrite Hname; reflexivity).
  destruct (operator_head a w Hop) as (H1 & H2 & H3 & H4).
  pose proof (input_reads _ _ Hin) as Hr.
  assert (Hlen : String.length (String a (w ++ String ch rest))
                 <= String.length (source L1)) by (apply reads_length in Hr; exact Hr).
  simpl in Hlen. rewrite length_append in Hlen. simpl in Hlen.
  pose proof (reads_tail _ _ _ _ Hr) as Hr1.
  fresh_get py_eval Hla Hskip Hin.
  rewrite H2, Hop1, (not_regexp _ _ Hslash), H3, H4, andb_false_r, H1.
  unfold lexOp. run. run.
  apply (sat_lexOp_loop_run w _ (str1 a) _ _ _ ch rest);
    [exact Hr1 | discriminate | exact Hop | exact Hlong | lia |].
  change (str1 a ++ w)%string with (String a w).
  run.
  apply sat_read_input_with with (ch := ch);
    [exact (reads_head _ _ _ _ (reads_app _ _ _ _ Hr1))|].
  rewrite Hassign. run. unfold operatorName. rewrite Hname. run.
  run. run. run. run. run. run. flags. rewrite Hop1.
  replace (cursor L1 + 1 + String.length w)
    with (cursor L1 + S (String.length w)) by lia.
  subst ty.
  destruct (scanOperand L); [|run; finish_get].
  destruct (String.eqb name "plus"); [run; finish_get|].
  destruct (String.eqb name "minus"); run; finish_get.
Qed.

(** X8.  A compound assignment.  An operator of [assignOperators]
    followed by an equals sign is one token of type [assign], whose
    [assignOp] is the name of the operator; it spans the operator and the
    equals sign, which may end the source. *)
Theorem get_compound_assignment L L1 a w rest :
  lookahead L = 0 ->
  skip L = (Ok tt, L1) ->
  input_ L1 = String a (w ++ String "=" rest) ->
  str_in (String a w) assignOperators = true ->
  scanOperand L = false \/ a <> "/"%char ->
  exists name,
    assoc (String a w) operatorNames = Some name /\
    get py_eval L
    = (Ok "assign",
       with_token (op_token "assign" (Some name) (cursor L1)
                     (cursor L1 + String.length w + 2) (line L1))
         (cursor L1 + String.length w + 2) L1).
Proof.
  intros Hla Hskip Hin Hassign Hslash.
  destruct (assign_operator _ Hassign) as (Hlong & name & Hname).
  exists name. split; [exact Hname|].
  destruct (skip_keeps _ _ _ Hskip) as ((_ & _ & _ & Hop1) & _).
  assert (Hop : is_operator (String a w) = true)
    by (unfold is_operator; rewrite Hname; reflexivity).
  destruct (operator_head a w Hop) as (H1 & H2 & H3 & H4).
  pose proof (input_reads _ _ Hin) as Hr.
  assert (Hlen : String.length (String a (w ++ String "=" rest))
                 <= String.length (source L1)) by (apply reads_length in Hr; exact Hr).
  simpl in Hlen. rewrite length_append in Hlen. simpl in Hlen.
  pose proof (reads_tail _ _ _ _ Hr) as Hr1.
  fresh_get py_eval Hla Hskip Hin.
  rewrite H2, Hop1, (not_regexp _ _ Hslash), H3, H4, andb_false_r, H1.
  unfold lexOp. run. run.
  apply (sat_lexOp_loop_run w _ (str1 a) _ _ _ "="%char rest);
    [exact Hr1 | discriminate | exact Hop | exact Hlong | lia |].
  change (str1 a ++ w)%string with (String a w).
  run.
  apply sat_read_input_with with (ch := "="%char);
    [exact (reads_head _ _ _ _ (reads_app _ _ _ _ Hr1))|].
  rewrite Hassign. change (ch_eq "=" "=") with true. simpl andb. cbv iota.
  run. run. run. run. run. unfold operatorName. rewrite Hname. run. run.
  replace (cursor L1 + 1 + String.length w + 1)
    with (cursor L1 + String.length w + 2) by lia.
  finish_get.
Qed.

(** X9.  An operator that ends the source is not lexed: looking for a
    character that would extend it, [lexOp] reads past the end and [get]
    raises [IndexError]; the token is left without type. *)
Theorem get_operator_at_end_raises_IndexError L L1 a w :
  lookahead L = 0 ->
  skip L = (Ok tt, L1) ->
  input_ L1 = String a w ->
  is_operator (String a w) = true ->
  scanOperand L = false \/ a <> "/"%char ->
  get py_eval L
  = (Raise IndexError,
     with_token (started L1) (cursor L1 + S (String.length w)) L1).
Proof.
  intros Hla Hskip Hin Hop Hslash.
  destruct (skip_keeps _ _ _ Hskip) as ((_ & _ & _ & Hop1) & _).
  destruct (operator_head a w Hop) as (H1 & H2 & H3 & H4).
  pose proof (input_reads _ _ Hin) as Hr.
  assert (Hlen : String.length (String a w) <= String.length (source L1))
    by (apply reads_length in Hr; exact Hr).
  simpl in Hlen.
  pose proof (reads_tail _ _ _ _ Hr) as Hr1.
  fresh_get py_eval Hla Hskip Hin.
  rewrite H2, Hop1, (not_regexp _ _ Hslash), H3, H4, andb_false_r, H1.
  unfold lexOp. run. run.
  apply (sat_lexOp_loop_eof w _ (str1 a));
    [exact Hr1 | discriminate | exact Hop | lia |].
  split; [reflexivity|]. apply with_token_at. lia.
Qed.

(** X10.  The operator table is closed under prefixes, as the comment on
    it requires of a lexer that does not backtrack: the text read so far
    on the way to an operator is itself an operator. *)
Theorem operator_table_is_prefix_closed p s :
  is_operator (p ++ s) = true -> p <> EmptyString -> is_operator p = true.
Proof. exact (operator_prefix p s). Qed.

(** X11.  A character that starts no token.  Where [skip] stops on a
    character that is not a letter, a dollar, an underscore, a digit, a
    dot, a quote, an operator or a newline, [get] raises [ParseError]
    with the message [Illegal token: ] followed by the character, the
    file name and the current line; the character has been consumed and
    the token allocated for it has neither type nor end. *)
Theorem get_illegal_character L L1 ch rest :
  lookahead L = 0 ->
  skip L = (Ok tt, L1) ->
  input_ L1 = String ch rest ->
  is_ident_start ch = false ->
  is_digit ch = false ->
  is_operator (str1 ch) = false ->
  ch_eq ch "." = false ->
  ch_eq ch NL = false ->
  ch_eq ch DQUOTE || ch_eq ch "'" = false ->
  get py_eval L
  = (Raise (ParseError ("Illegal token: " ++ str1 ch) (filename L) (line L1)),
     with_token (started L1) (cursor L1 + 1) L1).
Proof.
  intros Hla Hskip Hin H1 H2 H3 H4 H5 H6.
  destruct (skip_keeps _ _ _ Hskip) as ((_ & Hfn & _ & _) & _).
  destruct (not_a_digit ch H2) as (H7 & H8).
  assert (Hsl : ch_eq ch "/" = false).
  { destruct (ch_eq ch "/") eqn:E; [|reflexivity].
    apply Ascii.eqb_eq in E. subst ch. discriminate H3. }
  fresh_get py_eval Hla Hskip Hin.
  rewrite H1, Hsl, andb_false_r, H4, H5, andb_false_r, H3, H7, H8, H6.
  apply sat_raise_ParseError.
  split; [|reflexivity]. do 2 f_equal. exact Hfn.
Qed.

End Tokens.

Lemma get_identifier_or_keyword_witness :
  get eval_text (Lexer_init "  while(x)" "lexer.js")
  = (Ok "while",
     with_token (mk_token "while" None 2 7 1) 7
       (set_cursor 2 (Lexer_init "  while(x)" "lexer.js"))).
Proof.
  exact (get_identifier_or_keyword eval_text
           (Lexer_init "  while(x)" "lexer.js")
           (set_cursor 2 (Lexer_init "  while(x)" "lexer.js"))
           "w" "hile" "(x)" eq_refl eq_refl eq_refl eq_refl eq_refl eq_refl).
Defined.

Lemma get_dot_witness :
  get eval_text (set_cursor 1 (Lexer_init "a.b" "lexer.js"))
  = (Ok "dot",
     with_token (mk_token "dot" None 1 2 1) 2
       (set_cursor 1 (Lexer_init "a.b" "lexer.js"))).
Proof.
  exact (get_dot eval_text (set_cursor 1 (Lexer_init "a.b" "lexer.js"))
           (set_cursor 1 (Lexer_init "a.b" "lexer.js"))
           "b" "" eq_refl eq_refl eq_refl eq_refl).
Defined.

Lemma get_newline_witness :
  get eval_text (set_scanNewlines true (Lexer_init newline_x "lexer.js"))
  = (Ok "newline",
     with_token (mk_token "newline" None 0 1 1) 1
       (set_line 2 (set_scanNewlines true (Lexer_init newline_x "lexer.js")))).
Proof.
  exact (get_newline eval_text
           (set_scanNewlines true (Lexer_init newline_x "lexer.js"))
           (set_scanNewlines true (Lexer_init newline_x "lexer.js"))
           "x" eq_refl eq_refl eq_refl eq_refl).
Defined.

Lemma get_string_without_escapes_witness :
  get eval_text (Lexer_init "'a b'" "lexer.js")
  = (Ok "string",
     with_token (mk_token "string" (Some (VStr "a b")) 0 5 1) 5
       (Lexer_init "'a b'" "lexer.js")).
Proof.
  exact (get_string_without_escapes eval_text
           (Lexer_init "'a b'" "lexer.js") (Lexer_init "'a b'" "lexer.js")
           "'" "a b" "" eq_refl eq_refl eq_refl (or_intror eq_refl) eq_refl).
Defined.

Lemma get_decimal_integer_witness :
  exists z,
    py_int "42" = Some z /\
    get eval_text (Lexer_init "42;" "lexer.js")
    = (Ok "number",
       with_token (mk_token "number" (Some (VInt z)) 0 2 1) 2
         (Lexer_init "42;" "lexer.js")).
Proof.
  apply (get_decimal_integer eval_text
           (Lexer_init "42;" "lexer.js") (Lexer_init "42;" "lexer.js")
           "4" "2" ";" ""); reflexivity.
Defined.

Lemma get_integer_at_end_raises_IndexError_witness :
  get eval_text (Lexer_init "42" "lexer.js")
  = (Raise IndexError,
     with_token (with_type "number" (started (Lexer_init "42" "lexer.js"))) 2
       (Lexer_init "42" "lexer.js")).
Proof.
  exact (get_integer_at_end_raises_IndexError eval_text
           (Lexer_init "42" "lexer.js") (Lexer_init "42" "lexer.js")
           "4" "2" eq_refl eq_refl eq_refl eq_refl eq_refl).
Defined.

Lemma get_operator_witness :
  get eval_text (Lexer_init ">>> 1" "lexer.js")
  = (Ok "ursh",
     with_token (op_token "ursh" None 0 3 1) 3 (Lexer_init ">>> 1" "lexer.js")).
Proof.
  apply (get_operator eval_text
           (Lexer_init ">>> 1" "lexer.js") (Lexer_init ">>> 1" "lexer.js")
           ">" ">>" " " "1" "ursh");
    try reflexivity. right. discriminate.
Defined.

Lemma get_compound_assignment_witness :
  exists name,
    assoc "<<" operatorNames = Some name /\
    get eval_text (Lexer_init "<<=" "lexer.js")
    = (Ok "assign",
       with_token (op_token "assign" (Some name) 0 3 1) 3
         (Lexer_init "<<=" "lexer.js")).
Proof.
  apply (get_compound_assignment eval_text
           (Lexer_init "<<=" "lexer.js") (Lexer_init "<<=" "lexer.js")
           "<" "<" "");
    try reflexivity. right. discriminate.
Defined.

Lemma get_operator_at_end_raises_IndexError_witness :
  get eval_text (set_cursor 1 (Lexer_init "x;" "lexer.js"))
  = (Raise IndexError,
     with_token (started (set_cursor 1 (Lexer_init "x;" "lexer.js"))) 2
       (set_cursor 1 (Lexer_init "x;" "lexer.js"))).
Proof.
  apply (get_operator_at_end_raises_IndexError eval_text
           (set_cursor 1 (Lexer_init "x;" "lexer.js"))
           (set_cursor 1 (Lexer_init "x;" "lexer.js"))
           ";" "");
    try reflexivity. right. discriminate.
Defined.

Lemma operator_table_is_prefix_closed_witness :
  is_operator "!=" = true.
Proof.
  apply (operator_table_is_prefix_closed "!=" "="); [reflexivity | discriminate].
Defined.

Lemma get_illegal_character_witness :
  get eval_text (Lexer_init " #x" "lexer.js")
  = (Raise (ParseError "Illegal token: #" "lexer.js" 1),
     with_token (started (set_cursor 1 (Lexer_init " #x" "lexer.js"))) 2
       (set_cursor 1 (Lexer_init " #x" "lexer.js"))).
Proof.
  exact (get_illegal_character eval_text
           (Lexer_init " #x" "lexer.js")
           (set_cursor 1 (Lexer_init " #x" "lexer.js"))
           "#" "x" eq_refl eq_refl eq_refl eq_refl eq_refl eq_refl eq_refl
           eq_refl eq_refl).
Defined.

(** ** Where [skip] stops *)

Lemma sat_any {A} (m : M A) L (Q : Res A -> Lexer -> Prop) :
  (forall r L', Q r L') -> sat m L Q.
Proof. intros H. apply H. Qed.

(** When the loop on a line comment returns from [skip], the source has
    ended. *)
Lemma skip_line_comment_end fuel : forall L,
  sat (skip_line_comment fuel) L
      (fun r L' => r = Ok false -> String.get (cursor L') (source L') = None).
Proof.
  induction fuel as [|fuel IH]; intros L; [intros H; discriminate H|].
  simpl. apply sat_bind, sat_try. repeat step.
  - intros H1. discriminate H1.
  - apply IH.
  - intros _. apply get_ge_None. assumption.
Qed.

Lemma skip_loop_stops fuel : forall L,
  sat (skip_loop fuel) L (fun r L' => r = Ok tt -> nothing_to_skip L' = true).
Proof.
  induction fuel as [|fuel IH]; intros L; [intros H; discriminate H|].
  simpl. step. step.
  destruct (String.get (cursor L) (source L)) as [ch|] eqn:E.
  2: { step. intros _. unfold nothing_to_skip. rewrite E. reflexivity. }
  repeat step.
  all: try (lazymatch goal with |- sat (skip_loop _) _ _ => apply IH end).
  - apply sat_any. intros [a|e|] L1; [apply IH | discriminate | discriminate].
  - eapply sat_conseq; [apply skip_line_comment_end|].
    intros [[|]|e|] L1 Hend; [apply IH | | discriminate | discriminate].
    step. intros _. unfold nothing_to_skip. rewrite (Hend eq_refl). reflexivity.
  - intros _. unfold nothing_to_skip, skipped.
    cbn [cursor source scanNewlines set_cursor] in *.
    replace (cursor L + 1 - 1) with (cursor L) by lia. rewrite E.
    destruct (ch_eq ch " "), (ch_eq ch TAB), (ch_eq ch NL), (scanNewlines L),
      (ch_eq ch "/"),
      (opt_is (String.get (cursor L + 1) (source L)) "*"),
      (opt_is (String.get (cursor L + 1) (source L)) "/");
      simpl in *; congruence.
Qed.

(** X12.  When [skip] returns, nothing is left to skip: the cursor stands
    at the end of the source, or on a character that is not a space or a
    tab, not a newline (unless [scanNewlines] is set), and not the opener
    of a comment. *)
Theorem skip_stops_where_nothing_is_left L L' :
  skip L = (Ok tt, L') -> nothing_to_skip L' = true.
Proof.
  intros H. pose proof (skip_loop_stops (fuel_of L) L) as HS.
  unfold sat in HS. unfold skip, with_fuel in H. rewrite H in HS.
  exact (HS eq_refl).
Qed.

Lemma skip_stops_where_nothing_is_left_witness :
  nothing_to_skip
    (set_line 2 (set_cursor 17
       (Lexer_init ("  /* a */ // b" ++ String NL "  x") "lexer.js"))) = true.
Proof.
  apply (skip_stops_where_nothing_is_left
           (Lexer_init ("  /* a */ // b" ++ String NL "  x") "lexer.js")).
  vm_compute. reflexivity.
Defined.

(** ** The lines [skip] counts *)

Lemma count_nl_substring_step s : forall a n ch,
  String.get (a + n) s = Some ch ->
  count_nl (substring a (S n) s)
  = count_nl (substring a n s) + (if ch_eq ch NL then 1 else 0).
Proof.
  induction s as [|x s IH]; intros a n ch H; [destruct (a + n); discriminate H|].
  destruct a as [|a].
  - destruct n as [|n].
    + simpl in H. injection H as ->. simpl.
      destruct s; simpl; lia.
    + simpl in H. simpl. rewrite (IH 0 n ch H).
      destruct n; simpl; lia.
  - simpl in H. simpl. apply IH. exact H.
Qed.

Lemma counted_refl L : counted L L.
Proof.
  unfold counted, slice. rewrite Nat.sub_diag.
  repeat split; try lia.
  replace (substring (cursor L) 0 (source L)) with EmptyString; [simpl; lia|].
  generalize (cursor L). induction (source L) as [|x s IH]; intros [|c];
    simpl; try reflexivity. apply IH.
Qed.

Lemma counted_advance L0 L ch :
  counted L0 L -> String.get (cursor L) (source L) = Some ch ->
  ch_eq ch NL = false ->
  counted L0 (set_cursor (cursor L + 1) L).
Proof.
  intros (Hs & Hc & Hl) Hget Hnl. unfold counted, slice in *. simpl.
  repeat split; [exact Hs | lia |].
  replace (cursor L + 1 - cursor L0) with (S (cursor L - cursor L0)) by lia.
  rewrite (count_nl_substring_step _ _ _ ch), Hnl; [lia|].
  rewrite <- Hs. rewrite <- Hget. f_equal. lia.
Qed.

Lemma counted_newline L0 L ch :
  counted L0 L -> String.get (cursor L) (source L) = Some ch ->
  ch_eq ch NL = true ->
  counted L0 (set_line (line (set_cursor (cursor L + 1) L) + 1)
                (set_cursor (cursor L + 1) L)).
Proof.
  intros (Hs & Hc & Hl) Hget Hnl. unfold counted, slice in *. simpl.
  repeat split; [exact Hs | lia |].
  replace (cursor L + 1 - cursor L0) with (S (cursor L - cursor L0)) by lia.
  rewrite (count_nl_substring_step _ _ _ ch), Hnl; [lia|].
  rewrite <- Hs. rewrite <- Hget. f_equal. lia.
Qed.

Lemma counted_retreat L0 L :
  counted L0 L ->
  counted L0 (set_cursor (cursor (set_cursor (cursor L + 1) L) - 1)
                (set_cursor (cursor L + 1) L)).
Proof.
  intros (Hs & Hc & Hl). unfold counted. simpl.
  replace (cursor L + 1 - 1) with (cursor L) by lia. repeat split; assumption.
Qed.

Lemma star_not_newline ch : ch_eq ch "*" = true -> ch_eq ch NL = false.
Proof. intros H. apply Ascii.eqb_eq in H. subst ch. reflexivity. Qed.

Lemma slash_not_newline ch : ch_eq ch "/" = true -> ch_eq ch NL = false.
Proof. intros H. apply Ascii.eqb_eq in H. subst ch. reflexivity. Qed.

Lemma blank_not_newline ch :
  negb (ch_eq ch " ") && negb (ch_eq ch TAB) = false -> ch_eq ch NL = false.
Proof.
  intros H. apply andb_false_iff in H.
  destruct H as [H|H]; apply negb_false_iff, Ascii.eqb_eq in H; subst ch;
    reflexivity.
Qed.

Lemma opt_is_true o ch :
  opt_is o ch = true -> exists c, o = Some c /\ ch_eq c ch = true.
Proof. destruct o as [c|]; [intros H; exists c; auto | discriminate]. Qed.

(** Carry [counted] over a step, then on by the induction hypothesis. *)
Ltac counted_by IH :=
  lazymatch goal with
  | |- sat _ _ _ =>
      eapply sat_conseq; [apply IH|];
      let HI := fresh "HI" in
      intros ? ? HI ? ?; apply HI
  | |- _ => intros ? ?
  end.

Ltac counted_step :=
  first
    [ assumption
    | eapply counted_retreat; counted_step
    | eapply counted_newline;
        [counted_step | eassumption | eassumption]
    | eapply counted_advance;
        [counted_step | eassumption
         | first [ eassumption
                 | apply star_not_newline; eassumption
                 | apply slash_not_newline; eassumption ] ] ].

Lemma skip_block_comment_counts fuel : forall L,
  sat (skip_block_comment fuel) L
      (fun _ L' => forall L0, counted L0 L -> counted L0 L').
Proof.
  induction fuel as [|fuel IH]; intros L; [intros L0 H; exact H|].
  simpl. repeat step; counted_by IH; counted_step.
Qed.

Lemma skip_line_comment_counts fuel : forall L,
  sat (skip_line_comment fuel) L
      (fun _ L' => forall L0, counted L0 L -> counted L0 L').
Proof.
  induction fuel as [|fuel IH]; intros L; [intros L0 H; exact H|].
  simpl. apply sat_bind, sat_try. repeat step; counted_by IH; counted_step.
Qed.

Lemma skip_loop_counts fuel : forall L,
  sat (skip_loop fuel) L
      (fun _ L' => forall L0, counted L0 L -> counted L0 L').
Proof.
  induction fuel as [|fuel IH]; intros L; [intros L0 H; exact H|].
  simpl. step. step.
  destruct (String.get (cursor L) (source L)) as [ch|] eqn:E.
  2: { step. intros L0 H; exact H. }
  repeat step.
  - apply andb_prop in Heqb. destruct Heqb as [Hnl _].
    counted_by IH. counted_step.
  - apply andb_prop in Heqb0. destruct Heqb0 as [Hsl Hst].
    apply opt_is_true in Hst. destruct Hst as (c & Hc & Hst).
    eapply sat_conseq; [apply skip_block_comment_counts|].
    intros [[]|e|] L1 HB.
    + counted_by IH. apply HB. counted_step.
    + intros L0 HC. apply HB. counted_step.
    + intros L0 HC. apply HB. counted_step.
  - apply andb_prop in Heqb1. destruct Heqb1 as [Hsl Hst].
    apply opt_is_true in Hst. destruct Hst as (c & Hc & Hst).
    eapply sat_conseq; [apply skip_line_comment_counts|].
    intros [[|]|e|] L1 HB.
    + counted_by IH. apply HB. counted_step.
    + step. intros L0 HC. apply HB. counted_step.
    + intros L0 HC. apply HB. counted_step.
    + intros L0 HC. apply HB. counted_step.
  - intros L0 HC. counted_step.
  - pose proof (blank_not_newline _ Heqb2) as Hnl.
    counted_by IH. counted_step.
Qed.

(** X13.  [skip] counts every newline it passes: whether it returns or
    raises, the line count has gone up by the number of newline
    characters between the cursor before and the cursor after, those of
    comments included; the cursor has not moved back. *)
Theorem skip_counts_the_newlines_it_passes L r L' :
  skip L = (r, L') ->
  cursor L <= cursor L' /\
  line L' = line L + count_nl (slice (source L) (cursor L) (cursor L')).
Proof.
  intros H. pose proof (skip_loop_counts (fuel_of L) L) as HS.
  unfold sat in HS. unfold skip, with_fuel in H. rewrite H in HS.
  destruct (HS L (counted_refl L)) as (_ & Hc & Hl). split; assumption.
Qed.

Lemma skip_counts_the_newlines_it_passes_witness :
  let L := Lexer_init ("/* a" ++ String NL "b */" ++ String NL "x") "lexer.js" in
  cursor L <= 10 /\ 3 = line L + count_nl (slice (source L) (cursor L) 10).
Proof.
  intros L.
  apply (skip_counts_the_newlines_it_passes L (Ok tt)
           (set_line 3 (set_cursor 10 L))).
  vm_compute. reflexivity.
Defined.

(** ** The token type [newline] *)

Lemma keyword_not_newline s : str_in s keywords = true -> s <> "newline".
Proof. intros H ->. vm_compute in H. discriminate H. Qed.

Lemma operator_not_newline op name :
  assoc op operatorNames = Some name -> name <> "newline".
Proof.
  intros H ->. apply assoc_In in H. simpl in H.
  repeat (destruct H as [H|H]; [discriminate H|]). exact H.
Qed.

Ltac worded_done :=
  unfold worded; try exact I;
  autorewrite with lexer in *;
  repeat match goal with
         | H : kept _ _ _ |- _ => apply cur_type_kept in H
         end;
  autorewrite with lexer in *;
  repeat match goal with
         | H : cur_type ?a = cur_type ?b |- _ => rewrite H in *; clear H
         end;
  match goal with
  | H : cur_type _ = Some ?ty |- _ =>
      exists ty; split;
      [ exact H
      | first [ discriminate
              | eauto using keyword_not_newline, operator_not_newline ] ]
  end.

Ltac worded_auto := repeat first [ solve [worded_done] | stepT | callK ].

Lemma lexZeroNumber_worded ch L : sat (lexZeroNumber ch) L worded.
Proof. unfold lexZeroNumber. worded_auto. Qed.

Lemma lexNumber_worded ch L : sat (lexNumber ch) L worded.
Proof. unfold lexNumber. worded_auto. Qed.

Lemma lexDot_worded ch L : sat (lexDot ch) L worded.
Proof. unfold lexDot. worded_auto. Qed.

Lemma lexOp_worded ch L : sat (lexOp ch) L worded.
Proof. unfold lexOp. worded_auto. Qed.

Lemma lexIdent_worded ch L : sat (lexIdent ch) L worded.
Proof.
  unfold lexIdent. apply sat_bind, sat_try. step.
  callT scan_while_kept; [worded_auto|].
  match goal with e : Exn |- _ => destruct e end; worded_auto.
Qed.

Lemma sat_read_type L (Q : Res string -> Lexer -> Prop) :
  (forall ty, cur_type L = Some ty -> Q (Ok ty) L) ->
  Q (Raise (AttributeError "type")) L ->
  sat (read_token "type" t_type) L Q.
Proof.
  intros Hs Hn. unfold sat, read_token, cur_type in *.
  destruct (tokens L !! tokenIndex L) as [t|]; [|exact Hn].
  destruct (t_type t) as [ty|]; [apply Hs; reflexivity | exact Hn].
Qed.

Section Ring.

Variable py_eval : string -> Exn + Value.

Lemma lexString_worded ch L : sat (lexString py_eval ch) L worded.
Proof.
  unfold lexString, set_eval_value. worded_auto.
  destruct (py_eval _); worded_auto.
Qed.

Lemma lexRegExp_worded ch L : sat (lexRegExp py_eval ch) L worded.
Proof.
  unfold lexRegExp, set_eval_value. worded_auto.
  destruct (py_eval _); worded_auto.
Qed.

(** The dispatch gives the type [newline] only in its own branch, which
    [scanNewlines] guards. *)
Lemma get_dispatch_newline ch L :
  sat (get_dispatch py_eval ch) L
      (fun r L' =>
         match r with
         | Ok _ => exists ty, cur_type L' = Some ty /\
                              (ty = "newline" -> scanNewlines L = true)
         | _ => True
         end).
Proof.
  assert (W : forall (m : M unit),
             sat m L worded ->
             sat m L (fun r L' =>
                        match r with
                        | Ok _ => exists ty, cur_type L' = Some ty /\
                                    (ty = "newline" -> scanNewlines L = true)
                        | _ => True
                        end)).
  { intros m H. eapply sat_conseq; [exact H|].
    intros [[]|e|] L' HW; try exact I.
    destruct HW as (ty & Hty & Hne). exists ty. split; [exact Hty|].
    intros E. contradiction. }
  unfold get_dispatch. step. step.
  destruct (is_ident_start ch); [apply W, lexIdent_worded|].
  destruct (scanOperand L && ch_eq ch "/"); [apply W, lexRegExp_worded|].
  destruct (ch_eq ch "."); [apply W, lexDot_worded|].
  destruct (scanNewlines L && ch_eq ch NL) eqn:Enl.
  { apply andb_prop in Enl. destruct Enl as [Enl _].
    step. stepT; [|exact I]. step.
    exists "newline". split; [|intros _; exact Enl].
    autorewrite with lexer. assumption. }
  destruct (is_operator (str1 ch)); [apply W, lexOp_worded|].
  destruct (between "1" "9" ch); [apply W, lexNumber_worded|].
  destruct (ch_eq ch "0"); [apply W, lexZeroNumber_worded|].
  destruct (ch_eq ch DQUOTE || ch_eq ch "'"); [apply W, lexString_worded|].
  step. exact I.
Qed.

(** The loop on the lookahead returns [newline] only when
    [scanNewlines] is set, and keeps the flag. *)
Lemma get_replay_newline n : forall L,
  sat (get_replay n) L
      (fun r L' => scanNewlines L' = scanNewlines L /\
                   (r = Ok (Some "newline") -> scanNewlines L = true)).
Proof.
  induction n as [|n IH]; intros L; simpl.
  - step. split; [reflexivity | discriminate].
  - do 6 step. cbn [tokens tokenIndex set_tokenIndex set_lookahead scanNewlines].
    destruct (_ !! _) as [tok|]; [|step; split; [reflexivity | discriminate]].
    destruct (t_type tok) as [ty|]; [|step; split; [reflexivity | discriminate]].
    destruct (negb (String.eqb ty "newline")) eqn:Ety; simpl orb; cbv iota.
    + step. split; [reflexivity|]. intros E. injection E as ->. discriminate Ety.
    + destruct (scanNewlines L) eqn:Enl; cbv iota.
      * step. split; [exact Enl | reflexivity].
      * eapply sat_conseq; [apply IH|]. intros r L' [H1 H2].
        cbn [scanNewlines set_tokenIndex set_lookahead] in H1, H2.
        split; [congruence|]. intros E. rewrite <- Enl. apply H2, E.
Qed.

Lemma get_scan_newline L :
  sat (get_scan py_eval) L
      (fun r _ => r = Ok "newline" -> scanNewlines L = true).
Proof.
  unfold get_scan. step.
  eapply sat_conseq; [apply skip_spec | intros r L1 HM].
  pose proof (moves_inv _ _ _ HM) as ((_ & _ & Hnl & _) & _).
  destruct r as [[]|e|]; [ | discriminate | discriminate ].
  do 6 step. cbn [set_tokens set_tokenIndex cursor source tokens tokenIndex line].
  destruct (cursor L1 =? String.length (source L1)) eqn:Ecur.
  - step. eapply sat_upd_token_at; [simpl; apply lookup_insert_eq|].
    eapply sat_read_token_at; [simpl; apply lookup_insert_eq|]. simpl.
    discriminate.
  - step. eapply sat_upd_token_at; [simpl; apply lookup_insert_eq|].
    step. eapply sat_upd_token_at; [simpl; apply lookup_insert_eq|].
    step. step; [|discriminate].
    step. eapply sat_conseq; [apply get_dispatch_newline|].
    intros r L4 H4. destruct r as [[]|e|]; [|discriminate|discriminate].
    destruct H4 as (ty & Hty & Himp). simpl in Himp.
    step. step. step. stepT; [|discriminate].
    apply sat_read_type; [|discriminate].
    intros ty' Hty' E. injection E as ->.
    rewrite <- Hnl. apply Himp. congruence.
Qed.

Lemma get_newline_flag L L' :
  get py_eval L = (Ok "newline", L') -> scanNewlines L = true.
Proof.
  intros H.
  assert (HS : sat (get py_eval) L
                 (fun r _ => r = Ok "newline" -> scanNewlines L = true)).
  { unfold get. step. step. step.
    eapply sat_conseq; [apply get_replay_newline|].
    intros [[ty|]|e|] L1 [Hnl Himp]; try discriminate.
    - step. intros E. injection E as ->. apply Himp. reflexivity.
    - eapply sat_conseq; [apply get_scan_newline|].
      intros r L2 H2 E. rewrite <- Hnl. apply H2, E. }
  unfold sat in HS. rewrite H in HS. exact (HS eq_refl).
Qed.

(** X14.  [get] returns [newline] only when [scanNewlines] is set:
    with the flag cleared a newline of the source is skipped, a buffered
    newline token is passed over, and no lexer gives that type to a
    token. *)
Theorem get_returns_newline_only_when_scanning_newlines L L' :
  get py_eval L = (Ok "newline", L') -> scanNewlines L = true.
Proof. exact (get_newline_flag L L'). Qed.

(** ** Looking ahead *)

(** After a [get] that returned, [unget] succeeds and the next [get]
    gives the same token and the same state again. *)
Lemma get_then_unget L ty L1 :
  lookahead L < 4 ->
  get py_eval L = (Ok ty, L1) ->
  exists tok L2,
    tokens L1 !! tokenIndex L1 = Some tok /\ t_type tok = Some ty /\
    unget L1 = (Ok tt, L2) /\ get py_eval L2 = (Ok ty, L1) /\
    L2 = set_tokenIndex (prev_slot (tokenIndex L1))
           (set_lookahead (lookahead L1 + 1) L1) /\
    filename L1 = filename L.
Proof.
  intros Hla Hget.
  pose proof (get_spec py_eval L) as HG. unfold sat in HG.
  rewrite Hget in HG. simpl in HG.
  destruct HG as ((Hsrc & Hfn & Hnl & Hop) & Hc & Hl & Hla1 & Hla2 & Hti
                  & tok & E & Ety & _).
  assert (Hnl' : ty <> "newline" \/ scanNewlines L1 = true).
  { destruct (String.eqb_spec ty "newline") as [->|Hne];
      [right | left; exact Hne].
    rewrite Hnl. exact (get_newline_flag _ _ Hget). }
  assert (Hla3 : lookahead L1 < 3) by lia.
  destruct (unget_get_restores py_eval L1 tok ty Hti Hla3 E Ety Hnl')
    as (L2 & Hu & Hg).
  exists tok, L2. repeat split; try assumption.
  rewrite unget_eq in Hu. destruct (lookahead L1 + 1 =? 4); [discriminate|].
  injection Hu as <-. reflexivity.
Qed.

(** X15.  [match] consumes the next token only when it has the type
    asked for.  Otherwise it returns false having pushed the token back:
    cursor and line stay where the lookahead left them, and the next
    [get] returns the same token and reaches the same state as the [get]
    inside [match] did. *)
Theorem match_consumes_only_a_matching_token L t ty L1 :
  lookahead L < 4 ->
  get py_eval L = (Ok ty, L1) ->
  if String.eqb ty t
  then match_ py_eval t L = (Ok true, L1)
  else exists L2, match_ py_eval t L = (Ok false, L2) /\
                  cursor L2 = cursor L1 /\ line L2 = line L1 /\
                  get py_eval L2 = (Ok ty, L1).
Proof.
  intros Hla Hget.
  destruct (get_then_unget L ty L1 Hla Hget)
    as (tok & L2 & _ & _ & Hu & Hg & HL2 & _).
  unfold match_, bind. rewrite Hget.
  destruct (String.eqb ty t); [reflexivity|].
  exists L2. rewrite Hu. repeat split; try assumption; subst L2; reflexivity.
Qed.

(** X16.  [mustMatch] returns the token just read when it has the type
    asked for; otherwise it pushes the token back and raises
    [ParseError] with the message [Missing ] followed by that type, the
    file name, and the line the lexer has reached by reading the token
    it found instead. *)
Theorem mustMatch_returns_the_token_or_raises L t ty L1 :
  lookahead L < 4 ->
  get py_eval L = (Ok ty, L1) ->
  if String.eqb ty t
  then exists tok, mustMatch py_eval t L = (Ok (Some tok), L1) /\
                   t_type tok = Some t
  else exists L2, mustMatch py_eval t L
                  = (Raise (ParseError ("Missing " ++ t) (filename L) (line L1)),
                     L2) /\
                  cursor L2 = cursor L1 /\ lookahead L2 = lookahead L1 + 1.
Proof.
  intros Hla Hget.
  destruct (get_then_unget L ty L1 Hla Hget)
    as (tok & L2 & E & Ety & Hu & Hg & HL2 & Hfn).
  unfold mustMatch, match_, bind. rewrite Hget.
  destruct (String.eqb_spec ty t) as [->|Hne].
  - exists tok. unfold ret, self, token. simpl. rewrite E.
    split; [reflexivity | exact Ety].
  - exists L2. rewrite Hu. unfold ret, raise_ParseError. simpl.
    repeat split; subst L2; simpl; rewrite ?Hfn; reflexivity.
Qed.

(** X17.  With no lookahead, [peek] returns the type of the token the
    next [get] returns, [done] tells whether that type is [end], and the
    [get] that follows reaches the state the lookahead had reached. *)
Theorem peek_announces_the_next_token L ty L1 :
  lookahead L = 0 ->
  get py_eval L = (Ok ty, L1) ->
  exists L2,
    peek py_eval L = (Ok (Some ty), L2) /\
    done_ py_eval L = (Ok (bool_decide (Some ty = Some "end")), L2) /\
    get py_eval L2 = (Ok ty, L1).
Proof.
  intros Hla Hget.
  assert (Hla4 : lookahead L < 4) by lia.
  destruct (get_then_unget L ty L1 Hla4 Hget)
    as (tok & L2 & _ & _ & Hu & Hg & _ & _).
  assert (Hpeek : peek py_eval L = (Ok (Some ty), L2)).
  { unfold peek. unfold bind at 1, self. rewrite Hla.
    change (negb (0 =? 0)) with false. cbv beta iota.
    unfold bind. rewrite Hget, Hu. reflexivity. }
  exists L2. split; [exact Hpeek|]. split; [|exact Hg].
  unfold done_, bind. rewrite Hpeek. reflexivity.
Qed.

(** X18.  The ring never overflows unnoticed: in every state the parser
    can reach, at most three tokens are pushed back and [tokenIndex] is
    one of the four slots; [unget] then succeeds exactly when fewer than
    three tokens are pushed back. *)
Theorem reachable_lookahead_is_bounded L :
  reachable py_eval L ->
  lookahead L <= 3 /\ (0 <= tokenIndex L < 4)%Z /\
  (fst (unget L) = Ok tt <-> lookahead L < 3).
Proof.
  intros HR. destruct (reachable_inv py_eval L HR) as (Hti & Hla & _).
  split; [lia|]. split; [exact Hti|].
  rewrite unget_eq.
  destruct (lookahead L + 1 =? 4) eqn:E; simpl.
  - apply Nat.eqb_eq in E. split; [discriminate | lia].
  - apply Nat.eqb_neq in E. split; [lia | reflexivity].
Qed.

(** ** The end of the source *)

Lemma skip_at_end L :
  String.get (cursor L) (source L) = None -> skip L = (Ok tt, L).
Proof.
  intros H. unfold skip, with_fuel, fuel_of. simpl skip_loop.
  unfold bind, self. rewrite H. reflexivity.
Qed.

(** X19.  At the end of the source [get] returns [end] for ever: with no
    lookahead and the cursor at the end, every further [get] returns
    [end] and leaves cursor and line where they are. *)
Theorem get_at_end_returns_end_for_ever L n :
  lookahead L = 0 ->
  cursor L = String.length (source L) ->
  let Ln := Nat.iter n (fun L0 => snd (get py_eval L0)) L in
  fst (get py_eval Ln) = Ok "end" /\
  cursor Ln = cursor L /\ line Ln = line L.
Proof.
  intros Hla Hc Ln.
  assert (Hend : forall L0, lookahead L0 = 0 ->
                   cursor L0 = String.length (source L0) ->
                   get py_eval L0
                   = (Ok "end", with_token (with_type "end" new_Token)
                                  (cursor L0) L0)).
  { intros L0 H0 Hc0. apply get_fresh_end; [exact H0 | | exact Hc0].
    apply skip_at_end. apply get_ge_None. lia. }
  assert (HI : lookahead Ln = 0 /\ source Ln = source L /\
               cursor Ln = cursor L /\ line Ln = line L).
  { subst Ln. induction n as [|n IH]; [simpl; auto|].
    destruct IH as (H1 & H2 & H3 & H4). simpl Nat.iter.
    rewrite Hend by congruence. simpl. repeat split; assumption. }
  destruct HI as (H1 & H2 & H3 & H4).
  rewrite Hend by congruence. repeat split; assumption.
Qed.

(** X20.  [unget] on a lexer that has read nothing pushes back a token
    that does not exist: after one, two or three such calls, [get] finds
    the slot of the ring empty and raises [KeyError]. *)
Theorem get_after_unget_on_fresh_lexer_raises_KeyError src fname n :
  0 < n < 4 ->
  fst (ungets n (Lexer_init src fname)) = Ok tt /\
  fst (get py_eval (snd (ungets n (Lexer_init src fname)))) = Raise KeyError.
Proof.
  intros Hn.
  destruct n as [|[|[|[|n]]]]; try lia; split; reflexivity.
Qed.

End Ring.

Lemma get_returns_newline_only_when_scanning_newlines_witness :
  scanNewlines (set_scanNewlines true (Lexer_init newline_x "lexer.js")) = true.
Proof.
  apply (get_returns_newline_only_when_scanning_newlines eval_text
           (set_scanNewlines true (Lexer_init newline_x "lexer.js"))
           (snd (get eval_text
                   (set_scanNewlines true (Lexer_init newline_x "lexer.js"))))).
  vm_compute. reflexivity.
Defined.

Lemma match_consumes_only_a_matching_token_witness :
  let L := Lexer_init "a b" "lexer.js" in
  exists L2, match_ eval_text "while" L = (Ok false, L2) /\
             cursor L2 = cursor (snd (get eval_text L)) /\
             line L2 = line (snd (get eval_text L)) /\
             get eval_text L2 = (Ok "identifier", snd (get eval_text L)).
Proof.
  intros L.
  apply (match_consumes_only_a_matching_token eval_text L "while" "identifier"
           (snd (get eval_text L))).
  - simpl. lia.
  - vm_compute. reflexivity.
Defined.

Lemma mustMatch_returns_the_token_or_raises_witness :
  let L := Lexer_init ("a" ++ String NL "b") "lexer.js" in
  exists L2, mustMatch eval_text "while" L
             = (Raise (ParseError ("Missing " ++ "while") (filename L)
                         (line (snd (get eval_text L)))), L2) /\
             cursor L2 = cursor (snd (get eval_text L)) /\
             lookahead L2 = lookahead (snd (get eval_text L)) + 1.
Proof.
  intros L.
  apply (mustMatch_returns_the_token_or_raises eval_text L "while" "identifier"
           (snd (get eval_text L))).
  - simpl. lia.
  - vm_compute. reflexivity.
Defined.

Lemma peek_announces_the_next_token_witness :
  let L := Lexer_init "a b" "lexer.js" in
  exists L2,
    peek eval_text L = (Ok (Some "identifier"), L2) /\
    done_ eval_text L
    = (Ok (bool_decide (Some "identifier" = Some "end")), L2) /\
    get eval_text L2 = (Ok "identifier", snd (get eval_text L)).
Proof.
  intros L.
  apply (peek_announces_the_next_token eval_text L "identifier"
           (snd (get eval_text L))).
  - reflexivity.
  - vm_compute. reflexivity.
Defined.

Lemma reachable_lookahead_is_bounded_witness :
  let L := Lexer_init "a b" "lexer.js" in
  lookahead L <= 3 /\ (0 <= tokenIndex L < 4)%Z /\
  (fst (unget L) = Ok tt <-> lookahead L < 3).
Proof.
  intros L. apply (reachable_lookahead_is_bounded eval_text L).
  apply reach_init.
Defined.

Lemma get_at_end_returns_end_for_ever_witness :
  let L := set_cursor 1 (Lexer_init "a" "lexer.js") in
  let Ln := Nat.iter 5 (fun L0 => snd (get eval_text L0)) L in
  fst (get eval_text Ln) = Ok "end" /\
  cursor Ln = cursor L /\ line Ln = line L.
Proof.
  intros L.
  apply (get_at_end_returns_end_for_ever eval_text L 5); reflexivity.
Defined.

Lemma get_after_unget_on_fresh_lexer_raises_KeyError_witness :
  fst (ungets 2 (Lexer_init "a b" "lexer.js")) = Ok tt /\
  fst (get eval_text (snd (ungets 2 (Lexer_init "a b" "lexer.js"))))
  = Raise KeyError.
Proof.
  apply (get_after_unget_on_fresh_lexer_raises_KeyError eval_text
           "a b" "lexer.js" 2).
  lia.
Defined.

(** * Unterminated block comments, after anything [skip] passes over *)

Lemma count_nl_app s t : count_nl (s ++ t) = count_nl s + count_nl t.
Proof.
  induction s as [|a s IH]; [reflexivity|].
  change (count_nl (String a (s ++ t)) = count_nl (String a s) + count_nl t).
  simpl. rewrite IH. lia.
Qed.

Lemma read_input_Some L ch :
  String.get (cursor L) (source L) = Some ch -> read_input L = (Ok ch, L).
Proof. intros H. unfold read_input. rewrite H. reflexivity. Qed.

(** The loop on a block comment, over a text in which no star is followed
    by a slash, then the closing star and slash. *)
Lemma skip_block_comment_closes rest : forall body fuel L,
  reads (source L) (cursor L) (body ++ String "*" (String "/" rest)) ->
  no_close body = true ->
  String.length body < fuel ->
  sat (skip_block_comment fuel) L
      (fun r L' => r = Ok tt /\
                   cursor L' = cursor L + String.length body + 2).
Proof.
  induction body as [|a body IH]; intros fuel L Hr Hnc Hf;
    (destruct fuel as [|fuel]; [simpl in Hf; lia|]);
    simpl skip_block_comment; step;
    (eapply sat_known;
     [apply try_next_char_Some; exact (reads_head _ _ _ _ Hr)|]);
    cbv beta iota.
  - pose proof (reads_tail _ _ _ _ Hr) as Hr1.
    change (ch_eq "*" "*") with true. cbv iota. step.
    eapply sat_known;
      [apply read_input_Some; exact (reads_head _ _ _ _ Hr1)|].
    cbv beta iota. change (ch_eq "/" "/") with true. cbv iota.
    step. split; [reflexivity | simpl; lia].
  - change (reads (source L) (cursor L)
              (String a (body ++ String "*" (String "/" rest)))) in Hr.
    pose proof (reads_tail _ _ _ _ Hr) as Hr1.
    simpl in Hnc. apply andb_prop in Hnc. destruct Hnc as [Ha Hnc].
    apply negb_true_iff in Ha. simpl in Hf.
    assert (HI : forall L1 (Q : Res unit -> Lexer -> Prop),
               source L1 = source L -> cursor L1 = cursor L + 1 ->
               (forall r L', r = Ok tt /\
                             cursor L' = cursor L1 + String.length body + 2 ->
                             Q r L') ->
               sat (skip_block_comment fuel) L1 Q).
    { intros L1 Q Hs Hc HQ. eapply sat_conseq; [apply IH|exact HQ].
      - rewrite Hs, Hc. exact Hr1.
      - exact Hnc.
      - lia. }
    destruct (ch_eq a "*") eqn:Ea.
    + step.
      destruct (nonempty_head body "*" (String "/" rest)) as (ch' & tl' & E').
      rewrite E' in Hr1.
      eapply sat_known;
        [apply read_input_Some; exact (reads_head _ _ _ _ Hr1)|].
      cbv beta iota.
      assert (Hch' : ch_eq ch' "/" = false).
      { destruct body as [|b body'].
        - change (String "*" (String "/" rest) = String ch' tl') in E'.
          injection E' as <- _. reflexivity.
        - change (String b (body' ++ String "*" (String "/" rest))
                  = String ch' tl') in E'.
          injection E' as <- _. simpl in Ha. exact Ha. }
      rewrite Hch'. apply HI; [reflexivity | reflexivity|].
      intros r L' [-> Hc]. split; [reflexivity | simpl in *; lia].
    + destruct (ch_eq a NL).
      * step. step. apply HI; [reflexivity | reflexivity|].
        intros r L' [-> Hc]. split; [reflexivity | simpl in *; lia].
      * apply HI; [reflexivity | reflexivity|].
        intros r L' [-> Hc]. split; [reflexivity | simpl in *; lia].
Qed.

(** The loop on a line comment, over a text without newline, then the
    newline. *)
Lemma skip_line_comment_ends rest : forall text fuel L,
  reads (source L) (cursor L) (text ++ String NL rest) ->
  all_chars not_newline text = true ->
  String.length text < fuel ->
  sat (skip_line_comment fuel) L
      (fun r L' => r = Ok true /\
                   cursor L' = cursor L + String.length text + 1).
Proof.
  induction text as [|a text IH]; intros fuel L Hr Hnl Hf;
    (destruct fuel as [|fuel]; [simpl in Hf; lia|]);
    simpl skip_line_comment; step; apply sat_try; step;
    (eapply sat_known;
     [unfold next_char, bind; rewrite (read_input_Some _ _ (reads_head _ _ _ _ Hr));
      reflexivity|]);
    cbv beta iota; step; cbv beta iota.
  - change (ch_eq NL NL) with true. cbv iota. step. step. step.
    split; [reflexivity | simpl; lia].
  - change (reads (source L) (cursor L)
              (String a (text ++ String NL rest))) in Hr.
    pose proof (reads_tail _ _ _ _ Hr) as Hr1.
    simpl in Hnl. apply andb_prop in Hnl. destruct Hnl as [Ha Hnl].
    unfold not_newline in Ha. apply negb_true_iff in Ha. rewrite Ha.
    simpl in Hf.
    eapply sat_conseq; [apply IH|].
    + exact Hr1.
    + exact Hnl.
    + lia.
    + intros r L' [-> Hc]. split; [reflexivity | simpl in *; lia].
Qed.

Lemma skipped_not_slash nl ch :
  skipped nl ch = true -> ch_eq ch "/" = false.
Proof.
  intros H. destruct (ch_eq ch "/") eqn:E; [|reflexivity].
  apply Ascii.eqb_eq in E. subst ch. destruct nl; discriminate H.
Qed.

(** One turn of the loop of [skip] over a text that it passes over. *)
Lemma skip_loop_passes p fuel L rest (Q : Res unit -> Lexer -> Prop) :
  reads (source L) (cursor L) (passed_text p ++ rest) ->
  passed_ok (scanNewlines L) p = true ->
  (forall L2, source L2 = source L -> filename L2 = filename L ->
              scanNewlines L2 = scanNewlines L ->
              cursor L2 = cursor L + String.length (passed_text p) ->
              line L2 = line L + count_nl (passed_text p) ->
              sat (skip_loop fuel) L2 Q) ->
  sat (skip_loop (S fuel)) L Q.
Proof.
  intros Hr Hok HQ.
  pose proof (reads_slice _ _ _ _ Hr) as Hslice.
  pose proof (reads_length _ _ _ Hr) as Hlen.
  destruct p as [ch|body|text]; simpl in Hok.
  - (* a blank, or a newline that is counted *)
    change (reads (source L) (cursor L) (String ch rest)) in Hr.
    pose proof (skipped_not_slash _ _ Hok) as Hsl.
    simpl skip_loop. step. step. rewrite (reads_head _ _ _ _ Hr).
    step. step. step. step. cbn [scanNewlines set_cursor].
    rewrite Hsl. cbn [andb].
    destruct (ch_eq ch NL && negb (scanNewlines L)) eqn:Enl.
    + apply andb_prop in Enl. destruct Enl as [Enl _].
      step. step. apply HQ; try reflexivity.
      simpl. rewrite Enl. lia.
    + destruct (negb (ch_eq ch " ") && negb (ch_eq ch TAB)) eqn:Eb.
      * exfalso. unfold skipped in Hok.
        destruct (ch_eq ch " "), (ch_eq ch TAB), (ch_eq ch NL),
          (scanNewlines L); discriminate.
      * apply HQ; try reflexivity.
        simpl. rewrite (blank_not_newline _ Eb). lia.
  - (* a block comment that is closed *)
    change (reads (source L) (cursor L)
              (String "/" (String "*" ((body ++ "*/") ++ rest)))) in Hr.
    rewrite string_app_assoc in Hr.
    change ("*/" ++ rest)%string with (String "*" (String "/" rest)) in Hr.
    pose proof (reads_head _ _ _ _ Hr) as H0.
    pose proof (reads_tail _ _ _ _ Hr) as Hr1.
    pose proof (reads_head _ _ _ _ Hr1) as H1.
    pose proof (reads_tail _ _ _ _ Hr1) as Hr2.
    simpl in Hlen. rewrite !length_append in Hlen. simpl in Hlen.
    simpl skip_loop. step. step. rewrite H0.
    step. step. step. step. cbn [cursor source scanNewlines set_cursor].
    rewrite H1.
    change (ch_eq "/" NL) with false. change (ch_eq "/" "/") with true.
    change (opt_is (Some "*"%char) "*") with true. cbn [andb].
    step. step. step. apply sat_with_fuel_S.
    set (La := set_cursor _ _).
    assert (HC0 : counted L La).
    { apply (counted_advance L _ "*"); [|exact H1|reflexivity].
      apply (counted_advance L L "/"); [apply counted_refl|exact H0|reflexivity]. }
    eapply sat_conseq;
      [apply sat_and;
       [apply sat_and;
        [apply (skip_block_comment_closes rest body)
        |apply skip_block_comment_spec]
       |apply skip_block_comment_counts]|].
    + exact Hr2.
    + exact Hok.
    + simpl. lia.
    + unfold enough, len. simpl. lia.
    + intros r L2 [[[-> Hc] HM] HC].
      apply moves_inv in HM. destruct HM as ((Hs & Hf & Hn & _) & _).
      destruct (HC L HC0) as (_ & _ & Hline).
      assert (Hcur : cursor L2
                     = cursor L + String.length (passed_text (PBlock body))).
      { rewrite Hc. simpl. rewrite length_append. simpl. lia. }
      apply HQ; try assumption.
      rewrite Hline, Hcur, Hslice. reflexivity.
  - (* a line comment and the newline that ends it *)
    change (reads (source L) (cursor L)
              (String "/" (String "/" ((text ++ str1 NL) ++ rest)))) in Hr.
    rewrite string_app_assoc in Hr.
    change (str1 NL ++ rest)%string with (String NL rest) in Hr.
    pose proof (reads_head _ _ _ _ Hr) as H0.
    pose proof (reads_tail _ _ _ _ Hr) as Hr1.
    pose proof (reads_head _ _ _ _ Hr1) as H1.
    pose proof (reads_tail _ _ _ _ Hr1) as Hr2.
    simpl in Hlen. rewrite !length_append in Hlen. simpl in Hlen.
    simpl skip_loop. step. step. rewrite H0.
    step. step. step. step. cbn [cursor source scanNewlines set_cursor].
    rewrite H1.
    change (ch_eq "/" NL) with false. change (ch_eq "/" "/") with true.
    change (opt_is (Some "/"%char) "*") with false.
    change (opt_is (Some "/"%char) "/") with true. cbn [andb].
    step. step. step. apply sat_with_fuel_S.
    set (La := set_cursor _ _).
    assert (HC0 : counted L La).
    { apply (counted_advance L _ "/"); [|exact H1|reflexivity].
      apply (counted_advance L L "/"); [apply counted_refl|exact H0|reflexivity]. }
    eapply sat_conseq;
      [apply sat_and;
       [apply sat_and;
        [apply (skip_line_comment_ends rest text)
        |apply skip_line_comment_spec]
       |apply skip_line_comment_counts]|].
    + exact Hr2.
    + exact Hok.
    + simpl. lia.
    + unfold enough, len. simpl. lia.
    + intros r L2 [[[-> Hc] HM] HC].
      apply moves_inv in HM. destruct HM as ((Hs & Hf & Hn & _) & _).
      destruct (HC L HC0) as (_ & _ & Hline).
      assert (Hcur : cursor L2
                     = cursor L + String.length (passed_text (PLine text))).
      { rewrite Hc. simpl. rewrite length_append. simpl. lia. }
      cbv iota. apply HQ; try assumption.
      rewrite Hline, Hcur, Hslice. reflexivity.
Qed.

(** After what it passes over, [skip] meets the opener of a block comment
    that nothing closes. *)
Lemma skip_loop_unterminated body : forall ps fuel L,
  reads (source L) (cursor L)
        (passed_texts ps ++ String "/" (String "*" body)) ->
  forallb (passed_ok (scanNewlines L)) ps = true ->
  open_ended body = true ->
  List.length ps < fuel ->
  sat (skip_loop fuel) L
      (fun r _ =>
         r = Raise (ParseError "Unterminated comment" (filename L)
                      (line L + count_nl (passed_texts ps) + count_nl body))).
Proof.
  induction ps as [|p ps IH]; intros fuel L Hr Hok Hopen Hf;
    (destruct fuel as [|fuel]; [simpl in Hf; lia|]).
  - unfold sat. simpl passed_texts. rewrite Nat.add_0_r.
    apply skip_loop_at_opener; [exact Hr | exact Hopen].
  - simpl in Hok. apply andb_prop in Hok. destruct Hok as [Hp Hps].
    simpl passed_texts in Hr. rewrite string_app_assoc in Hr.
    apply (skip_loop_passes p fuel L _ _ Hr Hp).
    intros L2 Hs Hfn Hnl Hc Hl.
    eapply sat_conseq; [apply (IH fuel L2)|].
    + rewrite Hs, Hc. exact (reads_app _ _ _ _ Hr).
    + rewrite Hnl. exact Hps.
    + exact Hopen.
    + simpl in Hf. lia.
    + intros r _ ->. simpl passed_texts. rewrite count_nl_app, Hfn, Hl.
      do 2 f_equal. lia.
Qed.

Section Comments.

Variable py_eval : string -> Exn + Value.

(** C3 (amended).  From a state with no lookahead, when the input at the
    cursor is what [skip] passes over (any sequence of spaces, tabs,
    newlines if [scanNewlines] is cleared, closed block comments and line
    comments ended by their newline) followed by the opener of a block
    comment that nothing closes before the end of the source, the last
    character of which is not a star, [get] raises the
    unterminated-comment error with the file name and the current line:
    the line of the state plus the newlines passed over before the
    comment and the newlines in the comment, which is the line where the
    input ran out. *)
Theorem unterminated_comment_reports_current_line L ps body :
  lookahead L = 0 ->
  input_ L = (passed_texts ps ++ String "/" (String "*" body))%string ->
  forallb (passed_ok (scanNewlines L)) ps = true ->
  open_ended body = true ->
  fst (get py_eval L)
  = Raise (ParseError "Unterminated comment" (filename L)
             (line L + count_nl (passed_texts ps) + count_nl body)).
Proof.
  intros Hla Hin Hok Hopen.
  pose proof (input_reads _ _ Hin) as Hr.
  assert (Hskip : fst (skip L)
                  = Raise (ParseError "Unterminated comment" (filename L)
                             (line L + count_nl (passed_texts ps)
                              + count_nl body))).
  { apply (skip_loop_unterminated body ps (fuel_of L) L Hr Hok Hopen).
    unfold fuel_of. pose proof (reads_length _ _ _ Hr) as Hlen.
    rewrite length_append in Hlen.
    assert (Hps : forall qs, List.length qs <= String.length (passed_texts qs)).
    { induction qs as [|q qs IHq]; [simpl; lia|].
      simpl passed_texts. rewrite length_append. simpl List.length.
      destruct q; simpl; lia. }
    specialize (Hps ps). lia. }
  unfold get, bind at 1, self. rewrite Hla. simpl get_replay.
  unfold bind at 1, ret. unfold get_scan, bind at 1.
  destruct (skip L) as [[[]|e|] L1]; simpl in Hskip; try discriminate Hskip.
  simpl. injection Hskip as ->. reflexivity.
Qed.

End Comments.

Lemma unterminated_comment_reports_current_line_witness :
  let ps := [PChar " "; PBlock ("a" ++ String NL "b"); PChar NL;
             PLine " c"; PChar TAB] in
  let body := String "d" (String NL (String "*" (String "e" EmptyString))) in
  let L := Lexer_init (passed_texts ps ++ String "/" (String "*" body))
             "lexer.js" in
  fst (get eval_text L)
  = Raise (ParseError "Unterminated comment" "lexer.js" 5).
Proof.
  intros ps body L.
  apply (unterminated_comment_reports_current_line eval_text L ps body);
    reflexivity.
Defined.

(** * A slash in operand position is never lexed *)

Lemma substring_head s : forall a n ch,
  String.get a s = Some ch ->
  substring a (S n) s = String ch (substring (S a) n s).
Proof.
  induction s as [|x s IH]; intros a n ch H; [destruct a; discriminate H|].
  destruct a as [|a].
  - simpl in H. injection H as ->. reflexivity.
  - simpl in H. simpl. rewrite (IH a n ch H). reflexivity.
Qed.

Lemma slice_head s a b ch :
  String.get a s = Some ch -> a < b ->
  slice s a b = String ch (slice s (S a) b).
Proof.
  intros H Hlt. unfold slice.
  replace (b - a) with (S (b - S a)) by lia. apply substring_head, H.
Qed.

Section Regexp.

Variable py_eval : string -> Exn + Value.

(** [lexRegExp] ends by handing the text of the literal, from its opening
    slash on, to [eval].  When [eval] raises on every text that begins
    with a slash, as Python's does, [lexRegExp] never returns. *)
Lemma lexRegExp_raises ch L t s :
  (forall rest, exists e, py_eval (String "/" rest) = inl e) ->
  tokens L !! tokenIndex L = Some t -> t_start t = Some s ->
  String.get s (source L) = Some "/"%char -> s < cursor L ->
  sat (lexRegExp py_eval ch) L (fun r _ => exists e, r = Raise e).
Proof.
  intros Heval E Hs Hget Hlt. unfold lexRegExp. step.
  eapply sat_upd_token_at; [exact E|].
  set (L1 := set_tokens _ _).
  assert (E1 : tokens L1 !! tokenIndex L1 = Some (with_type "regexp" t))
    by (unfold L1; simpl; apply lookup_insert_eq).
  assert (Hsrc1 : source L1 = source L) by reflexivity.
  assert (Hcur1 : cursor L1 = cursor L) by reflexivity.
  clearbody L1.
  step. apply sat_with_fuel_S.
  eapply sat_conseq;
    [apply sat_and; [apply lexRegExp_body_spec|apply lexRegExp_body_kept]|].
  { unfold enough, len. lia. }
  intros r L2 [(Hsh2 & _ & Hc2 & Hg2) (Ht2 & Hi2)].
  destruct r as [[]|e|]; [|eexists; reflexivity|contradiction].
  apply shape_inv in Hsh2. destruct Hsh2 as ((Hsrc2 & _) & _).
  step. apply sat_with_fuel_S.
  eapply sat_conseq;
    [apply sat_and; [apply scan_while_spec|apply scan_while_kept]|].
  { unfold enough, len. lia. }
  intros r L3 [(Hsh3 & _ & Hc3 & Hg3) (Ht3 & Hi3)].
  destruct r as [[]|e|]; [|eexists; reflexivity|contradiction].
  apply shape_inv in Hsh3. destruct Hsh3 as ((Hsrc3 & _) & _).
  step. step. step. unfold segment_from_start. step.
  eapply sat_read_token_at.
  { simpl. rewrite Ht3, Hi3, Ht2, Hi2. exact E1. }
  simpl t_start. rewrite Hs. step. step. step.
  unfold set_eval_value. simpl cursor. simpl source.
  rewrite (slice_head _ s _ "/").
  - destruct (Heval (slice (source L3) (S s) (cursor L3 - 1))) as (e & ->).
    step. eexists. reflexivity.
  - rewrite Hsrc3, Hsrc2, Hsrc1. exact Hget.
  - destruct Hg2 as [Hg2 _]. destruct Hg3 as [Hg3 _]. lia.
Qed.

(** C10 (defect of the code).  A freshly constructed lexer has
    [scanOperand] set, [scanNewlines] cleared, no lookahead, line 1 and
    cursor 0, and when the first character that [skip] does not eat is a
    slash, [get] does take it for the start of a regular expression, not
    for a division: the token is tagged [regexp].  But no regexp literal
    is ever lexed: [lexRegExp] ends by evaluating the text of the
    literal with Python's [eval], which raises on a text that begins
    with a slash, so [get] never returns and raises instead. *)
Theorem C10_slash_on_fresh_lexer_is_never_lexed src fname L1 :
  (forall rest, exists e, py_eval (String "/" rest) = inl e) ->
  skip (Lexer_init src fname) = (Ok tt, L1) ->
  String.get (cursor L1) src = Some "/"%char ->
  let L := Lexer_init src fname in
  (scanOperand L = true /\ scanNewlines L = false /\ lookahead L = 0 /\
   line L = 1 /\ cursor L = 0) /\
  cur_type (snd (get py_eval L)) = Some "regexp" /\
  exists e, fst (get py_eval L) = Raise e.
Proof.
  intros Heval Hskip Hget L. split; [repeat split|].
  split.
  - assert (H : sat (get py_eval) L
                  (fun r L' => cur_type L' = Some "regexp" /\
                               (r = Ok "regexp" \/ exists e, r = Raise e)))
      by (apply (get_slash_regexp py_eval L L1); try assumption; reflexivity).
    destruct H as [H _]. exact H.
  - destruct (skip_keeps _ _ _ Hskip) as ((Hsrc & _ & _ & Hop) & _).
    assert (Hget1 : String.get (cursor L1) (source L1) = Some "/"%char)
      by (rewrite Hsrc; exact Hget).
    rewrite (get_fresh py_eval L L1 "/" eq_refl Hskip Hget1).
    change (sat (get_dispatch py_eval "/" ;; get_finish)
              (with_token (started L1) (cursor L1 + 1) L1)
              (fun r _ => exists e, r = Raise e)).
    run. unfold get_dispatch. run. run. flags.
    change (is_ident_start "/") with false. cbv iota.
    rewrite Hop. change (scanOperand L) with true.
    change (ch_eq "/" "/") with true. cbn [andb]. cbv iota.
    eapply sat_conseq;
      [apply (lexRegExp_raises "/" _ (started L1) (cursor L1) Heval)|].
    + unfold with_token. simpl. apply lookup_insert_eq.
    + reflexivity.
    + exact Hget1.
    + simpl. lia.
    + intros r L2 (e & ->). eexists. reflexivity.
Qed.

End Regexp.

Lemma C10_slash_on_fresh_lexer_is_never_lexed_witness :
  let L := Lexer_init "  /a+/ " "lexer.js" in
  (scanOperand L = true /\ scanNewlines L = false /\ lookahead L = 0 /\
   line L = 1 /\ cursor L = 0) /\
  cur_type (snd (get eval_text L)) = Some "regexp" /\
  exists e, fst (get eval_text L) = Raise e.
Proof.
  apply (C10_slash_on_fresh_lexer_is_never_lexed eval_text
           "  /a+/ " "lexer.js"
           (snd (skip (Lexer_init "  /a+/ " "lexer.js")))).
  - intros rest. exists SyntaxError. reflexivity.
  - vm_compute. reflexivity.
  - vm_compute. reflexivity.
Defined.

(** On that source [eval] is reached and raises [SyntaxError]; when the
    literal ends the source, the loop on the flags raises [IndexError]
    before that. *)
Lemma slash_on_fresh_lexer_examples :
  fst (get eval_text (Lexer_init "  /a+/ " "lexer.js")) = Raise SyntaxError /\
  fst (get eval_text (Lexer_init "/a+/" "lexer.js")) = Raise IndexError.
Proof. split; vm_compute; reflexivity. Qed.
